(** * ActivityStreams property and type codec: a shallow embedding

    The development follows three generated Go files of the repository:
    - [property_followers/gen_property_followers.go], the functional
      property "followers" (module [Followers]);
    - the package [propertytype], the non-functional property "type" with
      its iterator (module [TypeProp]);
    - the package [typeorderedcollectionpage], the entity
      "OrderedCollectionPage" (module [Page]).

    Go's [interface{}] values coming out of a JSON decoder are the
    inductive [raw]; a Go [map[string]interface{}] is a [gmap string raw];
    a pointer or interface field that may be [nil] is an [option]; a pair
    [(value, error)] is a [result]. *)

From Stdlib Require Import ZArith Ascii String.
From stdpp Require Import gmap strings list fin_maps.

Open Scope string_scope.
Open Scope Z_scope.

Set Warnings "-register-all".

(** ** Raw documents *)

(** The generic key/value document model.  [RNull] is the [nil] interface
    value.  A JSON number is a [float64] in Go; the codec never inspects
    it, so it is carried by its bit pattern. *)
Inductive raw : Type :=
| RNull
| RBool (b : bool)
| RNumber (bits : Z)
| RString (s : string)
| RList (l : list raw)
| RMap (m : gmap string raw).

(** The type switch [i.(string)]. *)
Definition asString (i : raw) : option string :=
  match i with RString s => Some s | _ => None end.

(** The type switch [i.([]interface{})]. *)
Definition asList (i : raw) : option (list raw) :=
  match i with RList l => Some l | _ => None end.

(** The type switch [i.(map[string]interface{})]. *)
Definition asMap (i : raw) : option (gmap string raw) :=
  match i with RMap m => Some m | _ => None end.

(** The test [i != nil] on an interface value. *)
Definition isNil (i : raw) : bool :=
  match i with RNull => true | _ => false end.

(** ** Errors and results *)

(** The errors the three files build with [fmt.Errorf], one constructor per
    message, and [ErrCollaborator] for an error handed up by a parser or a
    serializer of another package. *)
Inductive error : Type :=
| ErrNoType                          (* no "type" property in map *)
| ErrTypeNotOf (typeName : string)   (* "type" property is not of %q type: %s *)
| ErrTypeNotFound                    (* could not find a "type" property of value %q *)
| ErrTypeUnrecognized (v : raw)      (* "type" property is unrecognized type: %T *)
| ErrCollaborator (msg : string).

Inductive result (A : Type) : Type :=
| Ok (a : A)
| Err (e : error).
Arguments Ok {A} a.
Arguments Err {A} e.

(** [if v, err := f(); err != nil { return nil, err }] is the bind of this
    monad, written [v ← f; ...]. *)
#[global] Instance result_bind : MBind result := λ A B k r,
  match r with
  | Ok a => k a
  | Err e => Err e
  end.

#[global] Instance result_fmap : FMap result := λ A B f r,
  match r with
  | Ok a => Ok (f a)
  | Err e => Err e
  end.

Definition isOk {A : Type} (r : result A) : bool :=
  match r with Ok _ => true | Err _ => false end.

(** ** Strings *)

(** [stripPrefix s p] is the rest of [s] after [p] when [s] starts with [p]. *)
Fixpoint stripPrefix (s p : string) : option string :=
  match p with
  | EmptyString => Some s
  | String c p' =>
      match s with
      | String d s' => if Ascii.eqb c d then stripPrefix s' p' else None
      | EmptyString => None
      end
  end.

(** Go's [strings.TrimPrefix]. *)
Definition TrimPrefix (s p : string) : string :=
  default s (stripPrefix s p).

(** The namespace under which the alias map is consulted. *)
Definition asNamespace : string :=
  "https://www.w3.org/TR/activitystreams-vocabulary".

(** The first lines of every deserializer: the alias registered for the
    ActivityStreams namespace, or the empty string. *)
Definition aliasOf (aliasMap : gmap string string) : string :=
  match aliasMap !! asNamespace with
  | Some a => a
  | None => ""
  end.

(** [propName] as every property deserializer computes it:
    [fmt.Sprintf("%s:%s", alias, name)] when [len(alias) > 0]. *)
Definition propNameFor (alias name : string) : string :=
  if bool_decide (alias = "") then name else alias +:+ ":" +:+ name.

(** ** Collaborators outside the three files *)

(** Go's [net/url], as far as the codec uses it: [url.Parse] ([None] when
    it returns an error), the field [Scheme] and the method [String]. *)
Class NetURL : Type := {
  URL : Type;
  url_Parse : string → option URL;
  url_Scheme : URL → string;
  url_String : URL → string;
}.

(** The value packages [values/anyURI] and [values/string]: the parser,
    the serializer and the comparison of the two primitive kinds of the
    "type" property.  A parse that succeeds yields a URL that is not [nil]. *)
Class Values `{NetURL} : Type := {
  DeserializeAnyURI : raw → result URL;
  SerializeAnyURI : URL → result raw;
  LessAnyURI : URL → URL → bool;
  DeserializeString : raw → result string;
  SerializeString : string → result raw;
  LessString : string → string → bool;
}.

(** The entity types a "followers" value may hold.  They live in other
    packages of the repository; a value is known here through the two
    methods the property calls on it. *)
Class VocabType (T : Type) : Type := {
  type_LessThan : T → T → bool;
  type_Serialize : T → result (gmap string raw);
}.

(** A type deserializer handed out by the manager [mgr]: a function from
    the raw map and the alias map to the entity or an error. *)
Definition typeDeserializer (T : Type) : Type :=
  gmap string raw → gmap string string → result T.

(** ** The functional property "followers" *)

Module Followers.
Section Followers.
Context `{NetURL}.
Context {OrderedCollectionInterface CollectionInterface
         CollectionPageInterface OrderedCollectionPageInterface : Type}.
Context `{!VocabType OrderedCollectionInterface, !VocabType CollectionInterface,
          !VocabType CollectionPageInterface,
          !VocabType OrderedCollectionPageInterface}.
(** [mgr.Deserialize...ActivityStreams()] for the four candidate kinds. *)
Context (DeserializeOrderedCollectionActivityStreams :
           typeDeserializer OrderedCollectionInterface)
        (DeserializeCollectionActivityStreams :
           typeDeserializer CollectionInterface)
        (DeserializeCollectionPageActivityStreams :
           typeDeserializer CollectionPageInterface)
        (DeserializeOrderedCollectionPageActivityStreams :
           typeDeserializer OrderedCollectionPageInterface).

Record FollowersProperty : Type := {
  OrderedCollectionMember : option OrderedCollectionInterface;
  CollectionMember : option CollectionInterface;
  CollectionPageMember : option CollectionPageInterface;
  OrderedCollectionPageMember : option OrderedCollectionPageInterface;
  unknown : raw;
  iri : option URL;
  alias : string;
}.

(** The composite literal [&FollowersProperty{alias: a}]: every other
    field has its zero value. *)
Definition zero (a : string) : FollowersProperty :=
  {| OrderedCollectionMember := None; CollectionMember := None;
     CollectionPageMember := None; OrderedCollectionPageMember := None;
     unknown := RNull; iri := None; alias := a |}.

(** The first test on the raw value: a string that [url.Parse] accepts
    and whose scheme is not empty is an IRI. *)
Definition parseIRI (i : raw) : option URL :=
  match asString i with
  | Some s =>
      match url_Parse s with
      | Some u => if bool_decide (url_Scheme u = "") then None else Some u
      | None => None
      end
  | None => None
  end.

Definition DeserializeFollowersProperty
    (m : gmap string raw) (aliasMap : gmap string string)
    : result (option FollowersProperty) :=
  let alias := aliasOf aliasMap in
  let propName := propNameFor alias "followers" in
  match m !! propName with
  | Some i =>
      match parseIRI i with
      | Some u =>
          Ok (Some {| OrderedCollectionMember := None; CollectionMember := None;
                      CollectionPageMember := None;
                      OrderedCollectionPageMember := None;
                      unknown := RNull; iri := Some u; alias := alias |})
      | None =>
          let fallback :=
            Ok (Some {| OrderedCollectionMember := None; CollectionMember := None;
                        CollectionPageMember := None;
                        OrderedCollectionPageMember := None;
                        unknown := i; iri := None; alias := alias |}) in
          match asMap i with
          | Some m' =>
              match DeserializeOrderedCollectionActivityStreams m' aliasMap with
              | Ok v =>
                  Ok (Some {| OrderedCollectionMember := Some v;
                              CollectionMember := None;
                              CollectionPageMember := None;
                              OrderedCollectionPageMember := None;
                              unknown := RNull; iri := None; alias := alias |})
              | Err _ =>
              match DeserializeCollectionActivityStreams m' aliasMap with
              | Ok v =>
                  Ok (Some {| OrderedCollectionMember := None;
                              CollectionMember := Some v;
                              CollectionPageMember := None;
                              OrderedCollectionPageMember := None;
                              unknown := RNull; iri := None; alias := alias |})
              | Err _ =>
              match DeserializeCollectionPageActivityStreams m' aliasMap with
              | Ok v =>
                  Ok (Some {| OrderedCollectionMember := None;
                              CollectionMember := None;
                              CollectionPageMember := Some v;
                              OrderedCollectionPageMember := None;
                              unknown := RNull; iri := None; alias := alias |})
              | Err _ =>
              match DeserializeOrderedCollectionPageActivityStreams m' aliasMap with
              | Ok v =>
                  Ok (Some {| OrderedCollectionMember := None;
                              CollectionMember := None;
                              CollectionPageMember := None;
                              OrderedCollectionPageMember := Some v;
                              unknown := RNull; iri := None; alias := alias |})
              | Err _ => fallback
              end end end end
          | None => fallback
          end
      end
  | None => Ok None
  end.

Definition NewFollowersProperty : FollowersProperty := zero "".

Definition Clear (this : FollowersProperty) : FollowersProperty :=
  {| OrderedCollectionMember := None; CollectionMember := None;
     CollectionPageMember := None; OrderedCollectionPageMember := None;
     unknown := RNull; iri := None; alias := alias this |}.

Definition GetCollection (this : FollowersProperty) := CollectionMember this.
Definition GetCollectionPage (this : FollowersProperty) := CollectionPageMember this.
Definition GetIRI (this : FollowersProperty) := iri this.
Definition GetOrderedCollection (this : FollowersProperty) :=
  OrderedCollectionMember this.
Definition GetOrderedCollectionPage (this : FollowersProperty) :=
  OrderedCollectionPageMember this.

Definition IsCollection (this : FollowersProperty) : bool :=
  bool_decide (CollectionMember this ≠ None).
Definition IsCollectionPage (this : FollowersProperty) : bool :=
  bool_decide (CollectionPageMember this ≠ None).
Definition IsIRI (this : FollowersProperty) : bool :=
  bool_decide (iri this ≠ None).
Definition IsOrderedCollection (this : FollowersProperty) : bool :=
  bool_decide (OrderedCollectionMember this ≠ None).
Definition IsOrderedCollectionPage (this : FollowersProperty) : bool :=
  bool_decide (OrderedCollectionPageMember this ≠ None).

Definition HasAny (this : FollowersProperty) : bool :=
  IsOrderedCollection this || IsCollection this || IsCollectionPage this
  || IsOrderedCollectionPage this || bool_decide (iri this ≠ None).

(** One of the four entity kinds is committed: [HasAny] without its last
    disjunct. *)
Definition hasEntity (this : FollowersProperty) : bool :=
  IsOrderedCollection this || IsCollection this || IsCollectionPage this
  || IsOrderedCollectionPage this.

Definition KindIndex (this : FollowersProperty) : Z :=
  if IsOrderedCollection this then 0
  else if IsCollection this then 1
  else if IsCollectionPage this then 2
  else if IsOrderedCollectionPage this then 3
  else if IsIRI this then -2
  else -1.

(** [a.LessThan(b)] on two members of one kind.  The call is made only
    when both cells report the same [KindIndex], so neither side is
    [nil]; a [nil] side would stop the Go program and is [false] here. *)
Definition lessMember {T : Type} `{!VocabType T} (a b : option T) : bool :=
  match a, b with
  | Some x, Some y => type_LessThan x y
  | _, _ => false
  end.

(** [this.iri.String() < o.GetIRI().String()], bytewise. *)
Definition lessIRI (a b : option URL) : bool :=
  match a, b with
  | Some x, Some y => String.ltb (url_String x) (url_String y)
  | _, _ => false
  end.

Definition LessThan (this o : FollowersProperty) : bool :=
  let idx1 := KindIndex this in
  let idx2 := KindIndex o in
  if idx1 <? idx2 then true
  else if idx1 >? idx2 then false
  else if IsOrderedCollection this then
    lessMember (GetOrderedCollection this) (GetOrderedCollection o)
  else if IsCollection this then
    lessMember (GetCollection this) (GetCollection o)
  else if IsCollectionPage this then
    lessMember (GetCollectionPage this) (GetCollectionPage o)
  else if IsOrderedCollectionPage this then
    lessMember (GetOrderedCollectionPage this) (GetOrderedCollectionPage o)
  else if IsIRI this then lessIRI (iri this) (GetIRI o)
  else false.

Definition Name (this : FollowersProperty) : string := "followers".

(** [v.Serialize()] on a member: the entity's map as an [interface{}]. *)
Definition serializeMember {T : Type} `{!VocabType T} (v : T) : result raw :=
  m ← type_Serialize v; Ok (RMap m).

Definition Serialize (this : FollowersProperty) : result raw :=
  match OrderedCollectionMember this, CollectionMember this,
        CollectionPageMember this, OrderedCollectionPageMember this, iri this with
  | Some v, _, _, _, _ => serializeMember v
  | None, Some v, _, _, _ => serializeMember v
  | None, None, Some v, _, _ => serializeMember v
  | None, None, None, Some v, _ => serializeMember v
  | None, None, None, None, Some u => Ok (RString (url_String u))
  | None, None, None, None, None => Ok (unknown this)
  end.

(** The setters take the Go argument as it is: an interface value or a
    pointer, which may be [nil] ([None]). *)
Definition SetCollection (this : FollowersProperty)
    (v : option CollectionInterface) : FollowersProperty :=
  let this := Clear this in
  {| OrderedCollectionMember := OrderedCollectionMember this;
     CollectionMember := v;
     CollectionPageMember := CollectionPageMember this;
     OrderedCollectionPageMember := OrderedCollectionPageMember this;
     unknown := unknown this; iri := iri this; alias := alias this |}.

Definition SetCollectionPage (this : FollowersProperty)
    (v : option CollectionPageInterface) : FollowersProperty :=
  let this := Clear this in
  {| OrderedCollectionMember := OrderedCollectionMember this;
     CollectionMember := CollectionMember this;
     CollectionPageMember := v;
     OrderedCollectionPageMember := OrderedCollectionPageMember this;
     unknown := unknown this; iri := iri this; alias := alias this |}.

Definition SetIRI (this : FollowersProperty) (v : option URL)
    : FollowersProperty :=
  let this := Clear this in
  {| OrderedCollectionMember := OrderedCollectionMember this;
     CollectionMember := CollectionMember this;
     CollectionPageMember := CollectionPageMember this;
     OrderedCollectionPageMember := OrderedCollectionPageMember this;
     unknown := unknown this; iri := v; alias := alias this |}.

Definition SetOrderedCollection (this : FollowersProperty)
    (v : option OrderedCollectionInterface) : FollowersProperty :=
  let this := Clear this in
  {| OrderedCollectionMember := v;
     CollectionMember := CollectionMember this;
     CollectionPageMember := CollectionPageMember this;
     OrderedCollectionPageMember := OrderedCollectionPageMember this;
     unknown := unknown this; iri := iri this; alias := alias this |}.

Definition SetOrderedCollectionPage (this : FollowersProperty)
    (v : option OrderedCollectionPageInterface) : FollowersProperty :=
  let this := Clear this in
  {| OrderedCollectionMember := OrderedCollectionMember this;
     CollectionMember := CollectionMember this;
     CollectionPageMember := CollectionPageMember this;
     OrderedCollectionPageMember := v;
     unknown := unknown this; iri := iri this; alias := alias this |}.
(** *** Vocabulary of the kind dispatch *)

(** No candidate kind parses [i]: the four entity deserializers are tried
    on a map only, and all of them fail on it. *)
Definition noEntityParses (i : raw) (aliasMap : gmap string string) : Prop :=
  ∀ m', asMap i = Some m' →
    isOk (DeserializeOrderedCollectionActivityStreams m' aliasMap) = false
    ∧ isOk (DeserializeCollectionActivityStreams m' aliasMap) = false
    ∧ isOk (DeserializeCollectionPageActivityStreams m' aliasMap) = false
    ∧ isOk (DeserializeOrderedCollectionPageActivityStreams m' aliasMap) = false.

(** The cell the fall-through commits: the IRI when the value is one, the
    raw value as unknown otherwise. *)
Definition fallbackCell (a : string) (i : raw) : FollowersProperty :=
  match parseIRI i with
  | Some u => SetIRI (zero a) (Some u)
  | None =>
      {| OrderedCollectionMember := None; CollectionMember := None;
         CollectionPageMember := None; OrderedCollectionPageMember := None;
         unknown := i; iri := None; alias := a |}
  end.
End Followers.
End Followers.

(** ** The non-functional property "type" *)

Module TypeProp.
Section TypeProp.
Context `{Values}.

(** [parent] is the back-pointer of an iterator to the property that owns
    it; the owner is the list the iterator sits in, so the field records
    only whether the pointer is set ([true]) or [nil] ([false]). *)
Record TypePropertyIterator : Type := {
  anyURIMember : option URL;
  stringMember : string;
  hasStringMember : bool;
  unknown : raw;
  alias : string;
  myIdx : Z;
  parent : bool;
}.

Definition NewTypePropertyIterator : TypePropertyIterator :=
  {| anyURIMember := None; stringMember := ""; hasStringMember := false;
     unknown := RNull; alias := ""; myIdx := 0; parent := false |}.

Definition deserializeTypePropertyIterator
    (i : raw) (aliasMap : gmap string string)
    : result (option TypePropertyIterator) :=
  let alias := aliasOf aliasMap in
  match DeserializeAnyURI i with
  | Ok v =>
      Ok (Some {| anyURIMember := Some v; stringMember := "";
                  hasStringMember := false; unknown := RNull;
                  alias := alias; myIdx := 0; parent := false |})
  | Err _ =>
      match DeserializeString i with
      | Ok v =>
          Ok (Some {| anyURIMember := None; stringMember := v;
                      hasStringMember := true; unknown := RNull;
                      alias := alias; myIdx := 0; parent := false |})
      | Err _ =>
          Ok (Some {| anyURIMember := None; stringMember := "";
                      hasStringMember := false; unknown := i;
                      alias := alias; myIdx := 0; parent := false |})
      end
  end.

Definition GetAnyURI (this : TypePropertyIterator) := anyURIMember this.
Definition GetIRI (this : TypePropertyIterator) := anyURIMember this.
Definition GetString (this : TypePropertyIterator) := stringMember this.

Definition IsAnyURI (this : TypePropertyIterator) : bool :=
  bool_decide (anyURIMember this ≠ None).
Definition IsIRI (this : TypePropertyIterator) : bool :=
  bool_decide (anyURIMember this ≠ None).
Definition IsString (this : TypePropertyIterator) : bool :=
  hasStringMember this.

Definition HasAny (this : TypePropertyIterator) : bool :=
  IsAnyURI this || IsString this.

Definition KindIndex (this : TypePropertyIterator) : Z :=
  if IsAnyURI this then 0
  else if IsString this then 1
  else if IsIRI this then -2
  else -1.

(** The members are compared only when both sides report the same
    [KindIndex]; a [nil] URL is handed to [LessAnyURI] in no other case
    and is [false] here. *)
Definition LessThan (this o : TypePropertyIterator) : bool :=
  let idx1 := KindIndex this in
  let idx2 := KindIndex o in
  if idx1 <? idx2 then true
  else if idx1 >? idx2 then false
  else if IsAnyURI this then
    match GetAnyURI this, GetAnyURI o with
    | Some a, Some b => LessAnyURI a b
    | _, _ => false
    end
  else if IsString this then LessString (GetString this) (GetString o)
  else false.

Definition clear (this : TypePropertyIterator) : TypePropertyIterator :=
  {| anyURIMember := None; stringMember := stringMember this;
     hasStringMember := false; unknown := RNull; alias := alias this;
     myIdx := myIdx this; parent := parent this |}.

Definition SetAnyURI (this : TypePropertyIterator) (v : option URL)
    : TypePropertyIterator :=
  let this := clear this in
  {| anyURIMember := v; stringMember := stringMember this;
     hasStringMember := hasStringMember this; unknown := unknown this;
     alias := alias this; myIdx := myIdx this; parent := parent this |}.

Definition SetIRI (this : TypePropertyIterator) (v : option URL)
    : TypePropertyIterator :=
  SetAnyURI (clear this) v.

Definition SetString (this : TypePropertyIterator) (v : string)
    : TypePropertyIterator :=
  let this := clear this in
  {| anyURIMember := anyURIMember this; stringMember := v;
     hasStringMember := true; unknown := unknown this;
     alias := alias this; myIdx := myIdx this; parent := parent this |}.

Definition serialize (this : TypePropertyIterator) : result raw :=
  match GetAnyURI this with
  | Some u => SerializeAnyURI u
  | None =>
      if IsString this then SerializeString (GetString this)
      else Ok (unknown this)
  end.

Record TypeProperty : Type := {
  properties : list TypePropertyIterator;
  tp_alias : string;
}.

(** The loop over the wire array: each element is deserialized and, when
    the iterator is not [nil], appended. *)
Fixpoint deserializeElements (wireList : list raw)
    (aliasMap : gmap string string) (properties : list TypePropertyIterator)
    : result (list TypePropertyIterator) :=
  match wireList with
  | [] => Ok properties
  | iterator :: rest =>
      p ← deserializeTypePropertyIterator iterator aliasMap;
      deserializeElements rest aliasMap
        (match p with Some p => properties ++ [p] | None => properties end)
  end.

(** [ele.parent = this; ele.myIdx = idx] for every element. *)
Definition setUp (properties : list TypePropertyIterator)
    : list TypePropertyIterator :=
  imap (λ idx ele,
          {| anyURIMember := anyURIMember ele; stringMember := stringMember ele;
             hasStringMember := hasStringMember ele; unknown := unknown ele;
             alias := alias ele; myIdx := Z.of_nat idx; parent := true |})
       properties.

(** On an error of an element the Go function returns the half-built
    property together with the error; its callers drop the property, and
    so does [Err]. *)
Definition DeserializeTypeProperty
    (m : gmap string raw) (aliasMap : gmap string string)
    : result (option TypeProperty) :=
  let alias := aliasOf aliasMap in
  let propName := propNameFor alias "type" in
  match m !! propName with
  | Some i =>
      properties ←
        match asList i with
        | Some wireList => deserializeElements wireList aliasMap []
        | None => deserializeElements [i] aliasMap []
        end;
      Ok (Some {| properties := setUp properties; tp_alias := alias |})
  | None => Ok None
  end.

Definition NewTypeProperty : TypeProperty :=
  {| properties := []; tp_alias := "" |}.

Definition Len (this : TypeProperty) : Z :=
  Z.of_nat (length (properties this)).

Definition AppendAnyURI (this : TypeProperty) (v : option URL) : TypeProperty :=
  {| properties := properties this ++
       [ {| anyURIMember := v; stringMember := ""; hasStringMember := false;
            unknown := RNull; alias := tp_alias this; myIdx := Len this;
            parent := true |} ];
     tp_alias := tp_alias this |}.

Definition AppendIRI (this : TypeProperty) (v : option URL) : TypeProperty :=
  {| properties := properties this ++
       [ {| anyURIMember := v; stringMember := ""; hasStringMember := false;
            unknown := RNull; alias := tp_alias this; myIdx := Len this;
            parent := true |} ];
     tp_alias := tp_alias this |}.

Definition AppendString (this : TypeProperty) (v : string) : TypeProperty :=
  {| properties := properties this ++
       [ {| anyURIMember := None; stringMember := v; hasStringMember := true;
            unknown := RNull; alias := tp_alias this; myIdx := Len this;
            parent := true |} ];
     tp_alias := tp_alias this |}.

Definition Name (this : TypeProperty) : string := "type".

(** The loop of [Serialize]: the serialized elements, in order. *)
Fixpoint serializeElements (properties : list TypePropertyIterator)
    (s : list raw) : result (list raw) :=
  match properties with
  | [] => Ok s
  | iterator :: rest =>
      b ← serialize iterator;
      serializeElements rest (s ++ [b])
  end.

(** "Shortcut: if serializing one value, don't return an array". *)
Definition shortcut (s : list raw) : raw :=
  match s with
  | [b] => b
  | _ => RList s
  end.

Definition Serialize (this : TypeProperty) : result raw :=
  s ← serializeElements (properties this) [];
  Ok (shortcut s).

(** The iterator the fall-through of the dispatch commits. *)
Definition unknownIterator (a : string) (i : raw) : TypePropertyIterator :=
  {| anyURIMember := None; stringMember := ""; hasStringMember := false;
     unknown := i; alias := a; myIdx := 0; parent := false |}.
End TypeProp.
End TypeProp.

(** ** The entity "OrderedCollectionPage" *)

Module Page.

(** A value of one of the [vocab.*PropertyInterface] types, as the entity
    uses it: the results of its methods [Name] and [Serialize]. *)
Record Property : Type := {
  prop_Name : string;
  prop_Serialize : result raw;
}.

(** A property deserializer handed out by the manager: [nil, nil] when the
    property is absent from the map. *)
Definition propertyDeserializer : Type :=
  gmap string raw → gmap string string → result (option Property).

(** The manager [mgr] of the package: one deserializer per known property
    whose package is not part of this development. *)
Class Manager : Type := {
  DeserializeAltitudePropertyActivityStreams : propertyDeserializer;
  DeserializeAttachmentPropertyActivityStreams : propertyDeserializer;
  DeserializeAttributedToPropertyActivityStreams : propertyDeserializer;
  DeserializeAudiencePropertyActivityStreams : propertyDeserializer;
  DeserializeBccPropertyActivityStreams : propertyDeserializer;
  DeserializeBtoPropertyActivityStreams : propertyDeserializer;
  DeserializeCcPropertyActivityStreams : propertyDeserializer;
  DeserializeContentPropertyActivityStreams : propertyDeserializer;
  DeserializeContextPropertyActivityStreams : propertyDeserializer;
  DeserializeCurrentPropertyActivityStreams : propertyDeserializer;
  DeserializeDurationPropertyActivityStreams : propertyDeserializer;
  DeserializeEndTimePropertyActivityStreams : propertyDeserializer;
  DeserializeFirstPropertyActivityStreams : propertyDeserializer;
  DeserializeGeneratorPropertyActivityStreams : propertyDeserializer;
  DeserializeIconPropertyActivityStreams : propertyDeserializer;
  DeserializeIdPropertyActivityStreams : propertyDeserializer;
  DeserializeImagePropertyActivityStreams : propertyDeserializer;
  DeserializeInReplyToPropertyActivityStreams : propertyDeserializer;
  DeserializeLastPropertyActivityStreams : propertyDeserializer;
  DeserializeLikesPropertyActivityStreams : propertyDeserializer;
  DeserializeLocationPropertyActivityStreams : propertyDeserializer;
  DeserializeMediaTypePropertyActivityStreams : propertyDeserializer;
  DeserializeNamePropertyActivityStreams : propertyDeserializer;
  DeserializeNextPropertyActivityStreams : propertyDeserializer;
  DeserializeObjectPropertyActivityStreams : propertyDeserializer;
  DeserializeOrderedItemsPropertyActivityStreams : propertyDeserializer;
  DeserializePartOfPropertyActivityStreams : propertyDeserializer;
  DeserializePrevPropertyActivityStreams : propertyDeserializer;
  DeserializePreviewPropertyActivityStreams : propertyDeserializer;
  DeserializePublishedPropertyActivityStreams : propertyDeserializer;
  DeserializeRepliesPropertyActivityStreams : propertyDeserializer;
  DeserializeSharesPropertyActivityStreams : propertyDeserializer;
  DeserializeStartIndexPropertyActivityStreams : propertyDeserializer;
  DeserializeStartTimePropertyActivityStreams : propertyDeserializer;
  DeserializeSummaryPropertyActivityStreams : propertyDeserializer;
  DeserializeTagPropertyActivityStreams : propertyDeserializer;
  DeserializeToPropertyActivityStreams : propertyDeserializer;
  DeserializeTotalItemsPropertyActivityStreams : propertyDeserializer;
  DeserializeUpdatedPropertyActivityStreams : propertyDeserializer;
  DeserializeUrlPropertyActivityStreams : propertyDeserializer;
}.

Section Page.
Context `{Values} `{!Manager}.

(** Modelled from the spec: the manager's entry for the "type" property,
    set up outside the three files.  Each declared property is parsed by
    its own deserializer, so the entry stands for the deserializer of the
    package [propertytype]. *)
Definition DeserializeTypePropertyActivityStreams
    : gmap string raw → gmap string string → result (option TypeProp.TypeProperty) :=
  TypeProp.DeserializeTypeProperty.

(** Modelled from the spec: the package variable [typePropertyConstructor],
    set up outside the three files, stands for the constructor of the
    package [propertytype]. *)
Definition typePropertyConstructor : TypeProp.TypeProperty :=
  TypeProp.NewTypeProperty.

Record OrderedCollectionPage : Type := {
  Altitude : option Property;
  Attachment : option Property;
  AttributedTo : option Property;
  Audience : option Property;
  Bcc : option Property;
  Bto : option Property;
  Cc : option Property;
  Content : option Property;
  Context : option Property;
  Current : option Property;
  Duration : option Property;
  EndTime : option Property;
  First : option Property;
  Generator : option Property;
  Icon : option Property;
  Id : option Property;
  Image : option Property;
  InReplyTo : option Property;
  Last : option Property;
  Likes : option Property;
  Location : option Property;
  MediaType : option Property;
  Name : option Property;
  Next : option Property;
  Object : option Property;
  OrderedItems : option Property;
  PartOf : option Property;
  Prev : option Property;
  Preview : option Property;
  Published : option Property;
  Replies : option Property;
  Shares : option Property;
  StartIndex : option Property;
  StartTime : option Property;
  Summary : option Property;
  Tag : option Property;
  To : option Property;
  TotalItems : option Property;
  Type_ : option TypeProp.TypeProperty;
  Updated : option Property;
  Url : option Property;
  alias : string;
  unknown : gmap string raw;
}.

(** [strings.TrimPrefix(typeString, aliasPrefix) == "OrderedCollectionPage"]
    on one element of a "type" array. *)
Definition isTypeName (aliasPrefix : string) (elemVal : raw) : bool :=
  match asString elemVal with
  | Some typeString =>
      bool_decide (TrimPrefix typeString aliasPrefix = "OrderedCollectionPage")
  | None => false
  end.

(** The check of the "type" entry that opens the deserializer: the [if]
    chain on [m["type"]], with the [found] loop as [existsb]. *)
Definition checkType (m : gmap string raw) (aliasPrefix : string) : result unit :=
  match m !! "type" with
  | None => Err ErrNoType
  | Some (RString typeString) =>
      let typeName := TrimPrefix typeString aliasPrefix in
      if bool_decide (typeName = "OrderedCollectionPage") then Ok ()
      else Err (ErrTypeNotOf typeName)
  | Some (RList arrType) =>
      if existsb (isTypeName aliasPrefix) arrType then Ok ()
      else Err ErrTypeNotFound
  | Some typeValue => Err (ErrTypeUnrecognized typeValue)
  end.

(** The keys the loop over [m] skips, in the order of its [if] chain. *)
Definition knownKeys : list string :=
  [
    "altitude"; "attachment"; "attributedTo"; "audience"; "bcc"; "bto";
    "cc"; "content"; "contentMap"; "context"; "current"; "duration";
    "endTime"; "first"; "generator"; "icon"; "id"; "image"; "inReplyTo";
    "last"; "likes"; "location"; "mediaType"; "name"; "nameMap"; "next";
    "object"; "orderedItems"; "partOf"; "prev"; "preview"; "published";
    "replies"; "shares"; "startIndex"; "startTime"; "summary";
    "summaryMap"; "tag"; "to"; "totalItems"; "type"; "updated"; "url" ].

(** "Unknown deserialization": every entry of [m] whose key the [if]
    chain does not skip is stored in the bag. *)
Definition collectUnknown (m : gmap string raw) : gmap string raw :=
  map_fold (λ k v unknown,
              if bool_decide (k ∈ knownKeys) then unknown
              else <[k := v]> unknown)
           ∅ m.

(** [aliasPrefix]: the alias followed by a colon when the alias map has an
    entry for the namespace. *)
Definition aliasPrefixOf (aliasMap : gmap string string) : string :=
  match aliasMap !! asNamespace with
  | Some a => a +:+ ":"
  | None => ""
  end.

(** The deserializer after the check of "type": "Known property
    deserialization", where the first error ends the function, then
    "Unknown deserialization". *)
Definition deserializeProperties
    (m : gmap string raw) (aliasMap : gmap string string)
    : result OrderedCollectionPage :=
  let alias := aliasOf aliasMap in
  pAltitude ← DeserializeAltitudePropertyActivityStreams m aliasMap;
  pAttachment ← DeserializeAttachmentPropertyActivityStreams m aliasMap;
  pAttributedTo ← DeserializeAttributedToPropertyActivityStreams m aliasMap;
  pAudience ← DeserializeAudiencePropertyActivityStreams m aliasMap;
  pBcc ← DeserializeBccPropertyActivityStreams m aliasMap;
  pBto ← DeserializeBtoPropertyActivityStreams m aliasMap;
  pCc ← DeserializeCcPropertyActivityStreams m aliasMap;
  pContent ← DeserializeContentPropertyActivityStreams m aliasMap;
  pContext ← DeserializeContextPropertyActivityStreams m aliasMap;
  pCurrent ← DeserializeCurrentPropertyActivityStreams m aliasMap;
  pDuration ← DeserializeDurationPropertyActivityStreams m aliasMap;
  pEndTime ← DeserializeEndTimePropertyActivityStreams m aliasMap;
  pFirst ← DeserializeFirstPropertyActivityStreams m aliasMap;
  pGenerator ← DeserializeGeneratorPropertyActivityStreams m aliasMap;
  pIcon ← DeserializeIconPropertyActivityStreams m aliasMap;
  pId ← DeserializeIdPropertyActivityStreams m aliasMap;
  pImage ← DeserializeImagePropertyActivityStreams m aliasMap;
  pInReplyTo ← DeserializeInReplyToPropertyActivityStreams m aliasMap;
  pLast ← DeserializeLastPropertyActivityStreams m aliasMap;
  pLikes ← DeserializeLikesPropertyActivityStreams m aliasMap;
  pLocation ← DeserializeLocationPropertyActivityStreams m aliasMap;
  pMediaType ← DeserializeMediaTypePropertyActivityStreams m aliasMap;
  pName ← DeserializeNamePropertyActivityStreams m aliasMap;
  pNext ← DeserializeNextPropertyActivityStreams m aliasMap;
  pObject ← DeserializeObjectPropertyActivityStreams m aliasMap;
  pOrderedItems ← DeserializeOrderedItemsPropertyActivityStreams m aliasMap;
  pPartOf ← DeserializePartOfPropertyActivityStreams m aliasMap;
  pPrev ← DeserializePrevPropertyActivityStreams m aliasMap;
  pPreview ← DeserializePreviewPropertyActivityStreams m aliasMap;
  pPublished ← DeserializePublishedPropertyActivityStreams m aliasMap;
  pReplies ← DeserializeRepliesPropertyActivityStreams m aliasMap;
  pShares ← DeserializeSharesPropertyActivityStreams m aliasMap;
  pStartIndex ← DeserializeStartIndexPropertyActivityStreams m aliasMap;
  pStartTime ← DeserializeStartTimePropertyActivityStreams m aliasMap;
  pSummary ← DeserializeSummaryPropertyActivityStreams m aliasMap;
  pTag ← DeserializeTagPropertyActivityStreams m aliasMap;
  pTo ← DeserializeToPropertyActivityStreams m aliasMap;
  pTotalItems ← DeserializeTotalItemsPropertyActivityStreams m aliasMap;
  pType ← DeserializeTypePropertyActivityStreams m aliasMap;
  pUpdated ← DeserializeUpdatedPropertyActivityStreams m aliasMap;
  pUrl ← DeserializeUrlPropertyActivityStreams m aliasMap;
  Ok {|
    Altitude := pAltitude; Attachment := pAttachment;
    AttributedTo := pAttributedTo; Audience := pAudience; Bcc := pBcc;
    Bto := pBto; Cc := pCc; Content := pContent; Context := pContext;
    Current := pCurrent; Duration := pDuration; EndTime := pEndTime;
    First := pFirst; Generator := pGenerator; Icon := pIcon; Id := pId;
    Image := pImage; InReplyTo := pInReplyTo; Last := pLast;
    Likes := pLikes; Location := pLocation; MediaType := pMediaType;
    Name := pName; Next := pNext; Object := pObject;
    OrderedItems := pOrderedItems; PartOf := pPartOf; Prev := pPrev;
    Preview := pPreview; Published := pPublished; Replies := pReplies;
    Shares := pShares; StartIndex := pStartIndex; StartTime := pStartTime;
    Summary := pSummary; Tag := pTag; To := pTo; TotalItems := pTotalItems;
    Type_ := pType; Updated := pUpdated; Url := pUrl; alias := alias;
    unknown := collectUnknown m |}.

Definition DeserializeOrderedCollectionPage
    (m : gmap string raw) (aliasMap : gmap string string)
    : result OrderedCollectionPage :=
  _ ← checkType m (aliasPrefixOf aliasMap);
  deserializeProperties m aliasMap.

Definition NewOrderedCollectionPage : OrderedCollectionPage :=
  let typeProp := typePropertyConstructor in
  let typeProp := TypeProp.AppendString typeProp "OrderedCollectionPage" in
  {|
    Altitude := None; Attachment := None; AttributedTo := None;
    Audience := None; Bcc := None; Bto := None; Cc := None;
    Content := None; Context := None; Current := None; Duration := None;
    EndTime := None; First := None; Generator := None; Icon := None;
    Id := None; Image := None; InReplyTo := None; Last := None;
    Likes := None; Location := None; MediaType := None; Name := None;
    Next := None; Object := None; OrderedItems := None; PartOf := None;
    Prev := None; Preview := None; Published := None; Replies := None;
    Shares := None; StartIndex := None; StartTime := None; Summary := None;
    Tag := None; To := None; TotalItems := None; Type_ := Some typeProp;
    Updated := None; Url := None; alias := ""; unknown := ∅ |}.

(** One "Maybe serialize property" block of [Serialize]. *)
Definition maybeSerialize (p : option Property) (m : gmap string raw)
    : result (gmap string raw) :=
  match p with
  | Some p =>
      i ← prop_Serialize p;
      Ok (if isNil i then m else <[prop_Name p := i]> m)
  | None => Ok m
  end.

(** The block for the "type" property, whose value is a [TypeProperty]. *)
Definition maybeSerializeType (p : option TypeProp.TypeProperty)
    (m : gmap string raw) : result (gmap string raw) :=
  match p with
  | Some p =>
      i ← TypeProp.Serialize p;
      Ok (if isNil i then m else <[TypeProp.Name p := i]> m)
  | None => Ok m
  end.

(** The map [Serialize] starts from: the "type" entry with the fixed type
    name, behind the alias and a colon when the alias is not empty. *)
Definition initialType (this : OrderedCollectionPage) : gmap string raw :=
  let typeName :=
    if bool_decide (alias this = "") then "OrderedCollectionPage"
    else alias this +:+ ":" +:+ "OrderedCollectionPage" in
  <["type" := RString typeName]> ∅.

(** "Serialize known properties": the "type" entry, then the blocks. *)
Definition serializeKnown (this : OrderedCollectionPage)
    : result (gmap string raw) :=
  let m := initialType this in
  m ← maybeSerialize (Altitude this) m;
  m ← maybeSerialize (Attachment this) m;
  m ← maybeSerialize (AttributedTo this) m;
  m ← maybeSerialize (Audience this) m;
  m ← maybeSerialize (Bcc this) m;
  m ← maybeSerialize (Bto this) m;
  m ← maybeSerialize (Cc this) m;
  m ← maybeSerialize (Content this) m;
  m ← maybeSerialize (Context this) m;
  m ← maybeSerialize (Current this) m;
  m ← maybeSerialize (Duration this) m;
  m ← maybeSerialize (EndTime this) m;
  m ← maybeSerialize (First this) m;
  m ← maybeSerialize (Generator this) m;
  m ← maybeSerialize (Icon this) m;
  m ← maybeSerialize (Id this) m;
  m ← maybeSerialize (Image this) m;
  m ← maybeSerialize (InReplyTo this) m;
  m ← maybeSerialize (Last this) m;
  m ← maybeSerialize (Likes this) m;
  m ← maybeSerialize (Location this) m;
  m ← maybeSerialize (MediaType this) m;
  m ← maybeSerialize (Name this) m;
  m ← maybeSerialize (Next this) m;
  m ← maybeSerialize (Object this) m;
  m ← maybeSerialize (OrderedItems this) m;
  m ← maybeSerialize (PartOf this) m;
  m ← maybeSerialize (Prev this) m;
  m ← maybeSerialize (Preview this) m;
  m ← maybeSerialize (Published this) m;
  m ← maybeSerialize (Replies this) m;
  m ← maybeSerialize (Shares this) m;
  m ← maybeSerialize (StartIndex this) m;
  m ← maybeSerialize (StartTime this) m;
  m ← maybeSerialize (Summary this) m;
  m ← maybeSerialize (Tag this) m;
  m ← maybeSerialize (To this) m;
  m ← maybeSerialize (TotalItems this) m;
  m ← maybeSerializeType (Type_ this) m;
  m ← maybeSerialize (Updated this) m;
  m ← maybeSerialize (Url this) m;
  Ok m.

(** "Serialize unknown properties": an entry of the bag is written unless
    its key is already in [m]. *)
Definition serializeUnknown (unknown m : gmap string raw) : gmap string raw :=
  map_fold (λ k v m, match m !! k with Some _ => m | None => <[k := v]> m end)
           m unknown.

Definition Serialize (this : OrderedCollectionPage) : result (gmap string raw) :=
  m ← serializeKnown this;
  Ok (serializeUnknown (unknown this) m).

(** The "type" property seen through the interface the entity holds it by:
    its methods [Name] and [Serialize]. *)
Definition typeAsProperty (p : TypeProp.TypeProperty) : Property :=
  {| prop_Name := TypeProp.Name p; prop_Serialize := TypeProp.Serialize p |}.

(** The fields of the known properties, in the order [Serialize] visits
    them. *)
Definition knownFields (this : OrderedCollectionPage) : list (option Property) :=
  [
    Altitude this; Attachment this; AttributedTo this; Audience this;
    Bcc this; Bto this; Cc this; Content this; Context this; Current this;
    Duration this; EndTime this; First this; Generator this; Icon this;
    Id this; Image this; InReplyTo this; Last this; Likes this;
    Location this; MediaType this; Name this; Next this; Object this;
    OrderedItems this; PartOf this; Prev this; Preview this; Published this;
    Replies this; Shares this; StartIndex this; StartTime this; Summary this;
    Tag this; To this; TotalItems this; typeAsProperty <$> Type_ this;
    Updated this; Url this ].

(** A run of "Maybe serialize property" blocks over a list of fields. *)
Fixpoint serializeFields (fields : list (option Property)) (m : gmap string raw)
    : result (gmap string raw) :=
  match fields with
  | [] => Ok m
  | p :: rest => m ← maybeSerialize p m; serializeFields rest m
  end.

(** *** Vocabulary of the round trip *)

(** The single-value rule: two raw values are the same when they are equal
    or one is the one-element list of the other. *)
Definition sameUpToSingleton (v w : raw) : Prop :=
  v = w ∨ v = RList [w] ∨ w = RList [v].

Definition sameEntry (o1 o2 : option raw) : Prop :=
  match o1, o2 with
  | Some v, Some w => sameUpToSingleton v w
  | None, None => True
  | _, _ => False
  end.

(** [out] is the document [d] up to key order and the single-value rule:
    no key is lost, none is added, no value is altered. *)
Definition sameDocument (d out : gmap string raw) : Prop :=
  ∀ k, sameEntry (out !! k) (d !! k).

(** The wire keys of each known property, in the order of [knownFields]: a
    textual property also owns its language-map variant.  Flattened, this
    is [knownKeys]. *)
Definition wireKeys : list (list string) :=
  [
    ["altitude"]; ["attachment"]; ["attributedTo"]; ["audience"]; ["bcc"];
    ["bto"]; ["cc"]; ["content"; "contentMap"]; ["context"]; ["current"];
    ["duration"]; ["endTime"]; ["first"]; ["generator"]; ["icon"]; ["id"];
    ["image"]; ["inReplyTo"]; ["last"]; ["likes"]; ["location"];
    ["mediaType"]; ["name"; "nameMap"]; ["next"]; ["object"];
    ["orderedItems"]; ["partOf"]; ["prev"]; ["preview"]; ["published"];
    ["replies"]; ["shares"]; ["startIndex"]; ["startTime"];
    ["summary"; "summaryMap"]; ["tag"]; ["to"]; ["totalItems"]; ["type"];
    ["updated"]; ["url"] ].

(** The codec of one known property round-trips on the document [d]: an
    unset property has none of its keys in [d]; a set one serializes,
    under a key of its own that is the only one of its keys in [d], to a
    value that is not [nil] and is the wire value up to the single-value
    rule. *)
Definition fieldRoundTrips (d : gmap string raw) (keys : list string)
    (p : option Property) : Prop :=
  match p with
  | None => ∀ k, k ∈ keys → d !! k = None
  | Some p =>
      prop_Name p ∈ keys
      ∧ (∀ k, k ∈ keys → k ≠ prop_Name p → d !! k = None)
      ∧ ∃ v w, prop_Serialize p = Ok v ∧ isNil v = false
          ∧ d !! prop_Name p = Some w ∧ sameUpToSingleton v w
  end.

(** The value codecs of "type" round-trip on one element: what the first
    parser that accepts it yields serializes back to the element. *)
Definition elementRoundTrips (x : raw) : Prop :=
  match DeserializeAnyURI x with
  | Ok u => SerializeAnyURI u = Ok x
  | Err _ =>
      match DeserializeString x with
      | Ok s => SerializeString s = Ok x
      | Err _ => True
      end
  end.

(** [d] is well formed for the codecs outside this development: every
    known property other than "type" round-trips on [d], and so do the
    value codecs on the elements of "type". *)
Definition codecsRoundTrip (d : gmap string raw) (this : OrderedCollectionPage)
    : Prop :=
  Forall2 (λ keys p, keys = ["type"] ∨ fieldRoundTrips d keys p)
          wireKeys (knownFields this)
  ∧ ∀ typeValue, d !! "type" = Some typeValue →
      Forall elementRoundTrips
        (match asList typeValue with Some wireList => wireList | None => [typeValue] end).
End Page.
End Page.

(** ** JSON-LD contexts *)

(** The interface [jsonldContexter]: a value that reports the namespaces
    it needs, each with the alias it was read under. *)
Class JSONLDContexter (T : Type) : Type := {
  type_JSONLDContext : T → gmap string string;
}.

(** The loop [for k, v := range child { m[k] = v }] that every
    [JSONLDContext] runs: an entry of [child] overwrites the entry of [m]
    under the same key. *)
Definition mergeContext (child m : gmap string string) : gmap string string :=
  map_fold (λ k v m, <[k := v]> m) m child.

(** ** The "type" property as a list: positions, mutation, traversal *)

(** The methods of [TypeProperty] and of its iterator that work by
    position.  An index out of bounds stops the Go program with a panic:
    such a call is [None] here.  The iterators of a property are pointers
    into one backing array, so a mutation is seen by the owner; each
    mutator returns the property after the call.  [Next] and [Prev] reach
    the owner through the back-pointer [parent], which is the property the
    iterator sits in: they take it as [owner], and panic when they
    reach through a [parent] that is [nil]. *)
Module TypeList.
Section TypeList.
Context `{Values}.
Implicit Types this o owner : TypeProp.TypeProperty.
Implicit Types ele it : TypeProp.TypePropertyIterator.

(** The assignment [ele.myIdx = i]. *)
Definition setMyIdx (i : Z) ele : TypeProp.TypePropertyIterator :=
  {| TypeProp.anyURIMember := TypeProp.anyURIMember ele;
     TypeProp.stringMember := TypeProp.stringMember ele;
     TypeProp.hasStringMember := TypeProp.hasStringMember ele;
     TypeProp.unknown := TypeProp.unknown ele;
     TypeProp.alias := TypeProp.alias ele;
     TypeProp.myIdx := i;
     TypeProp.parent := TypeProp.parent ele |}.

(** The loop [for i := from; i < this.Len(); i++ { properties[i].myIdx = i }]
    over the elements that sit at the positions [from], [from+1], ... *)
Definition reindexFrom (from : Z) (eles : list TypeProp.TypePropertyIterator)
    : list TypeProp.TypePropertyIterator :=
  imap (λ k ele, setMyIdx (from + Z.of_nat k) ele) eles.

(** [this.properties[index]], with the bounds check of the slice. *)
Definition At this (index : Z) : option TypeProp.TypePropertyIterator :=
  if index <? 0 then None else TypeProp.properties this !! Z.to_nat index.

Definition Empty this : bool := TypeProp.Len this =? 0.

(** [Begin] returns [nil] on an empty property. *)
Definition Begin this : option TypeProp.TypePropertyIterator :=
  if Empty this then None else At this 0.

Definition End this : option TypeProp.TypePropertyIterator := None.

(** [Next]: [Some None] is the [nil] iterator, [None] a panic. *)
Definition Next owner it : option (option TypeProp.TypePropertyIterator) :=
  if TypeProp.parent it then
    if TypeProp.myIdx it + 1 >=? TypeProp.Len owner then Some None
    else Some <$> At owner (TypeProp.myIdx it + 1)
  else None.

(** [Prev] looks at [parent] only behind the test of the index. *)
Definition Prev owner it : option (option TypeProp.TypePropertyIterator) :=
  if TypeProp.myIdx it - 1 <? 0 then Some None
  else if TypeProp.parent it then Some <$> At owner (TypeProp.myIdx it - 1)
  else None.

(** [JSONLDContext] of an iterator: its [child] map stays [nil], so the
    loop over it adds nothing. *)
Definition iteratorJSONLDContext it : gmap string string :=
  {[ asNamespace := TypeProp.alias it ]}.

Definition JSONLDContext this : gmap string string :=
  foldl (λ m elem, mergeContext (iteratorJSONLDContext elem) m)
        {[ asNamespace := TypeProp.tp_alias this ]}
        (TypeProp.properties this).

Definition KindIndex this (idx : Z) : option Z :=
  TypeProp.KindIndex <$> At this idx.

(** [Less(i, j)].  The branch for the index -2 compares
    [GetIRI().String()] of both sides. *)
Definition Less this (i j : Z) : option bool :=
  match At this i, At this j with
  | Some pi, Some pj =>
      let idx1 := TypeProp.KindIndex pi in
      let idx2 := TypeProp.KindIndex pj in
      if idx1 <? idx2 then Some true
      else if idx1 =? idx2 then
        if idx1 =? 0 then
          match TypeProp.GetAnyURI pi, TypeProp.GetAnyURI pj with
          | Some lhs, Some rhs => Some (LessAnyURI lhs rhs)
          | _, _ => None
          end
        else if idx1 =? 1 then
          Some (LessString (TypeProp.GetString pi) (TypeProp.GetString pj))
        else if idx1 =? -2 then
          match TypeProp.GetIRI pi, TypeProp.GetIRI pj with
          | Some lhs, Some rhs => Some (String.ltb (url_String lhs) (url_String rhs))
          | _, _ => None
          end
        else Some false
      else Some false
  | _, _ => None
  end.

(** The loop of [LessThan] over the first [min(l1, l2)] positions:
    [Some b] when it returns [b], [None] when it runs to its end. *)
Fixpoint lessThanLoop (l1 l2 : list TypeProp.TypePropertyIterator) : option bool :=
  match l1, l2 with
  | x :: l1', y :: l2' =>
      if TypeProp.LessThan x y then Some true
      else if TypeProp.LessThan y x then Some false
      else lessThanLoop l1' l2'
  | _, _ => None
  end.

Definition LessThan this o : bool :=
  match lessThanLoop (TypeProp.properties this) (TypeProp.properties o) with
  | Some b => b
  | None => TypeProp.Len this <? TypeProp.Len o
  end.

Definition PrependAnyURI this (v : option URL) : TypeProp.TypeProperty :=
  {| TypeProp.properties :=
       {| TypeProp.anyURIMember := v; TypeProp.stringMember := "";
          TypeProp.hasStringMember := false; TypeProp.unknown := RNull;
          TypeProp.alias := TypeProp.tp_alias this; TypeProp.myIdx := 0;
          TypeProp.parent := true |}
       :: reindexFrom 1 (TypeProp.properties this);
     TypeProp.tp_alias := TypeProp.tp_alias this |}.

Definition PrependIRI this (v : option URL) : TypeProp.TypeProperty :=
  {| TypeProp.properties :=
       {| TypeProp.anyURIMember := v; TypeProp.stringMember := "";
          TypeProp.hasStringMember := false; TypeProp.unknown := RNull;
          TypeProp.alias := TypeProp.tp_alias this; TypeProp.myIdx := 0;
          TypeProp.parent := true |}
       :: reindexFrom 1 (TypeProp.properties this);
     TypeProp.tp_alias := TypeProp.tp_alias this |}.

Definition PrependString this (v : string) : TypeProp.TypeProperty :=
  {| TypeProp.properties :=
       {| TypeProp.anyURIMember := None; TypeProp.stringMember := v;
          TypeProp.hasStringMember := true; TypeProp.unknown := RNull;
          TypeProp.alias := TypeProp.tp_alias this; TypeProp.myIdx := 0;
          TypeProp.parent := true |}
       :: reindexFrom 1 (TypeProp.properties this);
     TypeProp.tp_alias := TypeProp.tp_alias this |}.

(** [idx] is a valid position of [this]. *)
Definition inBounds this (idx : Z) : bool :=
  (0 <=? idx) && (idx <? TypeProp.Len this).

(** [Remove]: the elements behind [idx] move one position down and are
    given their new index.  The removed iterator, whose [parent] is set to
    [nil], is no longer in the property. *)
Definition Remove this (idx : Z) : option TypeProp.TypeProperty :=
  if inBounds this idx then
    Some {| TypeProp.properties :=
              take (Z.to_nat idx) (TypeProp.properties this)
              ++ reindexFrom idx (drop (S (Z.to_nat idx)) (TypeProp.properties this));
            TypeProp.tp_alias := TypeProp.tp_alias this |}
  else None.

(** The positional setters put a new iterator at [idx]; the one it
    replaces, whose [parent] is set to [nil], is no longer in the
    property. *)
Definition SetAnyURI this (idx : Z) (v : option URL) : option TypeProp.TypeProperty :=
  if inBounds this idx then
    Some {| TypeProp.properties :=
              <[Z.to_nat idx :=
                 {| TypeProp.anyURIMember := v; TypeProp.stringMember := "";
                    TypeProp.hasStringMember := false; TypeProp.unknown := RNull;
                    TypeProp.alias := TypeProp.tp_alias this; TypeProp.myIdx := idx;
                    TypeProp.parent := true |}]> (TypeProp.properties this);
            TypeProp.tp_alias := TypeProp.tp_alias this |}
  else None.

Definition SetIRI this (idx : Z) (v : option URL) : option TypeProp.TypeProperty :=
  if inBounds this idx then
    Some {| TypeProp.properties :=
              <[Z.to_nat idx :=
                 {| TypeProp.anyURIMember := v; TypeProp.stringMember := "";
                    TypeProp.hasStringMember := false; TypeProp.unknown := RNull;
                    TypeProp.alias := TypeProp.tp_alias this; TypeProp.myIdx := idx;
                    TypeProp.parent := true |}]> (TypeProp.properties this);
            TypeProp.tp_alias := TypeProp.tp_alias this |}
  else None.

Definition SetString this (idx : Z) (v : string) : option TypeProp.TypeProperty :=
  if inBounds this idx then
    Some {| TypeProp.properties :=
              <[Z.to_nat idx :=
                 {| TypeProp.anyURIMember := None; TypeProp.stringMember := v;
                    TypeProp.hasStringMember := true; TypeProp.unknown := RNull;
                    TypeProp.alias := TypeProp.tp_alias this; TypeProp.myIdx := idx;
                    TypeProp.parent := true |}]> (TypeProp.properties this);
            TypeProp.tp_alias := TypeProp.tp_alias this |}
  else None.

(** [Swap] exchanges the two iterators and leaves their [myIdx] alone. *)
Definition Swap this (i j : Z) : option TypeProp.TypeProperty :=
  match At this i, At this j with
  | Some pi, Some pj =>
      Some {| TypeProp.properties :=
                <[Z.to_nat j := pi]> (<[Z.to_nat i := pj]> (TypeProp.properties this));
              TypeProp.tp_alias := TypeProp.tp_alias this |}
  | _, _ => None
  end.

(** The invariant of the property list: every iterator records its own
    position and points back to its owner. *)
Definition wellIndexed this : Prop :=
  ∀ (n : nat) it, TypeProp.properties this !! n = Some it →
    TypeProp.myIdx it = Z.of_nat n ∧ TypeProp.parent it = true.

(** The number of slots of an iterator that hold a value: the two value
    kinds and the unknown value. *)
Definition slotsSet it : nat :=
  (Nat.b2n (TypeProp.IsAnyURI it) + Nat.b2n (TypeProp.IsString it)
   + Nat.b2n (negb (isNil (TypeProp.unknown it))))%nat.

(** The elements of [this] serialize, in order, to the raw values [xs]. *)
Definition serializesTo this (xs : list raw) : Prop :=
  Forall2 (λ it x, TypeProp.serialize it = Ok x) (TypeProp.properties this) xs.
End TypeList.
End TypeList.

(** ** The "followers" property: its context and its slots *)

Module FollowersContext.
Section FollowersContext.
Context `{NetURL}.
Context {OrderedCollectionInterface CollectionInterface
         CollectionPageInterface OrderedCollectionPageInterface : Type}.
Context `{!JSONLDContexter OrderedCollectionInterface,
          !JSONLDContexter CollectionInterface,
          !JSONLDContexter CollectionPageInterface,
          !JSONLDContexter OrderedCollectionPageInterface}.
#[local] Abbreviation FollowersProperty :=
  (@Followers.FollowersProperty _ OrderedCollectionInterface CollectionInterface
     CollectionPageInterface OrderedCollectionPageInterface).

(** [JSONLDContext]: the entry of the property, then the entries of the
    committed entity.  [child] stays a [nil] map when no entity is
    committed, and the loop over it does nothing. *)
Definition JSONLDContext (this : FollowersProperty) : gmap string string :=
  let m := {[ asNamespace := Followers.alias this ]} in
  let child :=
    match Followers.OrderedCollectionMember this, Followers.CollectionMember this,
          Followers.CollectionPageMember this,
          Followers.OrderedCollectionPageMember this with
    | Some v, _, _, _ => type_JSONLDContext v
    | None, Some v, _, _ => type_JSONLDContext v
    | None, None, Some v, _ => type_JSONLDContext v
    | None, None, None, Some v => type_JSONLDContext v
    | None, None, None, None => ∅
    end in
  mergeContext child m.

(** The number of slots of the struct that hold a value: the four
    entity kinds, the IRI and the unknown value. *)
Definition slotsSet (this : FollowersProperty) : nat :=
  (Nat.b2n (Followers.IsOrderedCollection this)
   + Nat.b2n (Followers.IsCollection this)
   + Nat.b2n (Followers.IsCollectionPage this)
   + Nat.b2n (Followers.IsOrderedCollectionPage this)
   + Nat.b2n (Followers.IsIRI this)
   + Nat.b2n (negb (isNil (Followers.unknown this))))%nat.
End FollowersContext.
End FollowersContext.

(** ** The entity: hierarchy, context and order *)

Module PageOrder.

(** The property types of the other packages, as far as the entity
    compares them and asks them for their context: the methods [LessThan]
    and [JSONLDContext] of a known property. *)
Class PropertyMethods : Type := {
  prop_LessThan : Page.Property → Page.Property → bool;
  prop_JSONLDContext : Page.Property → gmap string string;
}.

Section PageOrder.
Context `{Values} `{!PropertyMethods}.
Implicit Types this o : Page.OrderedCollectionPage.

(** The three functions on another type take it by [other.GetName()]. *)
Definition OrderedCollectionPageExtends (other : string) : bool :=
  let extensions := ["Collection"; "CollectionPage"; "Object"; "OrderedCollection"] in
  existsb (λ ext, bool_decide (ext = other)) extensions.

Definition OrderedCollectionPageIsDisjointWith (other : string) : bool :=
  let disjointWith := ["Link"; "Mention"] in
  existsb (λ disjoint, bool_decide (disjoint = other)) disjointWith.

(** "Shortcut implementation: is not extended by anything." *)
Definition OrderedCollectionPageIsExtendedBy (other : string) : bool := false.

Definition IsExtending this (other : string) : bool :=
  OrderedCollectionPageExtends other.

Definition GetUnknownProperties this : gmap string raw := Page.unknown this.

(** [helperJSONLDContext]: the context of a property that is not [nil]
    is merged into [toMerge]. *)
Definition helperJSONLDContext {A : Type} (context : A → gmap string string)
    (i : option A) (toMerge : gmap string string) : gmap string string :=
  match i with
  | None => toMerge
  | Some i => mergeContext (context i) toMerge
  end.

Definition JSONLDContext this : gmap string string :=
  let m := {[ asNamespace := Page.alias this ]} in
  let m := helperJSONLDContext prop_JSONLDContext (Page.Altitude this) m in
  let m := helperJSONLDContext prop_JSONLDContext (Page.Attachment this) m in
  let m := helperJSONLDContext prop_JSONLDContext (Page.AttributedTo this) m in
  let m := helperJSONLDContext prop_JSONLDContext (Page.Audience this) m in
  let m := helperJSONLDContext prop_JSONLDContext (Page.Bcc this) m in
  let m := helperJSONLDContext prop_JSONLDContext (Page.Bto this) m in
  let m := helperJSONLDContext prop_JSONLDContext (Page.Cc this) m in
  let m := helperJSONLDContext prop_JSONLDContext (Page.Content this) m in
  let m := helperJSONLDContext prop_JSONLDContext (Page.Context this) m in
  let m := helperJSONLDContext prop_JSONLDContext (Page.Current this) m in
  let m := helperJSONLDContext prop_JSONLDContext (Page.Duration this) m in
  let m := helperJSONLDContext prop_JSONLDContext (Page.EndTime this) m in
  let m := helperJSONLDContext prop_JSONLDContext (Page.First this) m in
  let m := helperJSONLDContext prop_JSONLDContext (Page.Generator this) m in
  let m := helperJSONLDContext prop_JSONLDContext (Page.Icon this) m in
  let m := helperJSONLDContext prop_JSONLDContext (Page.Id this) m in
  let m := helperJSONLDContext prop_JSONLDContext (Page.Image this) m in
  let m := helperJSONLDContext prop_JSONLDContext (Page.InReplyTo this) m in
  let m := helperJSONLDContext prop_JSONLDContext (Page.Last this) m in
  let m := helperJSONLDContext prop_JSONLDContext (Page.Likes this) m in
  let m := helperJSONLDContext prop_JSONLDContext (Page.Location this) m in
  let m := helperJSONLDContext prop_JSONLDContext (Page.MediaType this) m in
  let m := helperJSONLDContext prop_JSONLDContext (Page.Name this) m in
  let m := helperJSONLDContext prop_JSONLDContext (Page.Next this) m in
  let m := helperJSONLDContext prop_JSONLDContext (Page.Object this) m in
  let m := helperJSONLDContext prop_JSONLDContext (Page.OrderedItems this) m in
  let m := helperJSONLDContext prop_JSONLDContext (Page.PartOf this) m in
  let m := helperJSONLDContext prop_JSONLDContext (Page.Prev this) m in
  let m := helperJSONLDContext prop_JSONLDContext (Page.Preview this) m in
  let m := helperJSONLDContext prop_JSONLDContext (Page.Published this) m in
  let m := helperJSONLDContext prop_JSONLDContext (Page.Replies this) m in
  let m := helperJSONLDContext prop_JSONLDContext (Page.Shares this) m in
  let m := helperJSONLDContext prop_JSONLDContext (Page.StartIndex this) m in
  let m := helperJSONLDContext prop_JSONLDContext (Page.StartTime this) m in
  let m := helperJSONLDContext prop_JSONLDContext (Page.Summary this) m in
  let m := helperJSONLDContext prop_JSONLDContext (Page.Tag this) m in
  let m := helperJSONLDContext prop_JSONLDContext (Page.To this) m in
  let m := helperJSONLDContext prop_JSONLDContext (Page.TotalItems this) m in
  let m := helperJSONLDContext TypeList.JSONLDContext (Page.Type_ this) m in
  let m := helperJSONLDContext prop_JSONLDContext (Page.Updated this) m in
  let m := helperJSONLDContext prop_JSONLDContext (Page.Url this) m in
  m.

(** The contexts of the known properties, [None] for a property that
    is [nil], in the order [JSONLDContext] visits them. *)
Definition contexts this : list (option (gmap string string)) :=
  [
    prop_JSONLDContext <$> Page.Altitude this;
    prop_JSONLDContext <$> Page.Attachment this;
    prop_JSONLDContext <$> Page.AttributedTo this;
    prop_JSONLDContext <$> Page.Audience this;
    prop_JSONLDContext <$> Page.Bcc this;
    prop_JSONLDContext <$> Page.Bto this;
    prop_JSONLDContext <$> Page.Cc this;
    prop_JSONLDContext <$> Page.Content this;
    prop_JSONLDContext <$> Page.Context this;
    prop_JSONLDContext <$> Page.Current this;
    prop_JSONLDContext <$> Page.Duration this;
    prop_JSONLDContext <$> Page.EndTime this;
    prop_JSONLDContext <$> Page.First this;
    prop_JSONLDContext <$> Page.Generator this;
    prop_JSONLDContext <$> Page.Icon this;
    prop_JSONLDContext <$> Page.Id this;
    prop_JSONLDContext <$> Page.Image this;
    prop_JSONLDContext <$> Page.InReplyTo this;
    prop_JSONLDContext <$> Page.Last this;
    prop_JSONLDContext <$> Page.Likes this;
    prop_JSONLDContext <$> Page.Location this;
    prop_JSONLDContext <$> Page.MediaType this;
    prop_JSONLDContext <$> Page.Name this;
    prop_JSONLDContext <$> Page.Next this;
    prop_JSONLDContext <$> Page.Object this;
    prop_JSONLDContext <$> Page.OrderedItems this;
    prop_JSONLDContext <$> Page.PartOf this;
    prop_JSONLDContext <$> Page.Prev this;
    prop_JSONLDContext <$> Page.Preview this;
    prop_JSONLDContext <$> Page.Published this;
    prop_JSONLDContext <$> Page.Replies this;
    prop_JSONLDContext <$> Page.Shares this;
    prop_JSONLDContext <$> Page.StartIndex this;
    prop_JSONLDContext <$> Page.StartTime this;
    prop_JSONLDContext <$> Page.Summary this;
    prop_JSONLDContext <$> Page.Tag this;
    prop_JSONLDContext <$> Page.To this;
    prop_JSONLDContext <$> Page.TotalItems this;
    TypeList.JSONLDContext <$> Page.Type_ this;
    prop_JSONLDContext <$> Page.Updated this;
    prop_JSONLDContext <$> Page.Url this ].

(** One "Compare property" block of [LessThan]: [Some b] when the block
    returns [b], [None] when it falls through to the next block.  The
    third test of the block, [rhs != nil && rhs == nil], never holds, so
    a property that only the left side has falls through. *)
Definition compareProperty {A : Type} (less : A → A → bool)
    (lhs rhs : option A) : option bool :=
  match lhs, rhs with
  | Some l, Some r =>
      if less l r then Some true
      else if less r l then Some false
      else None
  | None, Some _ => Some true
  | Some _, None => None
  | None, None => None
  end.

(** "Compare known properties": the blocks in their order. *)
Definition compareKnown this o : list (option bool) :=
  [
    compareProperty prop_LessThan (Page.Altitude this) (Page.Altitude o);
    compareProperty prop_LessThan (Page.Attachment this) (Page.Attachment o);
    compareProperty prop_LessThan (Page.AttributedTo this) (Page.AttributedTo o);
    compareProperty prop_LessThan (Page.Audience this) (Page.Audience o);
    compareProperty prop_LessThan (Page.Bcc this) (Page.Bcc o);
    compareProperty prop_LessThan (Page.Bto this) (Page.Bto o);
    compareProperty prop_LessThan (Page.Cc this) (Page.Cc o);
    compareProperty prop_LessThan (Page.Content this) (Page.Content o);
    compareProperty prop_LessThan (Page.Context this) (Page.Context o);
    compareProperty prop_LessThan (Page.Current this) (Page.Current o);
    compareProperty prop_LessThan (Page.Duration this) (Page.Duration o);
    compareProperty prop_LessThan (Page.EndTime this) (Page.EndTime o);
    compareProperty prop_LessThan (Page.First this) (Page.First o);
    compareProperty prop_LessThan (Page.Generator this) (Page.Generator o);
    compareProperty prop_LessThan (Page.Icon this) (Page.Icon o);
    compareProperty prop_LessThan (Page.Id this) (Page.Id o);
    compareProperty prop_LessThan (Page.Image this) (Page.Image o);
    compareProperty prop_LessThan (Page.InReplyTo this) (Page.InReplyTo o);
    compareProperty prop_LessThan (Page.Last this) (Page.Last o);
    compareProperty prop_LessThan (Page.Likes this) (Page.Likes o);
    compareProperty prop_LessThan (Page.Location this) (Page.Location o);
    compareProperty prop_LessThan (Page.MediaType this) (Page.MediaType o);
    compareProperty prop_LessThan (Page.Name this) (Page.Name o);
    compareProperty prop_LessThan (Page.Next this) (Page.Next o);
    compareProperty prop_LessThan (Page.Object this) (Page.Object o);
    compareProperty prop_LessThan (Page.OrderedItems this) (Page.OrderedItems o);
    compareProperty prop_LessThan (Page.PartOf this) (Page.PartOf o);
    compareProperty prop_LessThan (Page.Prev this) (Page.Prev o);
    compareProperty prop_LessThan (Page.Preview this) (Page.Preview o);
    compareProperty prop_LessThan (Page.Published this) (Page.Published o);
    compareProperty prop_LessThan (Page.Replies this) (Page.Replies o);
    compareProperty prop_LessThan (Page.Shares this) (Page.Shares o);
    compareProperty prop_LessThan (Page.StartIndex this) (Page.StartIndex o);
    compareProperty prop_LessThan (Page.StartTime this) (Page.StartTime o);
    compareProperty prop_LessThan (Page.Summary this) (Page.Summary o);
    compareProperty prop_LessThan (Page.Tag this) (Page.Tag o);
    compareProperty prop_LessThan (Page.To this) (Page.To o);
    compareProperty prop_LessThan (Page.TotalItems this) (Page.TotalItems o);
    compareProperty TypeList.LessThan (Page.Type_ this) (Page.Type_ o);
    compareProperty prop_LessThan (Page.Updated this) (Page.Updated o);
    compareProperty prop_LessThan (Page.Url this) (Page.Url o) ].

(** The first block that returns. *)
Fixpoint firstReturn (blocks : list (option bool)) : option bool :=
  match blocks with
  | [] => None
  | Some b :: _ => Some b
  | None :: rest => firstReturn rest
  end.

(** [LessThan]: the known properties, then "Compare unknown properties
    (only by number of them)". *)
Definition LessThan this o : bool :=
  match firstReturn (compareKnown this o) with
  | Some b => b
  | None =>
      let l1 := Z.of_nat (size (Page.unknown this)) in
      let l2 := Z.of_nat (size (GetUnknownProperties o)) in
      if l1 <? l2 then true
      else if l2 <? l1 then false
      else false
  end.
End PageOrder.
End PageOrder.

(** ** A small concrete world for running the code *)

(** The collaborators above are parameters of every theorem.  To run the
    code on documents they are given here the simplest behaviour the
    specification allows. *)
Module Sample.
(** Modelled from the spec: the scheme component of a reference
    identifier, taken as the text before the first colon; empty when the
    text has no colon or starts with one. *)
Fixpoint hasColon (s : string) : bool :=
  match s with
  | EmptyString => false
  | String c rest => Ascii.eqb c ":"%char || hasColon rest
  end.

Fixpoint schemeOf (s : string) : string :=
  match s with
  | EmptyString => ""
  | String c rest =>
      if Ascii.eqb c ":"%char then ""
      else if hasColon rest then String c (schemeOf rest)
      else ""
  end.

(** Modelled from the spec: the reference-identifier parser, which
    "succeeds only for strings with a recognizable scheme component".  A
    URL is kept as its text and printed back unchanged. *)
#[export] Instance netURL : NetURL := {|
  URL := string;
  url_Parse := λ s, Some s;
  url_Scheme := schemeOf;
  url_String := λ u, u;
|}.

(** Modelled from the spec: the per-value-kind parsers and serializers of
    the kinds "anyURI" and "string".  A parser fails on a raw value that
    is not of its kind; a serializer gives the wire text back. *)
#[export] Instance values : Values := {|
  DeserializeAnyURI := λ i,
    match i with
    | RString s =>
        if bool_decide (schemeOf s = "") then Err (ErrCollaborator "no scheme")
        else Ok (s : URL)
    | _ => Err (ErrCollaborator "not a string")
    end;
  SerializeAnyURI := λ u, Ok (RString u);
  LessAnyURI := λ a b, String.ltb a b;
  DeserializeString := λ i,
    match i with
    | RString s => Ok s
    | _ => Err (ErrCollaborator "not a string")
    end;
  SerializeString := λ s, Ok (RString s);
  LessString := String.ltb;
|}.

(** Modelled from the spec: an entity of another package, kept as its raw
    map. *)
Definition entity : Type := gmap string raw.

(** Modelled from the spec: the methods of such an entity; it serializes
    to its map, and fewer entries sort first. *)
#[export] Instance entityType : VocabType entity := {|
  type_LessThan := λ a b, bool_decide (size a < size b)%nat;
  type_Serialize := λ a, Ok a;
|}.

(** Modelled from the spec: the deserializer of such an entity, which
    accepts a map whose "type" is the entity's name. *)
Definition deserializeEntity (name : string) : typeDeserializer entity :=
  λ m _,
    match m !! "type" with
    | Some (RString s) =>
        if bool_decide (s = name) then Ok m
        else Err (ErrCollaborator "other type")
    | _ => Err (ErrCollaborator "no type")
    end.

(** Modelled from the spec: a known property with no candidate kind of
    its own.  It is absent when its wire key is absent, and otherwise
    keeps the raw value and serializes it back under its name. *)
Definition opaqueProperty (name : string) : Page.propertyDeserializer :=
  λ m aliasMap,
    match m !! propNameFor (aliasOf aliasMap) name with
    | Some i => Ok (Some {| Page.prop_Name := name; Page.prop_Serialize := Ok i |})
    | None => Ok None
    end.

(** Cells of the "followers" property over these entities. *)
Definition cell : Type :=
  @Followers.FollowersProperty netURL entity entity entity entity.
Definition emptyCell : cell := Followers.NewFollowersProperty.
Definition iriCell : cell :=
  Followers.SetIRI emptyCell (Some ("https://example.org/followers" : URL)).
Definition collectionCell : cell :=
  Followers.SetOrderedCollection emptyCell
    (Some (<["type" := RString "OrderedCollection"]> ∅ : entity)).

(** Iterators of the "type" property. *)
Definition iriIterator : TypeProp.TypePropertyIterator :=
  TypeProp.SetIRI TypeProp.NewTypePropertyIterator
    (Some ("https://example.org/ns#Page" : URL)).
Definition stringIterator : TypeProp.TypePropertyIterator :=
  TypeProp.SetString TypeProp.NewTypePropertyIterator "OrderedCollectionPage".

(** Modelled from the spec: the manager, every known property other than
    "type" being an opaque one under its own name. *)
#[export] Instance manager : Page.Manager := {|
  Page.DeserializeAltitudePropertyActivityStreams := opaqueProperty "altitude";
  Page.DeserializeAttachmentPropertyActivityStreams := opaqueProperty "attachment";
  Page.DeserializeAttributedToPropertyActivityStreams := opaqueProperty "attributedTo";
  Page.DeserializeAudiencePropertyActivityStreams := opaqueProperty "audience";
  Page.DeserializeBccPropertyActivityStreams := opaqueProperty "bcc";
  Page.DeserializeBtoPropertyActivityStreams := opaqueProperty "bto";
  Page.DeserializeCcPropertyActivityStreams := opaqueProperty "cc";
  Page.DeserializeContentPropertyActivityStreams := opaqueProperty "content";
  Page.DeserializeContextPropertyActivityStreams := opaqueProperty "context";
  Page.DeserializeCurrentPropertyActivityStreams := opaqueProperty "current";
  Page.DeserializeDurationPropertyActivityStreams := opaqueProperty "duration";
  Page.DeserializeEndTimePropertyActivityStreams := opaqueProperty "endTime";
  Page.DeserializeFirstPropertyActivityStreams := opaqueProperty "first";
  Page.DeserializeGeneratorPropertyActivityStreams := opaqueProperty "generator";
  Page.DeserializeIconPropertyActivityStreams := opaqueProperty "icon";
  Page.DeserializeIdPropertyActivityStreams := opaqueProperty "id";
  Page.DeserializeImagePropertyActivityStreams := opaqueProperty "image";
  Page.DeserializeInReplyToPropertyActivityStreams := opaqueProperty "inReplyTo";
  Page.DeserializeLastPropertyActivityStreams := opaqueProperty "last";
  Page.DeserializeLikesPropertyActivityStreams := opaqueProperty "likes";
  Page.DeserializeLocationPropertyActivityStreams := opaqueProperty "location";
  Page.DeserializeMediaTypePropertyActivityStreams := opaqueProperty "mediaType";
  Page.DeserializeNamePropertyActivityStreams := opaqueProperty "name";
  Page.DeserializeNextPropertyActivityStreams := opaqueProperty "next";
  Page.DeserializeObjectPropertyActivityStreams := opaqueProperty "object";
  Page.DeserializeOrderedItemsPropertyActivityStreams := opaqueProperty "orderedItems";
  Page.DeserializePartOfPropertyActivityStreams := opaqueProperty "partOf";
  Page.DeserializePrevPropertyActivityStreams := opaqueProperty "prev";
  Page.DeserializePreviewPropertyActivityStreams := opaqueProperty "preview";
  Page.DeserializePublishedPropertyActivityStreams := opaqueProperty "published";
  Page.DeserializeRepliesPropertyActivityStreams := opaqueProperty "replies";
  Page.DeserializeSharesPropertyActivityStreams := opaqueProperty "shares";
  Page.DeserializeStartIndexPropertyActivityStreams := opaqueProperty "startIndex";
  Page.DeserializeStartTimePropertyActivityStreams := opaqueProperty "startTime";
  Page.DeserializeSummaryPropertyActivityStreams := opaqueProperty "summary";
  Page.DeserializeTagPropertyActivityStreams := opaqueProperty "tag";
  Page.DeserializeToPropertyActivityStreams := opaqueProperty "to";
  Page.DeserializeTotalItemsPropertyActivityStreams := opaqueProperty "totalItems";
  Page.DeserializeUpdatedPropertyActivityStreams := opaqueProperty "updated";
  Page.DeserializeUrlPropertyActivityStreams := opaqueProperty "url";
|}.

(** The deserializer of "followers" over the four sample entity kinds. *)
Definition DeserializeFollowers :=
  Followers.DeserializeFollowersProperty
    (deserializeEntity "OrderedCollection") (deserializeEntity "Collection")
    (deserializeEntity "CollectionPage") (deserializeEntity "OrderedCollectionPage").

(** The value of a result, or a default. *)
Definition orElse {A : Type} (r : result A) (d : A) : A :=
  match r with Ok a => a | Err _ => d end.

(** The alias table that maps the namespace to the prefix "as". *)
Definition aliasAs : gmap string string := {[ asNamespace := "as" ]}.

(** [{"type": "OrderedCollectionPage"}] *)
Definition bareDoc : gmap string raw :=
  {[ "type" := RString "OrderedCollectionPage" ]}.

(** [{"type": ["OrderedCollectionPage"], "name": "Page 1",
      "ext": {"a": null}}] *)
Definition richDoc : gmap string raw :=
  <["type" := RList [RString "OrderedCollectionPage"]]>
    (<["name" := RString "Page 1"]>
       (<["ext" := RMap {[ "a" := RNull ]}]> ∅)).

Definition richPage : Page.OrderedCollectionPage :=
  orElse (Page.DeserializeOrderedCollectionPage richDoc ∅)
         Page.NewOrderedCollectionPage.

Definition richOut : gmap string raw := orElse (Page.Serialize richPage) ∅.

(** [bareDoc] deserialized under the alias "as". *)
Definition aliasedPage : Page.OrderedCollectionPage :=
  orElse (Page.DeserializeOrderedCollectionPage bareDoc aliasAs)
         Page.NewOrderedCollectionPage.

(** [{"as:type": "as:OrderedCollectionPage", "as:name": "Page 1"}] and the
    same document with bare keys. *)
Definition prefixedDoc : gmap string raw :=
  <["as:type" := RString "as:OrderedCollectionPage"]>
    (<["as:name" := RString "Page 1"]> ∅).
Definition unprefixedDoc : gmap string raw :=
  <["type" := RString "OrderedCollectionPage"]>
    (<["name" := RString "Page 1"]> ∅).

(** [{"type": "as:OrderedCollectionPage", "as:name": "Page 1"}] *)
Definition halfPrefixedDoc : gmap string raw :=
  <["type" := RString "as:OrderedCollectionPage"]>
    (<["as:name" := RString "Page 1"]> ∅).
End Sample.

(** ** Sample properties for running the list operations *)

Module SampleList.
Import Sample.

(** The "type" property [["Object", "OrderedCollectionPage"]], built by
    two appends, its first element, and the property of that element
    alone. *)
Definition oneType : TypeProp.TypeProperty :=
  TypeProp.AppendString TypeProp.NewTypeProperty "Object".
Definition twoTypes : TypeProp.TypeProperty :=
  TypeProp.AppendString oneType "OrderedCollectionPage".
Definition firstType : TypeProp.TypePropertyIterator :=
  {| TypeProp.anyURIMember := None; TypeProp.stringMember := "Object";
     TypeProp.hasStringMember := true; TypeProp.unknown := RNull;
     TypeProp.alias := ""; TypeProp.myIdx := 0; TypeProp.parent := true |}.
Definition secondType : TypeProp.TypePropertyIterator :=
  {| TypeProp.anyURIMember := None;
     TypeProp.stringMember := "OrderedCollectionPage";
     TypeProp.hasStringMember := true; TypeProp.unknown := RNull;
     TypeProp.alias := ""; TypeProp.myIdx := 1; TypeProp.parent := true |}.

(** [{"followers": "https://example.org/followers"}] *)
Definition iriDoc : gmap string raw :=
  {[ "followers" := RString "https://example.org/followers" ]}.

(** Modelled from the spec: the two further methods of an opaque
    property.  Properties are compared by their names, and each was read
    under no alias. *)
#[export] Instance propertyMethods : PageOrder.PropertyMethods := {|
  PageOrder.prop_LessThan := λ p q,
    String.ltb (Page.prop_Name p) (Page.prop_Name q);
  PageOrder.prop_JSONLDContext := λ _, {[ asNamespace := "" ]};
|}.

(** [richDoc] with one more entry that is not a known property. *)
Definition extendedDoc : gmap string raw :=
  <["ext2" := RNull]> richDoc.
Definition extendedPage : Page.OrderedCollectionPage :=
  orElse (Page.DeserializeOrderedCollectionPage extendedDoc ∅)
         Page.NewOrderedCollectionPage.

(** [{"type": "OrderedCollectionPage", "altitude": "12"}] and
    [{"type": "OrderedCollectionPage", "attachment": "note"}] *)
Definition altitudeDoc : gmap string raw :=
  <["altitude" := RString "12"]> bareDoc.
Definition attachmentDoc : gmap string raw :=
  <["attachment" := RString "note"]> bareDoc.
Definition altitudePage : Page.OrderedCollectionPage :=
  orElse (Page.DeserializeOrderedCollectionPage altitudeDoc ∅)
         Page.NewOrderedCollectionPage.
Definition attachmentPage : Page.OrderedCollectionPage :=
  orElse (Page.DeserializeOrderedCollectionPage attachmentDoc ∅)
         Page.NewOrderedCollectionPage.
End SampleList.

(** * Properties of the code *)

(** ** The result monad *)

Lemma bind_Ok_inv {A B : Type} (r : result A) (k : A → result B) (b : B) :
  (r ≫= k) = Ok b → ∃ a, r = Ok a ∧ k a = Ok b.
Proof. destruct r as [a|e]; simpl; [eauto | discriminate]. Qed.

(** Peel the binds of a hypothesis [_ = Ok _] from the outside in. *)
Ltac inv_binds H :=
  repeat (let a := fresh "a" in
          let Ha := fresh "Ha" in
          apply bind_Ok_inv in H as (a & Ha & H)).

(** ** Kind indices and the order of cells *)

Section CellOrder.
Context `{Values}.
Context {OC C CP OCP : Type}.
Context `{!VocabType OC, !VocabType C, !VocabType CP, !VocabType OCP}.
#[local] Abbreviation cell := (@Followers.FollowersProperty _ OC C CP OCP).
Implicit Types c this o : cell.

Lemma KindIndex_uncommitted c :
  Followers.HasAny c = false → Followers.KindIndex c = -1.
Proof.
  unfold Followers.HasAny, Followers.KindIndex, Followers.IsIRI.
  intros Hany.
  repeat (apply orb_false_elim in Hany as [Hany ?]).
  by repeat match goal with Hx : _ = false |- _ => rewrite Hx; clear Hx end.
Qed.

Lemma KindIndex_entity c :
  Followers.hasEntity c = true → 0 ≤ Followers.KindIndex c ≤ 3.
Proof.
  unfold Followers.hasEntity, Followers.KindIndex.
  destruct (Followers.IsOrderedCollection c), (Followers.IsCollection c),
    (Followers.IsCollectionPage c), (Followers.IsOrderedCollectionPage c);
    simpl; intros; (lia || done).
Qed.

Lemma KindIndex_IRI c :
  Followers.IsIRI c = true → Followers.hasEntity c = false →
  Followers.KindIndex c = -2.
Proof.
  unfold Followers.hasEntity, Followers.KindIndex.
  intros Hiri Hent.
  repeat (apply orb_false_elim in Hent as [Hent ?]).
  by repeat match goal with Hx : _ = _ |- _ => rewrite Hx; clear Hx end.
Qed.

Lemma HasAny_false_parts c :
  Followers.HasAny c = false →
  Followers.hasEntity c = false ∧ Followers.IsIRI c = false.
Proof.
  unfold Followers.HasAny, Followers.hasEntity, Followers.IsIRI.
  intros Hany. by apply orb_false_elim in Hany.
Qed.

(** When the indices differ, [LessThan] is their comparison. *)
Lemma LessThan_by_index this o :
  Followers.KindIndex this ≠ Followers.KindIndex o →
  Followers.LessThan this o
  = bool_decide (Followers.KindIndex this < Followers.KindIndex o).
Proof.
  intros Hne. unfold Followers.LessThan. cbv zeta.
  destruct (Z.ltb_spec (Followers.KindIndex this) (Followers.KindIndex o)).
  - by rewrite bool_decide_eq_true_2.
  - rewrite bool_decide_eq_false_2 by lia.
    destruct (Z.gtb_spec (Followers.KindIndex this) (Followers.KindIndex o));
      [done | lia].
Qed.

Lemma LessThan_both_uncommitted this o :
  Followers.HasAny this = false → Followers.HasAny o = false →
  Followers.LessThan this o = false.
Proof.
  intros H1 H2. unfold Followers.LessThan. cbv zeta.
  rewrite (KindIndex_uncommitted _ H1), (KindIndex_uncommitted _ H2).
  apply HasAny_false_parts in H1 as [H1 H1'].
  unfold Followers.hasEntity in H1.
  repeat (apply orb_false_elim in H1 as [H1 ?]).
  simpl. by repeat match goal with Hx : _ = false |- _ => rewrite Hx; clear Hx end.
Qed.
(** C2 (as amended).  On a "followers" cell the identifier kind reports
    -2, the unknown fallback (nothing committed) reports -1 and an entity
    kind reports a value from 0 to 3: the identifier kind is strictly below
    the fallback, which is strictly below every entity kind.  On an
    iterator of "type" the identifier kind is the kind "anyURI" and reports
    0, the kind "string" reports 1 and the fallback reports -1. *)
Theorem KindIndex_identifier_position
    (ci cs cu : cell) (ti ts tu : TypeProp.TypePropertyIterator) :
  Followers.IsIRI ci = true → Followers.hasEntity ci = false →
  Followers.hasEntity cs = true →
  Followers.HasAny cu = false →
  TypeProp.IsIRI ti = true →
  TypeProp.IsString ts = true → TypeProp.IsIRI ts = false →
  TypeProp.HasAny tu = false →
  (Followers.KindIndex ci = -2 ∧ Followers.KindIndex cu = -1
   ∧ Followers.KindIndex ci < Followers.KindIndex cu
   ∧ Followers.KindIndex cu < Followers.KindIndex cs
   ∧ Followers.KindIndex cs ≤ 3)
  ∧ (TypeProp.KindIndex ti = 0 ∧ TypeProp.KindIndex ts = 1
     ∧ TypeProp.KindIndex tu = -1).
Proof.
  intros Hi Hie Hs Hu Hti Hts Hts' Htu. split.
  - rewrite (KindIndex_IRI _ Hi Hie), (KindIndex_uncommitted _ Hu).
    pose proof (KindIndex_entity _ Hs). lia.
  - unfold TypeProp.KindIndex, TypeProp.HasAny, TypeProp.IsIRI,
      TypeProp.IsAnyURI, TypeProp.IsString in *.
    apply orb_false_elim in Htu as [Htu1 Htu2].
    by rewrite Hti, Hts, Hts', Htu1, Htu2.
Qed.

(** C3 (as amended).  A cell with nothing committed is strictly below a
    cell holding an entity kind, strictly above a cell holding the
    identifier kind, and neither below nor above another cell with nothing
    committed. *)
Theorem LessThan_uncommitted (c1 c2 : cell) :
  Followers.HasAny c1 = false →
  (Followers.hasEntity c2 = true →
     Followers.LessThan c1 c2 = true ∧ Followers.LessThan c2 c1 = false)
  ∧ (Followers.IsIRI c2 = true → Followers.hasEntity c2 = false →
     Followers.LessThan c1 c2 = false ∧ Followers.LessThan c2 c1 = true)
  ∧ (Followers.HasAny c2 = false →
     Followers.LessThan c1 c2 = false ∧ Followers.LessThan c2 c1 = false).
Proof.
  intros H1. pose proof (KindIndex_uncommitted _ H1) as Hk1.
  split; [|split].
  - intros H2. pose proof (KindIndex_entity _ H2).
    rewrite !LessThan_by_index by lia.
    split; [apply bool_decide_eq_true_2 | apply bool_decide_eq_false_2]; lia.
  - intros H2 H2'. pose proof (KindIndex_IRI _ H2 H2').
    rewrite !LessThan_by_index by lia.
    split; [apply bool_decide_eq_false_2 | apply bool_decide_eq_true_2]; lia.
  - intros H2. by rewrite !LessThan_both_uncommitted.
Qed.

(** X26.  After a setter is called with a value that is not [nil], the
    predicate of the kind just set is the only true one, and the unknown
    slot is empty. *)
Theorem Set_commits_one_kind (this : cell) :
  (∀ v, let c := Followers.SetOrderedCollection this (Some v) in
     Followers.IsOrderedCollection c = true ∧ Followers.IsCollection c = false
     ∧ Followers.IsCollectionPage c = false
     ∧ Followers.IsOrderedCollectionPage c = false ∧ Followers.IsIRI c = false
     ∧ Followers.unknown c = RNull)
  ∧ (∀ v, let c := Followers.SetCollection this (Some v) in
     Followers.IsOrderedCollection c = false ∧ Followers.IsCollection c = true
     ∧ Followers.IsCollectionPage c = false
     ∧ Followers.IsOrderedCollectionPage c = false ∧ Followers.IsIRI c = false
     ∧ Followers.unknown c = RNull)
  ∧ (∀ v, let c := Followers.SetCollectionPage this (Some v) in
     Followers.IsOrderedCollection c = false ∧ Followers.IsCollection c = false
     ∧ Followers.IsCollectionPage c = true
     ∧ Followers.IsOrderedCollectionPage c = false ∧ Followers.IsIRI c = false
     ∧ Followers.unknown c = RNull)
  ∧ (∀ v, let c := Followers.SetOrderedCollectionPage this (Some v) in
     Followers.IsOrderedCollection c = false ∧ Followers.IsCollection c = false
     ∧ Followers.IsCollectionPage c = false
     ∧ Followers.IsOrderedCollectionPage c = true ∧ Followers.IsIRI c = false
     ∧ Followers.unknown c = RNull)
  ∧ (∀ v, let c := Followers.SetIRI this (Some v) in
     Followers.IsOrderedCollection c = false ∧ Followers.IsCollection c = false
     ∧ Followers.IsCollectionPage c = false
     ∧ Followers.IsOrderedCollectionPage c = false ∧ Followers.IsIRI c = true
     ∧ Followers.unknown c = RNull).
Proof.
  repeat split;
    by (apply bool_decide_eq_true_2 || apply bool_decide_eq_false_2; simpl; intros ?).
Qed.
End CellOrder.

Section CellOrderRuns.
Import Sample.

(** C2, run on three cells and three iterators. *)
Lemma KindIndex_identifier_position_witness :
  (Followers.KindIndex Sample.iriCell = -2
   ∧ Followers.KindIndex Sample.emptyCell = -1
   ∧ Followers.KindIndex Sample.iriCell < Followers.KindIndex Sample.emptyCell
   ∧ Followers.KindIndex Sample.emptyCell < Followers.KindIndex Sample.collectionCell
   ∧ Followers.KindIndex Sample.collectionCell ≤ 3)
  ∧ (TypeProp.KindIndex Sample.iriIterator = 0
     ∧ TypeProp.KindIndex Sample.stringIterator = 1
     ∧ TypeProp.KindIndex TypeProp.NewTypePropertyIterator = -1).
Proof.
  apply (KindIndex_identifier_position
           Sample.iriCell Sample.collectionCell Sample.emptyCell
           Sample.iriIterator Sample.stringIterator
           TypeProp.NewTypePropertyIterator); reflexivity.
Defined.

(** C2 as stated fails: the identifier kind of a "followers" cell is below
    an entity kind, and the identifier kind of a "type" iterator is above
    the unknown fallback. *)
Lemma KindIndex_identifier_not_between :
  Followers.IsIRI Sample.iriCell = true
  ∧ Followers.IsOrderedCollection Sample.collectionCell = true
  ∧ ¬ (Followers.KindIndex Sample.collectionCell
       < Followers.KindIndex Sample.iriCell)
  ∧ TypeProp.IsIRI Sample.iriIterator = true
  ∧ TypeProp.HasAny TypeProp.NewTypePropertyIterator = false
  ∧ ¬ (TypeProp.KindIndex Sample.iriIterator
       < TypeProp.KindIndex TypeProp.NewTypePropertyIterator).
Proof. repeat split; by vm_compute. Qed.

(** C3, run on the empty cell against a cell holding a collection, a cell
    holding an IRI, and itself. *)
Lemma LessThan_uncommitted_witness :
  (Followers.LessThan Sample.emptyCell Sample.collectionCell = true
   ∧ Followers.LessThan Sample.collectionCell Sample.emptyCell = false)
  ∧ (Followers.LessThan Sample.emptyCell Sample.iriCell = false
     ∧ Followers.LessThan Sample.iriCell Sample.emptyCell = true)
  ∧ (Followers.LessThan Sample.emptyCell Sample.emptyCell = false
     ∧ Followers.LessThan Sample.emptyCell Sample.emptyCell = false).
Proof.
  split; [|split].
  - by apply (LessThan_uncommitted Sample.emptyCell Sample.collectionCell).
  - by apply (LessThan_uncommitted Sample.emptyCell Sample.iriCell).
  - by apply (LessThan_uncommitted Sample.emptyCell Sample.emptyCell).
Defined.

(** C3 as stated fails on the identifier kind: the empty cell is not below
    a cell holding an IRI, and that cell is below the empty one. *)
Lemma LessThan_uncommitted_above_IRI :
  Followers.HasAny Sample.emptyCell = false
  ∧ Followers.HasAny Sample.iriCell = true
  ∧ Followers.LessThan Sample.emptyCell Sample.iriCell = false
  ∧ Followers.LessThan Sample.iriCell Sample.emptyCell = true.
Proof. repeat split; by vm_compute. Qed.

(** C4, evaluated.  [SetIRI] is documented with "Calling IsIRI afterwards
    returns true".  Called with [nil], a value of its parameter type, on
    a cell that holds a collection, it clears the cell and commits
    nothing: no predicate is true afterwards, [IsIRI] included. *)
Lemma SetIRI_nil_commits_nothing :
  let c := Followers.SetIRI Sample.collectionCell None in
  Followers.IsOrderedCollection c = false ∧ Followers.IsCollection c = false
  ∧ Followers.IsCollectionPage c = false
  ∧ Followers.IsOrderedCollectionPage c = false ∧ Followers.IsIRI c = false.
Proof. repeat split; by vm_compute. Qed.
End CellOrderRuns.

(** ** The entity: type check and extension bag *)

Section PageFacts.
Context `{Values} `{!Page.Manager}.
Implicit Types m unknown : gmap string raw.
Implicit Types aliasMap : gmap string string.

Lemma collectUnknown_lookup m k :
  Page.collectUnknown m !! k
  = if bool_decide (k ∈ Page.knownKeys) then None else m !! k.
Proof.
  unfold Page.collectUnknown. revert k.
  apply (map_fold_weak_ind (λ r m, ∀ k, r !! k
           = if bool_decide (k ∈ Page.knownKeys) then None else m !! k)).
  - intros k. rewrite !lookup_empty. by case_bool_decide.
  - intros i x m' r Hi IH k.
    destruct (decide (i = k)) as [->|Hne].
    + case_bool_decide; [by rewrite IH, bool_decide_eq_true_2|].
      by rewrite !lookup_insert_eq.
    + rewrite (lookup_insert_ne m') by done.
      case_bool_decide; [apply IH|].
      rewrite lookup_insert_ne by done. apply IH.
Qed.

Lemma serializeUnknown_lookup unknown m k :
  Page.serializeUnknown unknown m !! k
  = match m !! k with Some w => Some w | None => unknown !! k end.
Proof.
  unfold Page.serializeUnknown. revert k.
  apply (map_fold_weak_ind (λ r u, ∀ k, r !! k
           = match m !! k with Some w => Some w | None => u !! k end)).
  - intros k. rewrite lookup_empty. by destruct (m !! k).
  - intros i x u r Hi IH k.
    assert (r !! i = m !! i) as Hri.
    { rewrite IH, Hi. by destruct (m !! i). }
    destruct (decide (i = k)) as [->|Hne].
    + rewrite lookup_insert_eq. destruct (r !! k) eqn:Hrk.
      * rewrite Hrk. by rewrite <- Hri.
      * rewrite lookup_insert_eq. by rewrite <- Hri.
    + rewrite (lookup_insert_ne u) by done.
      destruct (r !! i); [apply IH|].
      rewrite lookup_insert_ne by done. apply IH.
Qed.

(** A successful run of the property phase, field by field. *)
Lemma deserializeProperties_Ok_inv m aliasMap this :
  Page.deserializeProperties m aliasMap = Ok this →
  Page.DeserializeAltitudePropertyActivityStreams m aliasMap = Ok (Page.Altitude this) ∧
  Page.DeserializeAttachmentPropertyActivityStreams m aliasMap = Ok (Page.Attachment this) ∧
  Page.DeserializeAttributedToPropertyActivityStreams m aliasMap = Ok (Page.AttributedTo this) ∧
  Page.DeserializeAudiencePropertyActivityStreams m aliasMap = Ok (Page.Audience this) ∧
  Page.DeserializeBccPropertyActivityStreams m aliasMap = Ok (Page.Bcc this) ∧
  Page.DeserializeBtoPropertyActivityStreams m aliasMap = Ok (Page.Bto this) ∧
  Page.DeserializeCcPropertyActivityStreams m aliasMap = Ok (Page.Cc this) ∧
  Page.DeserializeContentPropertyActivityStreams m aliasMap = Ok (Page.Content this) ∧
  Page.DeserializeContextPropertyActivityStreams m aliasMap = Ok (Page.Context this) ∧
  Page.DeserializeCurrentPropertyActivityStreams m aliasMap = Ok (Page.Current this) ∧
  Page.DeserializeDurationPropertyActivityStreams m aliasMap = Ok (Page.Duration this) ∧
  Page.DeserializeEndTimePropertyActivityStreams m aliasMap = Ok (Page.EndTime this) ∧
  Page.DeserializeFirstPropertyActivityStreams m aliasMap = Ok (Page.First this) ∧
  Page.DeserializeGeneratorPropertyActivityStreams m aliasMap = Ok (Page.Generator this) ∧
  Page.DeserializeIconPropertyActivityStreams m aliasMap = Ok (Page.Icon this) ∧
  Page.DeserializeIdPropertyActivityStreams m aliasMap = Ok (Page.Id this) ∧
  Page.DeserializeImagePropertyActivityStreams m aliasMap = Ok (Page.Image this) ∧
  Page.DeserializeInReplyToPropertyActivityStreams m aliasMap = Ok (Page.InReplyTo this) ∧
  Page.DeserializeLastPropertyActivityStreams m aliasMap = Ok (Page.Last this) ∧
  Page.DeserializeLikesPropertyActivityStreams m aliasMap = Ok (Page.Likes this) ∧
  Page.DeserializeLocationPropertyActivityStreams m aliasMap = Ok (Page.Location this) ∧
  Page.DeserializeMediaTypePropertyActivityStreams m aliasMap = Ok (Page.MediaType this) ∧
  Page.DeserializeNamePropertyActivityStreams m aliasMap = Ok (Page.Name this) ∧
  Page.DeserializeNextPropertyActivityStreams m aliasMap = Ok (Page.Next this) ∧
  Page.DeserializeObjectPropertyActivityStreams m aliasMap = Ok (Page.Object this) ∧
  Page.DeserializeOrderedItemsPropertyActivityStreams m aliasMap = Ok (Page.OrderedItems this) ∧
  Page.DeserializePartOfPropertyActivityStreams m aliasMap = Ok (Page.PartOf this) ∧
  Page.DeserializePrevPropertyActivityStreams m aliasMap = Ok (Page.Prev this) ∧
  Page.DeserializePreviewPropertyActivityStreams m aliasMap = Ok (Page.Preview this) ∧
  Page.DeserializePublishedPropertyActivityStreams m aliasMap = Ok (Page.Published this) ∧
  Page.DeserializeRepliesPropertyActivityStreams m aliasMap = Ok (Page.Replies this) ∧
  Page.DeserializeSharesPropertyActivityStreams m aliasMap = Ok (Page.Shares this) ∧
  Page.DeserializeStartIndexPropertyActivityStreams m aliasMap = Ok (Page.StartIndex this) ∧
  Page.DeserializeStartTimePropertyActivityStreams m aliasMap = Ok (Page.StartTime this) ∧
  Page.DeserializeSummaryPropertyActivityStreams m aliasMap = Ok (Page.Summary this) ∧
  Page.DeserializeTagPropertyActivityStreams m aliasMap = Ok (Page.Tag this) ∧
  Page.DeserializeToPropertyActivityStreams m aliasMap = Ok (Page.To this) ∧
  Page.DeserializeTotalItemsPropertyActivityStreams m aliasMap = Ok (Page.TotalItems this) ∧
  Page.DeserializeTypePropertyActivityStreams m aliasMap = Ok (Page.Type_ this) ∧
  Page.DeserializeUpdatedPropertyActivityStreams m aliasMap = Ok (Page.Updated this) ∧
  Page.DeserializeUrlPropertyActivityStreams m aliasMap = Ok (Page.Url this) ∧
  Page.alias this = aliasOf aliasMap ∧
  Page.unknown this = Page.collectUnknown m.
Proof.
  unfold Page.deserializeProperties. cbv zeta. intros Hd.
  inv_binds Hd. injection Hd as <-. simpl.
  repeat split; assumption.
Qed.

Lemma DeserializeOrderedCollectionPage_Ok_inv m aliasMap this :
  Page.DeserializeOrderedCollectionPage m aliasMap = Ok this →
  Page.checkType m (Page.aliasPrefixOf aliasMap) = Ok ()
  ∧ Page.deserializeProperties m aliasMap = Ok this.
Proof.
  unfold Page.DeserializeOrderedCollectionPage. intros Hd.
  apply bind_Ok_inv in Hd as ([] & Hc & Hd). done.
Qed.
Lemma existsb_isTypeName_false aliasPrefix (arrType : list raw) :
  (∀ typeString, RString typeString ∈ arrType →
     TrimPrefix typeString aliasPrefix ≠ "OrderedCollectionPage") →
  existsb (Page.isTypeName aliasPrefix) arrType = false.
Proof.
  intros Hno. apply not_true_is_false. intros Hex.
  apply existsb_exists in Hex as (elemVal & Hin & Hel).
  apply list_elem_of_In in Hin.
  destruct elemVal; try discriminate. simpl in Hel.
  apply bool_decide_eq_true_1 in Hel. by eapply Hno.
Qed.

Lemma existsb_isTypeName_true aliasPrefix (arrType : list raw) typeString :
  RString typeString ∈ arrType →
  TrimPrefix typeString aliasPrefix = "OrderedCollectionPage" →
  existsb (Page.isTypeName aliasPrefix) arrType = true.
Proof.
  intros Hin Heq. apply existsb_exists. exists (RString typeString).
  split; [by apply list_elem_of_In|]. simpl. by apply bool_decide_eq_true_2.
Qed.

(** C5.  The deserializer answers a map without "type" with the
    missing-type error; a "type" string that does not strip to the type
    name, or a "type" array none of whose strings does, with a mismatch
    error; any other "type" value with the malformed-type error; and it
    goes on to the properties as soon as the string, or one string of the
    array, strips to the type name. *)
Theorem DeserializeOrderedCollectionPage_type_validation m aliasMap :
  let aliasPrefix := Page.aliasPrefixOf aliasMap in
  (m !! "type" = None →
     Page.DeserializeOrderedCollectionPage m aliasMap = Err ErrNoType)
  ∧ (∀ typeString, m !! "type" = Some (RString typeString) →
       TrimPrefix typeString aliasPrefix ≠ "OrderedCollectionPage" →
       Page.DeserializeOrderedCollectionPage m aliasMap
       = Err (ErrTypeNotOf (TrimPrefix typeString aliasPrefix)))
  ∧ (∀ arrType, m !! "type" = Some (RList arrType) →
       (∀ typeString, RString typeString ∈ arrType →
          TrimPrefix typeString aliasPrefix ≠ "OrderedCollectionPage") →
       Page.DeserializeOrderedCollectionPage m aliasMap = Err ErrTypeNotFound)
  ∧ (∀ typeValue, m !! "type" = Some typeValue →
       asString typeValue = None → asList typeValue = None →
       Page.DeserializeOrderedCollectionPage m aliasMap
       = Err (ErrTypeUnrecognized typeValue))
  ∧ (∀ typeString, m !! "type" = Some (RString typeString) →
       TrimPrefix typeString aliasPrefix = "OrderedCollectionPage" →
       Page.DeserializeOrderedCollectionPage m aliasMap
       = Page.deserializeProperties m aliasMap)
  ∧ (∀ arrType typeString, m !! "type" = Some (RList arrType) →
       RString typeString ∈ arrType →
       TrimPrefix typeString aliasPrefix = "OrderedCollectionPage" →
       Page.DeserializeOrderedCollectionPage m aliasMap
       = Page.deserializeProperties m aliasMap).
Proof.
  cbv zeta. unfold Page.DeserializeOrderedCollectionPage, Page.checkType.
  repeat split.
  - by intros ->.
  - intros typeString -> Hne. by rewrite bool_decide_eq_false_2.
  - intros arrType -> Hno. by rewrite existsb_isTypeName_false.
  - intros typeValue -> Hs Hl. by destruct typeValue.
  - intros typeString -> Heq. by rewrite bool_decide_eq_true_2.
  - intros arrType typeString -> Hin Heq.
    by rewrite (existsb_isTypeName_true _ _ _ Hin Heq).
Qed.

(** C6.  After a successful deserialization the extension bag holds every
    entry of the map whose key is not on the list of known keys, and
    nothing else.  A successful serialization emits the known properties
    first; an entry of the bag is in the output with its value when its key
    was not emitted by then, and otherwise the emitted value stays. *)
Theorem extension_bag_preserved m aliasMap this out :
  Page.DeserializeOrderedCollectionPage m aliasMap = Ok this →
  Page.Serialize this = Ok out →
  (∀ k, k ∉ Page.knownKeys → Page.unknown this !! k = m !! k)
  ∧ (∀ k, k ∈ Page.knownKeys → Page.unknown this !! k = None)
  ∧ (∀ k, k ∈ ["contentMap"; "nameMap"; "summaryMap"; "type"] →
          k ∈ Page.knownKeys)
  ∧ ∃ known, Page.serializeKnown this = Ok known
      ∧ (∀ k v, Page.unknown this !! k = Some v → known !! k = None →
                out !! k = Some v)
      ∧ (∀ k w, known !! k = Some w → out !! k = Some w).
Proof.
  intros Hd Hs.
  apply DeserializeOrderedCollectionPage_Ok_inv in Hd as [_ Hd].
  apply deserializeProperties_Ok_inv in Hd.
  assert (Page.unknown this = Page.collectUnknown m) as Hu by apply Hd.
  clear Hd. unfold Page.Serialize in Hs.
  apply bind_Ok_inv in Hs as (known & Hk & Hs). injection Hs as <-.
  repeat split.
  - intros k Hk'. by rewrite Hu, collectUnknown_lookup, bool_decide_eq_false_2.
  - intros k Hk'. by rewrite Hu, collectUnknown_lookup, bool_decide_eq_true_2.
  - intros k Hk'. unfold Page.knownKeys.
    repeat (apply elem_of_cons in Hk' as [->|Hk']; [by vm_compute; set_solver|]).
    by apply elem_of_nil in Hk'.
  - exists known. repeat split; [done| |].
    + intros k v Hv Hn. by rewrite serializeUnknown_lookup, Hn.
    + intros k w Hw. by rewrite serializeUnknown_lookup, Hw.
Qed.
End PageFacts.

(** ** Kind dispatch of the two properties *)

Section Dispatch.
Context `{Values}.
Context {OC C CP OCP : Type}.
Context (DeserializeOrderedCollection : typeDeserializer OC)
        (DeserializeCollection : typeDeserializer C)
        (DeserializeCollectionPage : typeDeserializer CP)
        (DeserializeOrderedCollectionPage : typeDeserializer OCP).
Implicit Types m : gmap string raw.
Implicit Types aliasMap : gmap string string.
Implicit Types i x : raw.

#[local] Abbreviation DeserializeFollowersProperty :=
  (Followers.DeserializeFollowersProperty
     DeserializeOrderedCollection DeserializeCollection
     DeserializeCollectionPage DeserializeOrderedCollectionPage).

#[local] Abbreviation noEntityParses :=
  (Followers.noEntityParses
     DeserializeOrderedCollection DeserializeCollection
     DeserializeCollectionPage DeserializeOrderedCollectionPage).

Lemma DeserializeFollowersProperty_total m aliasMap :
  ∃ p, DeserializeFollowersProperty m aliasMap = Ok p.
Proof.
  unfold Followers.DeserializeFollowersProperty. cbv zeta.
  destruct (m !! _) as [i|]; [|by eauto].
  destruct (Followers.parseIRI i); [by eauto|].
  destruct (asMap i) as [m'|]; [|by eauto].
  destruct (DeserializeOrderedCollection m' aliasMap); [by eauto|].
  destruct (DeserializeCollection m' aliasMap); [by eauto|].
  destruct (DeserializeCollectionPage m' aliasMap); [by eauto|].
  destruct (DeserializeOrderedCollectionPage m' aliasMap); by eauto.
Qed.

Lemma DeserializeFollowersProperty_fallback m aliasMap i :
  m !! propNameFor (aliasOf aliasMap) "followers" = Some i →
  noEntityParses i aliasMap →
  DeserializeFollowersProperty m aliasMap
  = Ok (Some (Followers.fallbackCell (aliasOf aliasMap) i)).
Proof.
  intros Hi Hno. unfold Followers.DeserializeFollowersProperty, Followers.fallbackCell.
  cbv zeta. rewrite Hi.
  destruct (Followers.parseIRI i); [done|].
  destruct (asMap i) as [m'|] eqn:Hm; [|done].
  destruct (Hno m' Hm) as (H1 & H2 & H3 & H4).
  destruct (DeserializeOrderedCollection m' aliasMap); [discriminate|].
  destruct (DeserializeCollection m' aliasMap); [discriminate|].
  destruct (DeserializeCollectionPage m' aliasMap); [discriminate|].
  destruct (DeserializeOrderedCollectionPage m' aliasMap); [discriminate|done].
Qed.

Lemma deserializeTypePropertyIterator_total i aliasMap :
  ∃ it, TypeProp.deserializeTypePropertyIterator i aliasMap = Ok (Some it).
Proof.
  unfold TypeProp.deserializeTypePropertyIterator. cbv zeta.
  destruct (DeserializeAnyURI i); [by eauto|].
  destruct (DeserializeString i); by eauto.
Qed.

(** C9.  Neither dispatch returns an error.  An absent "followers" key
    gives no property and no error.  A value of "followers" that is a
    string which [url.Parse] accepts with a scheme that is not empty
    commits as the IRI kind, holding the parsed URL and nothing else.
    When no entity kind parses the value and it is no such string, it
    commits as the unknown kind, holding the raw value and nothing else.
    When neither kind of "type" parses an element, the element is kept as
    unknown; it is then not a string, hence no IRI, as soon as the string
    kind takes every string. *)
Theorem kind_dispatch_never_fails m aliasMap i :
  (∃ p, DeserializeFollowersProperty m aliasMap = Ok p)
  ∧ (m !! propNameFor (aliasOf aliasMap) "followers" = None →
       DeserializeFollowersProperty m aliasMap = Ok None)
  ∧ (∀ v s u, m !! propNameFor (aliasOf aliasMap) "followers" = Some v →
       asString v = Some s → url_Parse s = Some u → url_Scheme u ≠ "" →
       DeserializeFollowersProperty m aliasMap
       = Ok (Some {| Followers.OrderedCollectionMember := None;
                     Followers.CollectionMember := None;
                     Followers.CollectionPageMember := None;
                     Followers.OrderedCollectionPageMember := None;
                     Followers.unknown := RNull; Followers.iri := Some u;
                     Followers.alias := aliasOf aliasMap |}))
  ∧ (∀ v, m !! propNameFor (aliasOf aliasMap) "followers" = Some v →
       noEntityParses v aliasMap →
       (∀ s u, asString v = Some s → url_Parse s = Some u → url_Scheme u = "") →
       DeserializeFollowersProperty m aliasMap
       = Ok (Some {| Followers.OrderedCollectionMember := None;
                     Followers.CollectionMember := None;
                     Followers.CollectionPageMember := None;
                     Followers.OrderedCollectionPageMember := None;
                     Followers.unknown := v; Followers.iri := None;
                     Followers.alias := aliasOf aliasMap |}))
  ∧ (∀ v, m !! propNameFor (aliasOf aliasMap) "followers" = Some v →
       noEntityParses v aliasMap →
       DeserializeFollowersProperty m aliasMap
       = Ok (Some (Followers.fallbackCell (aliasOf aliasMap) v)))
  ∧ (∃ it, TypeProp.deserializeTypePropertyIterator i aliasMap = Ok (Some it))
  ∧ (isOk (DeserializeAnyURI i) = false → isOk (DeserializeString i) = false →
       TypeProp.deserializeTypePropertyIterator i aliasMap
       = Ok (Some (TypeProp.unknownIterator (aliasOf aliasMap) i))
       ∧ ((∀ s, isOk (DeserializeString (RString s)) = true) →
          asString i = None)).
Proof.
  split; [apply DeserializeFollowersProperty_total|].
  split.
  { intros Hn. unfold Followers.DeserializeFollowersProperty. cbv zeta.
    by rewrite Hn. }
  split.
  { intros v s u Hv Hs Hu Hscheme.
    unfold Followers.DeserializeFollowersProperty, Followers.parseIRI. cbv zeta.
    rewrite Hv, Hs, Hu. by rewrite bool_decide_eq_false_2. }
  split.
  { intros v Hv Hno Hiri.
    rewrite (DeserializeFollowersProperty_fallback _ _ _ Hv Hno).
    unfold Followers.fallbackCell, Followers.parseIRI.
    destruct (asString v) as [s|]; [|done].
    destruct (url_Parse s) as [u|] eqn:Hu; [|done].
    by rewrite bool_decide_eq_true_2 by (by apply (Hiri s)). }
  split; [intros v; apply DeserializeFollowersProperty_fallback|].
  split; [apply deserializeTypePropertyIterator_total|].
  intros Hu Hs. split.
  - unfold TypeProp.deserializeTypePropertyIterator, TypeProp.unknownIterator.
    cbv zeta.
    destruct (DeserializeAnyURI i); [discriminate|].
    destruct (DeserializeString i); [discriminate|done].
  - intros Hstr. destruct i; try done. by rewrite Hstr in Hs.
Qed.
End Dispatch.

(** ** The "type" property: scalar and one-element list *)

Section TypeFacts.
Context `{Values}.
Implicit Types m : gmap string raw.
Implicit Types aliasMap : gmap string string.
Implicit Types x : raw.

Lemma Serialize_singleton (this : TypeProp.TypeProperty) it :
  TypeProp.properties this = [it] →
  TypeProp.Serialize this = TypeProp.serialize it.
Proof.
  intros Hp. unfold TypeProp.Serialize. rewrite Hp. simpl.
  by destruct (TypeProp.serialize it).
Qed.

Lemma DeserializeTypeProperty_lookup m aliasMap x :
  m !! propNameFor (aliasOf aliasMap) "type" = Some x →
  TypeProp.DeserializeTypeProperty m aliasMap
  = (properties ←
       TypeProp.deserializeElements
         (match asList x with Some wireList => wireList | None => [x] end)
         aliasMap [];
     Ok (Some {| TypeProp.properties := TypeProp.setUp properties;
                 TypeProp.tp_alias := aliasOf aliasMap |})).
Proof.
  intros Hx. unfold TypeProp.DeserializeTypeProperty. cbv zeta. rewrite Hx.
  by destruct (asList x).
Qed.

(** C7 (as amended).  For a raw value that is not itself a list, the map
    with the bare value and the map with the value wrapped in a list
    deserialize to the same property, which has one element when no alias
    is registered; and a property of one element serializes to what its
    element serializes to, not to a list. *)
Theorem scalar_same_as_singleton_list x aliasMap :
  asList x = None →
  TypeProp.DeserializeTypeProperty {[ "type" := x ]} aliasMap
  = TypeProp.DeserializeTypeProperty {[ "type" := RList [x] ]} aliasMap
  ∧ (aliasOf aliasMap = "" →
     ∃ it, TypeProp.deserializeTypePropertyIterator x aliasMap = Ok (Some it)
       ∧ TypeProp.DeserializeTypeProperty {[ "type" := x ]} aliasMap
         = Ok (Some {| TypeProp.properties := TypeProp.setUp [it];
                       TypeProp.tp_alias := "" |}))
  ∧ (∀ (this : TypeProp.TypeProperty) it,
       TypeProp.properties this = [it] →
       TypeProp.Serialize this = TypeProp.serialize it).
Proof.
  intros Hx. split; [|split].
  - unfold TypeProp.DeserializeTypeProperty. cbv zeta.
    destruct (decide (propNameFor (aliasOf aliasMap) "type" = "type")) as [->|Hne].
    + rewrite !lookup_singleton_eq. by rewrite Hx.
    + by rewrite !lookup_singleton_ne.
  - intros Ha.
    destruct (deserializeTypePropertyIterator_total x aliasMap) as [it Hit].
    exists it. split; [done|].
    rewrite (DeserializeTypeProperty_lookup _ _ x).
    + rewrite Hx. simpl. rewrite Hit. simpl. by rewrite Ha.
    + rewrite Ha. apply lookup_singleton_eq.
  - apply Serialize_singleton.
Qed.
End TypeFacts.

(** ** The entity: serialization *)

Section PageSerialize.
Context `{Values} `{!Page.Manager}.
Implicit Types m known out : gmap string raw.
Implicit Types aliasMap : gmap string string.
Implicit Types this : Page.OrderedCollectionPage.

(** The block of "type" is the block of a property seen through its
    interface. *)
Lemma maybeSerializeType_as_property (p : option TypeProp.TypeProperty) m :
  Page.maybeSerializeType p m = Page.maybeSerialize (Page.typeAsProperty <$> p) m.
Proof. by destruct p. Qed.

Lemma serializeKnown_fields this :
  Page.serializeKnown this
  = Page.serializeFields (Page.knownFields this) (Page.initialType this).
Proof.
  unfold Page.serializeKnown, Page.knownFields. cbv zeta.
  by destruct (Page.Type_ this).
Qed.

Lemma maybeSerialize_lookup_ne (p : option Page.Property) m m' k :
  Page.maybeSerialize p m = Ok m' →
  (∀ q, p = Some q → Page.prop_Name q ≠ k) →
  m' !! k = m !! k.
Proof.
  destruct p as [q|]; simpl; [|by intros [= <-]].
  intros Hs Hne. apply bind_Ok_inv in Hs as (i & _ & [= <-]).
  destruct (isNil i); [done|]. apply lookup_insert_ne. by apply Hne.
Qed.

Lemma maybeSerializeType_lookup (tp : TypeProp.TypeProperty) i m m' :
  Page.maybeSerializeType (Some tp) m = Ok m' →
  TypeProp.Serialize tp = Ok i → isNil i = false →
  m' !! "type" = Some i.
Proof.
  simpl. intros Hs Hi Hn. rewrite Hi in Hs. simpl in Hs. rewrite Hn in Hs.
  injection Hs as <-. apply lookup_insert_eq.
Qed.

Lemma Serialize_type_overwritten this tp i out :
  Page.Type_ this = Some tp →
  TypeProp.Serialize tp = Ok i → isNil i = false →
  (∀ p, Page.Updated this = Some p ∨ Page.Url this = Some p →
        Page.prop_Name p ≠ "type") →
  Page.Serialize this = Ok out →
  out !! "type" = Some i.
Proof.
  intros Ht Hi Hn Hnames Hs. unfold Page.Serialize in Hs.
  apply bind_Ok_inv in Hs as (known & Hk & [= <-]).
  rewrite serializeUnknown_lookup.
  enough (known !! "type" = Some i) as -> by done.
  unfold Page.serializeKnown in Hk. cbv zeta in Hk. inv_binds Hk.
  injection Hk as <-. rewrite Ht in *.
  repeat match goal with
         | Hm : Page.maybeSerialize (Page.Url this) _ = Ok _ |- _ =>
             rewrite (maybeSerialize_lookup_ne _ _ _ _ Hm) by (intros; apply Hnames; auto);
             clear Hm
         | Hm : Page.maybeSerialize (Page.Updated this) _ = Ok _ |- _ =>
             rewrite (maybeSerialize_lookup_ne _ _ _ _ Hm) by (intros; apply Hnames; auto);
             clear Hm
         end.
  eauto using maybeSerializeType_lookup.
Qed.
Lemma checkType_Ok_lookup m aliasPrefix :
  Page.checkType m aliasPrefix = Ok () → ∃ typeValue, m !! "type" = Some typeValue.
Proof. unfold Page.checkType. destruct (m !! "type"); [eauto | discriminate]. Qed.

Lemma Serialize_Ok_Type this tp out :
  Page.Serialize this = Ok out → Page.Type_ this = Some tp →
  ∃ i, TypeProp.Serialize tp = Ok i.
Proof.
  intros Hs Ht. unfold Page.Serialize in Hs.
  apply bind_Ok_inv in Hs as (known & Hk & _).
  unfold Page.serializeKnown in Hk. cbv zeta in Hk. inv_binds Hk.
  rewrite Ht in *.
  match goal with
  | Hm : Page.maybeSerializeType (Some tp) _ = Ok _ |- _ =>
      simpl in Hm; apply bind_Ok_inv in Hm as (i & Hi & _)
  end.
  eauto.
Qed.

Lemma Deserialize_Type_no_alias m aliasMap this :
  aliasOf aliasMap = "" →
  Page.DeserializeOrderedCollectionPage m aliasMap = Ok this →
  ∃ typeValue properties,
    m !! "type" = Some typeValue
    ∧ TypeProp.deserializeElements
        (match asList typeValue with Some wireList => wireList | None => [typeValue] end)
        aliasMap [] = Ok properties
    ∧ Page.Type_ this
      = Some {| TypeProp.properties := TypeProp.setUp properties;
                TypeProp.tp_alias := "" |}.
Proof.
  intros Ha Hd.
  apply DeserializeOrderedCollectionPage_Ok_inv in Hd as [Hc Hd].
  apply checkType_Ok_lookup in Hc as [typeValue Hv].
  apply deserializeProperties_Ok_inv in Hd.
  assert (TypeProp.DeserializeTypeProperty m aliasMap = Ok (Page.Type_ this))
    as Ht by apply Hd.
  clear Hd. rewrite (DeserializeTypeProperty_lookup _ _ typeValue) in Ht
    by (by rewrite Ha).
  apply bind_Ok_inv in Ht as (properties & Hp & [= Ht]).
  exists typeValue, properties. by rewrite <- Ht, Ha.
Qed.

(** X25.  When the "type" property of an entity is set and
    serializes to a value that is not [nil], that value replaces the fixed
    "type" entry in the output, provided the two properties serialized
    after it do not themselves write under "type".  The entity made by
    [NewOrderedCollectionPage] emits the serialized string of its "type"
    property.  An entity deserialized under an alias map that registers no
    alias has its "type" property set, and emits what that property
    serializes to. *)
Theorem Serialize_type_from_Type_property :
  (∀ this tp i out,
     Page.Type_ this = Some tp →
     TypeProp.Serialize tp = Ok i → isNil i = false →
     (∀ p, Page.Updated this = Some p ∨ Page.Url this = Some p →
           Page.prop_Name p ≠ "type") →
     Page.Serialize this = Ok out →
     out !! "type" = Some i)
  ∧ (∀ i, SerializeString "OrderedCollectionPage" = Ok i → isNil i = false →
       Page.Serialize Page.NewOrderedCollectionPage = Ok {[ "type" := i ]})
  ∧ (∀ m aliasMap this out,
       aliasOf aliasMap = "" →
       Page.DeserializeOrderedCollectionPage m aliasMap = Ok this →
       Page.Serialize this = Ok out →
       ∃ tp i, Page.Type_ this = Some tp ∧ TypeProp.Serialize tp = Ok i
         ∧ (isNil i = false →
            (∀ p, Page.Updated this = Some p ∨ Page.Url this = Some p →
                  Page.prop_Name p ≠ "type") →
            out !! "type" = Some i)).
Proof.
  split; [apply Serialize_type_overwritten|]. split.
  - intros i Hi Hn.
    unfold Page.Serialize, Page.serializeKnown, Page.initialType. simpl.
    unfold TypeProp.Serialize. simpl.
    unfold TypeProp.serialize, TypeProp.IsString. simpl.
    rewrite Hi. simpl. rewrite Hn.
    unfold Page.serializeUnknown. rewrite map_fold_empty.
    by rewrite insert_insert_eq.
  - intros m aliasMap this out Ha Hd Hs.
    destruct (Deserialize_Type_no_alias _ _ _ Ha Hd)
      as (typeValue & properties & _ & _ & Ht).
    destruct (Serialize_Ok_Type _ _ _ Hs Ht) as [i Hi].
    eexists _, i. split; [done|]. split; [done|].
    intros Hn Hnames. by eapply Serialize_type_overwritten.
Qed.

(** Whatever the manager, a map without the bare key "type" is refused
    under the alias "as", prefixed keys or not. *)
Lemma prefixed_type_key_missing m :
  m !! "type" = None →
  Page.DeserializeOrderedCollectionPage m {[ asNamespace := "as" ]} = Err ErrNoType.
Proof.
  intros Hm. unfold Page.DeserializeOrderedCollectionPage, Page.checkType.
  by rewrite Hm.
Qed.
End PageSerialize.

(** ** The round trip of a document *)

Section RoundTrip.
Context `{Values} `{!Page.Manager}.
Implicit Types d m known out : gmap string raw.
Implicit Types aliasMap : gmap string string.
Implicit Types this : Page.OrderedCollectionPage.
Implicit Types x v w : raw.

Lemma sameEntry_refl (o : option raw) : Page.sameEntry o o.
Proof. destruct o; simpl; [by left | done]. Qed.

Lemma wireKeys_flat : concat Page.wireKeys = Page.knownKeys.
Proof. reflexivity. Qed.

Lemma knownKeys_NoDup : NoDup Page.knownKeys.
Proof. apply (bool_decide_unpack _). by vm_compute. Qed.

(** *** The "type" property gives back its wire elements *)

Lemma serialize_deserialized x aliasMap it :
  Page.elementRoundTrips x →
  TypeProp.deserializeTypePropertyIterator x aliasMap = Ok (Some it) →
  TypeProp.serialize it = Ok x.
Proof.
  unfold Page.elementRoundTrips, TypeProp.deserializeTypePropertyIterator.
  cbv zeta. intros Hx Hit.
  destruct (DeserializeAnyURI x); [by injection Hit as <-|].
  destruct (DeserializeString x); by injection Hit as <-.
Qed.

Lemma deserializeElements_serialize (wireList : list raw) aliasMap :
  Forall Page.elementRoundTrips wireList →
  ∀ acc properties,
    TypeProp.deserializeElements wireList aliasMap acc = Ok properties →
    ∃ rest, properties = (acc ++ rest)%list
      ∧ Forall2 (λ it x, TypeProp.serialize it = Ok x) rest wireList.
Proof.
  induction 1 as [|x wireList Hx _ IH]; intros acc properties Hd; simpl in Hd.
  - injection Hd as <-. exists []. by rewrite app_nil_r.
  - apply bind_Ok_inv in Hd as (p & Hp & Hd).
    destruct (deserializeTypePropertyIterator_total x aliasMap) as [it Hit].
    rewrite Hit in Hp. injection Hp as <-.
    apply IH in Hd as (rest & -> & Hrest).
    exists (it :: rest). split; [by rewrite <- app_assoc|].
    constructor; [by eapply serialize_deserialized | done].
Qed.

Lemma serialize_imap (f : nat → TypeProp.TypePropertyIterator → TypeProp.TypePropertyIterator)
    (its : list TypeProp.TypePropertyIterator) (xs : list raw) :
  (∀ idx ele, TypeProp.serialize (f idx ele) = TypeProp.serialize ele) →
  Forall2 (λ it x, TypeProp.serialize it = Ok x) its xs →
  Forall2 (λ it x, TypeProp.serialize it = Ok x) (imap f its) xs.
Proof.
  intros Hf Hits. revert f Hf.
  induction Hits as [|it x its xs Hit _ IH]; intros f Hf; simpl; constructor.
  - by rewrite Hf.
  - apply IH. intros idx ele. apply Hf.
Qed.

Lemma serializeElements_spec (its : list TypeProp.TypePropertyIterator)
    (xs s : list raw) :
  Forall2 (λ it x, TypeProp.serialize it = Ok x) its xs →
  TypeProp.serializeElements its s = Ok (s ++ xs)%list.
Proof.
  intros Hits. revert s.
  induction Hits as [|it x its xs Hit _ IH]; intros s; simpl.
  - by rewrite app_nil_r.
  - rewrite Hit. simpl. rewrite IH. by rewrite <- app_assoc.
Qed.

Lemma Serialize_deserialized (wireList : list raw) aliasMap properties a :
  Forall Page.elementRoundTrips wireList →
  TypeProp.deserializeElements wireList aliasMap [] = Ok properties →
  TypeProp.Serialize {| TypeProp.properties := TypeProp.setUp properties;
                        TypeProp.tp_alias := a |}
  = Ok (TypeProp.shortcut wireList).
Proof.
  intros Hx Hd.
  apply (deserializeElements_serialize _ _ Hx) in Hd as (rest & -> & Hrest).
  simpl app. unfold TypeProp.Serialize. simpl TypeProp.properties.
  rewrite (serializeElements_spec _ wireList); [|by apply serialize_imap].
  done.
Qed.

Lemma checkType_shortcut d aliasPrefix typeValue :
  Page.checkType d aliasPrefix = Ok () →
  d !! "type" = Some typeValue →
  let wire := TypeProp.shortcut
    (match asList typeValue with Some wireList => wireList | None => [typeValue] end) in
  isNil wire = false ∧ Page.sameUpToSingleton wire typeValue.
Proof.
  unfold Page.checkType. intros Hc Hv. rewrite Hv in Hc. cbv zeta.
  destruct typeValue as [| | |typeString|arrType|]; try discriminate Hc; simpl.
  - split; [done | by left].
  - destruct arrType as [|b [|b' arrType]]; simpl.
    + discriminate Hc.
    + split; [|by right; right].
      simpl in Hc. rewrite orb_false_r in Hc.
      destruct b; simpl in Hc; done.
    + split; [done | by left].
Qed.

(** *** The known properties give back their wire entries *)

Lemma maybeSerialize_roundTrips d keys (p : option Page.Property) m :
  Page.fieldRoundTrips d keys p →
  ∃ m', Page.maybeSerialize p m = Ok m'
    ∧ (∀ k, k ∉ keys → m' !! k = m !! k)
    ∧ (∀ k, k ∈ keys →
         Page.sameEntry (m' !! k) (d !! k) ∨ (m' !! k = m !! k ∧ d !! k = None)).
Proof.
  destruct p as [p|]; simpl.
  - intros (Hname & Hothers & v & w & Hs & Hn & Hw & Hvw).
    rewrite Hs. simpl. rewrite Hn. eexists. split; [done|]. split.
    + intros k Hk. apply lookup_insert_ne. intros Heq. apply Hk. by rewrite <- Heq.
    + intros k Hk. destruct (decide (k = Page.prop_Name p)) as [->|Hne].
      * left. by rewrite lookup_insert_eq, Hw.
      * right. rewrite lookup_insert_ne by done. auto.
  - intros Hnone. exists m. split; [done|]. split; [done|].
    intros k Hk. right. auto.
Qed.

Lemma serializeFields_roundTrips d (keysets : list (list string))
    (fields : list (option Page.Property)) :
  Forall2 (Page.fieldRoundTrips d) keysets fields →
  NoDup (concat keysets) →
  ∀ m, ∃ known, Page.serializeFields fields m = Ok known
    ∧ (∀ k, k ∉ concat keysets → known !! k = m !! k)
    ∧ (∀ k, k ∈ concat keysets →
         Page.sameEntry (known !! k) (d !! k)
         ∨ (known !! k = m !! k ∧ d !! k = None)).
Proof.
  induction 1 as [|keys p keysets fields Hp _ IH]; simpl; intros Hnd m.
  - exists m. split; [done|]. split; [done|]. by intros k Hk%elem_of_nil.
  - destruct (proj1 (NoDup_app _ _) Hnd) as (_ & Hdisj & Hnd').
    destruct (maybeSerialize_roundTrips d keys p m Hp) as (m1 & Hm1 & Hout & Hin).
    destruct (IH Hnd' m1) as (known & Hk & Hkout & Hkin).
    exists known. rewrite Hm1. simpl. split; [done|]. split.
    + intros k Hk'. rewrite Hkout, Hout; [done| |];
        intros ?; apply Hk', elem_of_app; auto.
    + intros k [Hk'|Hk']%elem_of_app.
      * rewrite Hkout by auto. auto.
      * destruct (Hkin k Hk') as [?|[Heq Hd]]; [by left|].
        right. rewrite Heq, Hout; [done|]. intros ?. by eapply Hdisj.
Qed.

(** The list of fields with the entry of "type" filled in. *)
Lemma knownFields_roundTrip d this :
  Forall2 (λ keys p, keys = ["type"] ∨ Page.fieldRoundTrips d keys p)
          Page.wireKeys (Page.knownFields this) →
  Page.fieldRoundTrips d ["type"] (Page.typeAsProperty <$> Page.Type_ this) →
  Forall2 (Page.fieldRoundTrips d) Page.wireKeys (Page.knownFields this).
Proof.
  unfold Page.wireKeys, Page.knownFields. intros Hall Htype.
  repeat match goal with
         | Hc : Forall2 _ (_ :: _) (_ :: _) |- _ =>
             apply Forall2_cons_1 in Hc as [[?|?] Hc]; [try discriminate|]
         end.
  all: repeat (constructor; [assumption|]); constructor.
Qed.
(** X24.  Under an alias map that registers no alias, a
    document that deserializes, and on which the codecs of the known
    properties and of the values of "type" round-trip, serializes back to
    itself up to key order and the single-value rule: every key of the
    document is in the output with its value, and the output has no other
    key. *)
Theorem roundtrip_without_alias d aliasMap this :
  aliasOf aliasMap = "" →
  Page.DeserializeOrderedCollectionPage d aliasMap = Ok this →
  Page.codecsRoundTrip d this →
  ∃ out, Page.Serialize this = Ok out ∧ Page.sameDocument d out.
Proof.
  intros Ha Hd [Hfields Helems].
  destruct (Deserialize_Type_no_alias _ _ _ Ha Hd)
    as (typeValue & properties & Hv & Hp & Ht).
  pose proof (DeserializeOrderedCollectionPage_Ok_inv _ _ _ Hd) as [Hc Hprops].
  apply deserializeProperties_Ok_inv in Hprops.
  assert (Page.unknown this = Page.collectUnknown d) as Hu by apply Hprops.
  clear Hprops.
  destruct (checkType_shortcut _ _ _ Hc Hv) as [Hnil Hsame].
  assert (Page.fieldRoundTrips d ["type"] (Page.typeAsProperty <$> Page.Type_ this))
    as Htype.
  { rewrite Ht. simpl. split; [by apply list_elem_of_singleton|].
    split; [by intros k ->%list_elem_of_singleton|].
    eexists _, typeValue. split; [|by repeat split].
    eapply Serialize_deserialized; [by apply Helems | done]. }
  pose proof (knownFields_roundTrip _ _ Hfields Htype) as Hall.
  destruct (serializeFields_roundTrips _ _ _ Hall knownKeys_NoDup (Page.initialType this))
    as (known & Hk & Hout & Hin).
  exists (Page.serializeUnknown (Page.unknown this) known). split.
  { unfold Page.Serialize. by rewrite serializeKnown_fields, Hk. }
  intros k. rewrite serializeUnknown_lookup, Hu, collectUnknown_lookup.
  rewrite wireKeys_flat in Hout, Hin.
  assert (∀ k', k' ≠ "type" → Page.initialType this !! k' = None) as Hinit.
  { intros k' Hk'. unfold Page.initialType. by rewrite lookup_insert_ne. }
  case_bool_decide as Hkk.
  - destruct (Hin k Hkk) as [Hsk|[Heq Hdk]].
    + destruct (known !! k); [done|]. by destruct (d !! k).
    + destruct (decide (k = "type")) as [->|Hne]; [congruence|].
      by rewrite Heq, (Hinit k Hne), Hdk.
  - rewrite (Hout k Hkk), Hinit; [apply sameEntry_refl|].
    intros ->. apply Hkk. apply (bool_decide_unpack _). by vm_compute.
Qed.
End RoundTrip.

(** ** Runs on concrete documents *)

Section Runs.
Import Sample.

(** C5, run on five documents: no "type"; ["type": "Foo"];
    ["type": ["Note", "Article"]]; ["type": 5]; and, under the alias "as",
    ["type": ["Note", "as:OrderedCollectionPage"]]. *)
Lemma type_validation_witness :
  Page.DeserializeOrderedCollectionPage ∅ ∅ = Err ErrNoType
  ∧ Page.DeserializeOrderedCollectionPage {[ "type" := RString "Foo" ]} ∅
    = Err (ErrTypeNotOf "Foo")
  ∧ Page.DeserializeOrderedCollectionPage
      {[ "type" := RList [RString "Note"; RString "Article"] ]} ∅
    = Err ErrTypeNotFound
  ∧ Page.DeserializeOrderedCollectionPage {[ "type" := RNumber 5 ]} ∅
    = Err (ErrTypeUnrecognized (RNumber 5))
  ∧ Page.DeserializeOrderedCollectionPage
      {[ "type" := RList [RString "Note"; RString "as:OrderedCollectionPage"] ]}
      aliasAs
    = Page.deserializeProperties
        {[ "type" := RList [RString "Note"; RString "as:OrderedCollectionPage"] ]}
        aliasAs.
Proof.
  split; [|split; [|split; [|split]]].
  - by apply (DeserializeOrderedCollectionPage_type_validation ∅ ∅).
  - destruct (DeserializeOrderedCollectionPage_type_validation
                {[ "type" := RString "Foo" ]} ∅) as (_ & Hne & _).
    by apply (Hne "Foo").
  - destruct (DeserializeOrderedCollectionPage_type_validation
                {[ "type" := RList [RString "Note"; RString "Article"] ]} ∅)
      as (_ & _ & Hnone & _).
    apply (Hnone [RString "Note"; RString "Article"]); [reflexivity|].
    intros typeString Hin.
    repeat (apply elem_of_cons in Hin as [[= ->]|Hin]; [by vm_compute|]).
    by apply elem_of_nil in Hin.
  - destruct (DeserializeOrderedCollectionPage_type_validation
                {[ "type" := RNumber 5 ]} ∅) as (_ & _ & _ & Hother & _).
    by apply (Hother (RNumber 5)).
  - destruct (DeserializeOrderedCollectionPage_type_validation
                {[ "type" := RList [RString "Note"; RString "as:OrderedCollectionPage"] ]}
                aliasAs) as (_ & _ & _ & _ & _ & Hin).
    apply (Hin [RString "Note"; RString "as:OrderedCollectionPage"]
               "as:OrderedCollectionPage"); [reflexivity | | reflexivity].
    apply elem_of_cons. right. apply elem_of_cons. by left.
Defined.

(** C6, run on [richDoc]: the entry "ext" is in the bag and in the output
    with its value, the entry "name" is not in the bag, and the output
    keeps the value the property "name" emitted. *)
Lemma extension_bag_preserved_witness :
  Page.unknown richPage !! "ext" = Some (RMap {[ "a" := RNull ]})
  ∧ Page.unknown richPage !! "name" = None
  ∧ richOut !! "ext" = Some (RMap {[ "a" := RNull ]})
  ∧ richOut !! "name" = Some (RString "Page 1").
Proof.
  destruct (extension_bag_preserved richDoc ∅ richPage richOut)
    as (Hbag & Hknown & _ & known & Hk & Hext & Hkeep);
    [by vm_compute | by vm_compute |].
  assert (known = orElse (Page.serializeKnown richPage) ∅) as ->.
  { by rewrite Hk. }
  split; [|split; [|split]].
  - rewrite Hbag; [reflexivity|]. intros Hin.
    by apply (bool_decide_pack _) in Hin.
  - apply Hknown. apply (bool_decide_unpack _). by vm_compute.
  - apply Hext; by vm_compute.
  - apply Hkeep. by vm_compute.
Defined.

(** C7, run on the string "OrderedCollectionPage". *)
Lemma scalar_same_as_singleton_list_witness :
  TypeProp.DeserializeTypeProperty
    {[ "type" := RString "OrderedCollectionPage" ]} ∅
  = TypeProp.DeserializeTypeProperty
      {[ "type" := RList [RString "OrderedCollectionPage"] ]} ∅
  ∧ (∃ it, TypeProp.deserializeTypePropertyIterator
             (RString "OrderedCollectionPage") ∅ = Ok (Some it)
       ∧ TypeProp.DeserializeTypeProperty
           {[ "type" := RString "OrderedCollectionPage" ]} ∅
         = Ok (Some {| TypeProp.properties := TypeProp.setUp [it];
                       TypeProp.tp_alias := "" |}))
  ∧ TypeProp.Serialize (TypeProp.AppendString TypeProp.NewTypeProperty "Note")
    = SerializeString "Note".
Proof.
  destruct (scalar_same_as_singleton_list (RString "OrderedCollectionPage") ∅)
    as (Hsame & Hone & Hser); [reflexivity|].
  split; [exact Hsame|]. split; [by apply Hone|].
  by rewrite (Hser (TypeProp.AppendString TypeProp.NewTypeProperty "Note") _ eq_refl).
Defined.

(** C7 as stated fails when the value is itself a list: the empty list
    gives a property without elements, the list holding the empty list a
    property of one element. *)
Lemma list_value_not_same_as_wrapped :
  (TypeProp.Len <$> orElse (TypeProp.DeserializeTypeProperty
                              {[ "type" := RList [] ]} ∅) None) = Some 0
  ∧ (TypeProp.Len <$> orElse (TypeProp.DeserializeTypeProperty
                                {[ "type" := RList [RList []] ]} ∅) None) = Some 1
  ∧ TypeProp.DeserializeTypeProperty {[ "type" := RList [] ]} ∅
    ≠ TypeProp.DeserializeTypeProperty {[ "type" := RList [RList []] ]} ∅.
Proof. repeat split; by vm_compute. Qed.

(** C9, run on [{"followers": "https://example.org/followers"}], which
    commits as an IRI, on [{"followers": "followers"}], a string without
    scheme, and [{"followers": {"type": "Note"}}], which no entity kind
    parses, both of which commit as unknown, on the empty map, and on the
    element 7. *)
Lemma kind_dispatch_never_fails_witness :
  DeserializeFollowers {[ "followers" := RString "https://example.org/followers" ]} ∅
  = Ok (Some iriCell)
  ∧ Followers.IsIRI iriCell = true
  ∧ DeserializeFollowers {[ "followers" := RString "followers" ]} ∅
    = Ok (Some {| Followers.OrderedCollectionMember := None;
                  Followers.CollectionMember := None;
                  Followers.CollectionPageMember := None;
                  Followers.OrderedCollectionPageMember := None;
                  Followers.unknown := RString "followers";
                  Followers.iri := None; Followers.alias := "" |})
  ∧ DeserializeFollowers {[ "followers" := RMap {[ "type" := RString "Note" ]} ]} ∅
    = Ok (Some (Followers.fallbackCell "" (RMap {[ "type" := RString "Note" ]})))
  ∧ DeserializeFollowers ∅ ∅ = Ok None
  ∧ TypeProp.deserializeTypePropertyIterator (RNumber 7) ∅
    = Ok (Some (TypeProp.unknownIterator "" (RNumber 7)))
  ∧ asString (RNumber 7) = None.
Proof.
  destruct (kind_dispatch_never_fails
              (deserializeEntity "OrderedCollection") (deserializeEntity "Collection")
              (deserializeEntity "CollectionPage")
              (deserializeEntity "OrderedCollectionPage")
              {[ "followers" := RString "https://example.org/followers" ]} ∅ RNull)
    as (_ & _ & Hiri & _).
  destruct (kind_dispatch_never_fails
              (deserializeEntity "OrderedCollection") (deserializeEntity "Collection")
              (deserializeEntity "CollectionPage")
              (deserializeEntity "OrderedCollectionPage")
              {[ "followers" := RString "followers" ]} ∅ RNull)
    as (_ & _ & _ & Hnoscheme & _).
  destruct (kind_dispatch_never_fails
              (deserializeEntity "OrderedCollection") (deserializeEntity "Collection")
              (deserializeEntity "CollectionPage")
              (deserializeEntity "OrderedCollectionPage")
              {[ "followers" := RMap {[ "type" := RString "Note" ]} ]} ∅ (RNumber 7))
    as (_ & _ & _ & _ & Hfallback & _ & Hunknown).
  destruct (kind_dispatch_never_fails
              (deserializeEntity "OrderedCollection") (deserializeEntity "Collection")
              (deserializeEntity "CollectionPage")
              (deserializeEntity "OrderedCollectionPage")
              ∅ ∅ RNull) as (_ & Habsent & _).
  destruct Hunknown as [Hit Hnostring]; [reflexivity | reflexivity |].
  split; [|split; [|split; [|split; [|split; [|split]]]]].
  - apply (Hiri (RString "https://example.org/followers")
             "https://example.org/followers"
             ("https://example.org/followers" : @URL netURL));
      [reflexivity | reflexivity | reflexivity | by vm_compute].
  - reflexivity.
  - apply (Hnoscheme (RString "followers")); [reflexivity | by intros m' [=] |].
    intros s u [= <-] [= <-]. reflexivity.
  - apply (Hfallback (RMap {[ "type" := RString "Note" ]})); [reflexivity|].
    intros m' [= <-]. repeat split; reflexivity.
  - apply Habsent. reflexivity.
  - exact Hit.
  - apply Hnostring. intros s. reflexivity.
Defined.

(** C8, evaluated.  Under the alias "as" the document with prefixed keys
    is refused for want of a "type" entry, although the deserializer of
    the "type" property finds its one value under "as:type"; the document
    with bare keys is accepted without alias; and when only the key "type"
    is left bare, the prefixed key "as:name" is both read as the property
    "name" and stored in the extension bag, which is empty for the bare
    document, and the "type" property is not set. *)
Theorem prefixed_document_differs :
  Page.DeserializeOrderedCollectionPage prefixedDoc aliasAs = Err ErrNoType
  ∧ (TypeProp.Len <$> orElse (TypeProp.DeserializeTypeProperty prefixedDoc aliasAs)
                             None) = Some 1
  ∧ isOk (Page.DeserializeOrderedCollectionPage unprefixedDoc ∅) = true
  ∧ (Page.unknown <$> Page.DeserializeOrderedCollectionPage unprefixedDoc ∅)
    = Ok ∅
  ∧ (Page.unknown <$> Page.DeserializeOrderedCollectionPage halfPrefixedDoc aliasAs)
    = Ok {[ "as:name" := RString "Page 1" ]}
  ∧ (Page.Name <$> Page.DeserializeOrderedCollectionPage halfPrefixedDoc aliasAs)
    = Ok (Some {| Page.prop_Name := "name";
                  Page.prop_Serialize := Ok (RString "Page 1") |})
  ∧ (Page.Type_ <$> Page.DeserializeOrderedCollectionPage halfPrefixedDoc aliasAs)
    = Ok None.
Proof. repeat split; by vm_compute. Qed.

(** X25, run on [richDoc], whose "type" is a list of one string: the
    output carries the string the "type" property serializes to. *)
Lemma Serialize_type_from_Type_property_witness :
  richOut !! "type" = Some (RString "OrderedCollectionPage")
  ∧ Page.Serialize Page.NewOrderedCollectionPage
    = Ok {[ "type" := RString "OrderedCollectionPage" ]}.
Proof.
  destruct Serialize_type_from_Type_property as (_ & Hnew & Hdeserialized).
  split.
  - destruct (Hdeserialized richDoc ∅ richPage richOut)
      as (tp & i & Htp & Hi & Hout); [reflexivity | by vm_compute | by vm_compute |].
    injection Htp as <-. vm_compute in Hi. injection Hi as <-.
    apply Hout; [reflexivity|]. by intros p [[=]|[=]].
  - by apply Hnew.
Defined.

(** C10, evaluated.  Under the alias "as" the entity deserialized from
    [{"type": "OrderedCollectionPage"}] has no "type" property: the entity
    finds the type under the bare key, the "type" property looks under
    "as:type".  The emitted value is then the fixed type name behind the
    prefix, and of [{"type": ["Object", "OrderedCollectionPage"]}] the
    stored list is lost in the same way. *)
Lemma Serialize_type_from_fixed_name :
  (Page.Type_ <$> Page.DeserializeOrderedCollectionPage bareDoc aliasAs) = Ok None
  ∧ (Page.DeserializeOrderedCollectionPage bareDoc aliasAs ≫= Page.Serialize)
    = Ok {[ "type" := RString "as:OrderedCollectionPage" ]}
  ∧ (Page.DeserializeOrderedCollectionPage
       {[ "type" := RList [RString "Object"; RString "OrderedCollectionPage"] ]}
       aliasAs ≫= Page.Serialize)
    = Ok {[ "type" := RString "as:OrderedCollectionPage" ]}.
Proof. repeat split; by vm_compute. Qed.
End Runs.

Section RoundTripRuns.
Import Sample.

(** Decide one conjunct of [codecsRoundTrip] on a concrete document. *)
Ltac absent_keys :=
  let k := fresh "k" in
  let Hk := fresh "Hk" in
  intros k Hk;
  repeat (apply elem_of_cons in Hk as [->|Hk]; [by vm_compute|]);
  by apply elem_of_nil in Hk.

Ltac field_round_trips :=
  lazymatch goal with
  | |- Page.fieldRoundTrips ?d ?keys ?p =>
      let p' := eval vm_compute in p in
      change (Page.fieldRoundTrips d keys p'); simpl;
      first
        [ absent_keys
        | split; [by apply (bool_decide_unpack _); vm_compute|];
          split;
          [ let k := fresh "k" in
            let Hk := fresh "Hk" in
            let Hne := fresh "Hne" in
            intros k Hk Hne;
            repeat (apply elem_of_cons in Hk as [->|Hk];
                    [first [done | by vm_compute]|]);
            by apply elem_of_nil in Hk
          | eexists _, _; split; [reflexivity|];
            split; [reflexivity|]; split; [by vm_compute | by left] ] ]
  end.

Ltac fields_round_trip :=
  unfold Page.wireKeys, Page.knownFields;
  repeat (constructor 2; [first [by left | right; field_round_trips]|]);
  constructor 1.

Lemma richDoc_codecs : Page.codecsRoundTrip richDoc richPage.
Proof.
  split; [fields_round_trip|].
  intros typeValue Hv. vm_compute in Hv. injection Hv as <-.
  repeat constructor.
Qed.

Lemma bareDoc_codecs : Page.codecsRoundTrip bareDoc aliasedPage.
Proof.
  split; [fields_round_trip|].
  intros typeValue Hv. vm_compute in Hv. injection Hv as <-.
  repeat constructor.
Qed.

(** X24, run on [richDoc] without alias. *)
Lemma roundtrip_without_alias_witness :
  ∃ out, Page.Serialize richPage = Ok out ∧ Page.sameDocument richDoc out.
Proof.
  apply (roundtrip_without_alias richDoc ∅ richPage);
    [reflexivity | by vm_compute | exact richDoc_codecs].
Defined.

(** C1, evaluated.  Under the alias "as" the document
    [{"type": "OrderedCollectionPage"}] deserializes, the codecs round-trip
    on it, and it serializes to [{"type": "as:OrderedCollectionPage"}],
    another value; and the document with prefixed keys,
    [{"as:type": "as:OrderedCollectionPage", "as:name": "Page 1"}], does
    not deserialize at all, so it has no round trip either. *)
Lemma roundtrip_fails_under_alias :
  Page.DeserializeOrderedCollectionPage bareDoc aliasAs = Ok aliasedPage
  ∧ Page.codecsRoundTrip bareDoc aliasedPage
  ∧ Page.Serialize aliasedPage = Ok {[ "type" := RString "as:OrderedCollectionPage" ]}
  ∧ ¬ Page.sameDocument bareDoc {[ "type" := RString "as:OrderedCollectionPage" ]}
  ∧ Page.DeserializeOrderedCollectionPage prefixedDoc aliasAs = Err ErrNoType.
Proof.
  split; [by vm_compute|]. split; [exact bareDoc_codecs|].
  split; [by vm_compute|]. split; [|by vm_compute].
  intros Hsame. specialize (Hsame "type"). vm_compute in Hsame.
  by destruct Hsame as [?|[?|?]].
Qed.
End RoundTripRuns.

(** * Further properties of the code *)

(** ** The "type" property as a list *)

Lemma is_set_Some {A : Type} (x : A) `{!Decision (Some x ≠ None)} :
  bool_decide (Some x ≠ None) = true.
Proof. by apply bool_decide_eq_true_2. Qed.

Lemma is_set_None {A : Type} `{!Decision (@None A ≠ None)} :
  bool_decide (@None A ≠ None) = false.
Proof. apply bool_decide_eq_false_2. intros Hn. by apply Hn. Qed.

Section TypeListFacts.
Context `{Values}.
Implicit Types this o owner : TypeProp.TypeProperty.
Implicit Types ele it : TypeProp.TypePropertyIterator.
Implicit Types m : gmap string raw.
Implicit Types aliasMap : gmap string string.

Lemma At_of_nat this (n : nat) :
  TypeList.At this (Z.of_nat n) = TypeProp.properties this !! n.
Proof.
  unfold TypeList.At. destruct (Z.ltb_spec (Z.of_nat n) 0); [lia|].
  by rewrite Nat2Z.id.
Qed.

Lemma At_Some_bounds this idx it :
  TypeList.At this idx = Some it → 0 ≤ idx < TypeProp.Len this.
Proof.
  unfold TypeList.At, TypeProp.Len.
  destruct (Z.ltb_spec idx 0); [done|].
  intros Hl%lookup_lt_Some. lia.
Qed.

Lemma At_None_bounds this idx :
  TypeList.At this idx = None ↔ idx < 0 ∨ TypeProp.Len this ≤ idx.
Proof.
  unfold TypeList.At, TypeProp.Len.
  destruct (Z.ltb_spec idx 0); [by intuition|].
  rewrite lookup_ge_None. lia.
Qed.

Lemma inBounds_spec this idx :
  TypeList.inBounds this idx = true ↔ 0 ≤ idx < TypeProp.Len this.
Proof. unfold TypeList.inBounds. rewrite andb_true_iff. lia. Qed.

Lemma reindexFrom_lookup (from : Z) (eles : list TypeProp.TypePropertyIterator)
    (k : nat) :
  TypeList.reindexFrom from eles !! k
  = TypeList.setMyIdx (from + Z.of_nat k) <$> eles !! k.
Proof. unfold TypeList.reindexFrom. by rewrite list_lookup_imap. Qed.

Lemma reindexFrom_length (from : Z) (eles : list TypeProp.TypePropertyIterator) :
  length (TypeList.reindexFrom from eles) = length eles.
Proof. unfold TypeList.reindexFrom. apply length_imap. Qed.

(** Giving a well-indexed element the index it has changes nothing. *)
Lemma setMyIdx_same it : TypeList.setMyIdx (TypeProp.myIdx it) it = it.
Proof. by destruct it. Qed.

Lemma setUp_lookup (properties : list TypeProp.TypePropertyIterator) (n : nat) it :
  TypeProp.setUp properties !! n = Some it →
  TypeProp.myIdx it = Z.of_nat n ∧ TypeProp.parent it = true.
Proof.
  unfold TypeProp.setUp. rewrite list_lookup_imap.
  destruct (properties !! n); simpl; [|done]. by intros [= <-].
Qed.

Lemma wellIndexed_app this it :
  TypeList.wellIndexed this →
  TypeProp.myIdx it = TypeProp.Len this → TypeProp.parent it = true →
  TypeList.wellIndexed
    {| TypeProp.properties := TypeProp.properties this ++ [it];
       TypeProp.tp_alias := TypeProp.tp_alias this |}.
Proof.
  intros Hw Hidx Hpar n it'. simpl.
  destruct (decide (n < length (TypeProp.properties this))%nat) as [Hlt|Hge].
  - rewrite lookup_app_l by done. apply Hw.
  - rewrite lookup_app_r by lia.
    destruct (n - length (TypeProp.properties this))%nat as [|k] eqn:Hk;
      simpl; [|done].
    intros [= <-]. split; [|done]. rewrite Hidx. unfold TypeProp.Len. lia.
Qed.

Lemma wellIndexed_cons this it :
  TypeList.wellIndexed this →
  TypeProp.myIdx it = 0 → TypeProp.parent it = true →
  TypeList.wellIndexed
    {| TypeProp.properties := it :: TypeList.reindexFrom 1 (TypeProp.properties this);
       TypeProp.tp_alias := TypeProp.tp_alias this |}.
Proof.
  intros Hw Hidx Hpar [|n] it'; simpl.
  - by intros [= <-].
  - rewrite reindexFrom_lookup.
    destruct (TypeProp.properties this !! n) as [ele|] eqn:Hele; simpl; [|done].
    intros [= <-]. simpl. split; [lia|]. by apply (Hw n).
Qed.

Lemma wellIndexed_insert this idx it :
  TypeList.wellIndexed this →
  0 ≤ idx → TypeProp.myIdx it = idx → TypeProp.parent it = true →
  TypeList.wellIndexed
    {| TypeProp.properties := <[Z.to_nat idx := it]> (TypeProp.properties this);
       TypeProp.tp_alias := TypeProp.tp_alias this |}.
Proof.
  intros Hw Hpos Hidx Hpar n it'. simpl.
  destruct (decide (Z.to_nat idx = n)) as [<-|Hne].
  - intros Hl. pose proof (lookup_lt_Some _ _ _ Hl) as Hlt.
    rewrite length_insert in Hlt.
    rewrite list_lookup_insert_eq in Hl by done. injection Hl as <-.
    split; [lia | done].
  - rewrite list_lookup_insert_ne by done. apply Hw.
Qed.

Lemma wellIndexed_Remove this idx this' :
  TypeList.wellIndexed this → TypeList.Remove this idx = Some this' →
  TypeList.wellIndexed this'.
Proof.
  unfold TypeList.Remove. intros Hw.
  destruct (TypeList.inBounds this idx) eqn:Hb; [|done].
  apply inBounds_spec in Hb. unfold TypeProp.Len in Hb.
  intros [= <-] n it. simpl.
  destruct (decide (n < Z.to_nat idx)%nat) as [Hlt|Hge].
  - rewrite lookup_app_l by (rewrite length_take; lia).
    rewrite lookup_take_lt by done. apply Hw.
  - rewrite lookup_app_r by (rewrite length_take; lia).
    rewrite length_take, reindexFrom_lookup, lookup_drop.
    destruct (TypeProp.properties this !! _) as [ele|] eqn:Hele; simpl; [|done].
    intros [= <-]. simpl. split; [lia|]. by eapply Hw.
Qed.

(** X1.  Every iterator of a property records its own position and points
    back to its owner: this holds for a new property and for a
    deserialized one, and appending, prepending, overwriting in place and
    removing keep it. *)
Theorem wellIndexed_kept this :
  TypeList.wellIndexed TypeProp.NewTypeProperty
  ∧ (∀ m aliasMap p,
       TypeProp.DeserializeTypeProperty m aliasMap = Ok (Some p) →
       TypeList.wellIndexed p)
  ∧ (TypeList.wellIndexed this →
     (∀ v, TypeList.wellIndexed (TypeProp.AppendAnyURI this v))
     ∧ (∀ v, TypeList.wellIndexed (TypeProp.AppendIRI this v))
     ∧ (∀ v, TypeList.wellIndexed (TypeProp.AppendString this v))
     ∧ (∀ v, TypeList.wellIndexed (TypeList.PrependAnyURI this v))
     ∧ (∀ v, TypeList.wellIndexed (TypeList.PrependIRI this v))
     ∧ (∀ v, TypeList.wellIndexed (TypeList.PrependString this v))
     ∧ (∀ idx v this', TypeList.SetAnyURI this idx v = Some this' →
                       TypeList.wellIndexed this')
     ∧ (∀ idx v this', TypeList.SetIRI this idx v = Some this' →
                       TypeList.wellIndexed this')
     ∧ (∀ idx v this', TypeList.SetString this idx v = Some this' →
                       TypeList.wellIndexed this')
     ∧ (∀ idx this', TypeList.Remove this idx = Some this' →
                     TypeList.wellIndexed this')).
Proof.
  split; [by intros n it|]. split.
  { intros m aliasMap p. unfold TypeProp.DeserializeTypeProperty. cbv zeta.
    destruct (m !! _) as [i|]; [|done].
    intros Hd. apply bind_Ok_inv in Hd as (properties & _ & [= <-]).
    intros n it. apply setUp_lookup. }
  intros Hw.
  do 3 (split; [intros v; by refine (wellIndexed_app this _ Hw _ _)|]).
  do 3 (split; [intros v; by refine (wellIndexed_cons this _ Hw _ _)|]).
  split; [|split; [|split]].
  - intros idx v this'. unfold TypeList.SetAnyURI.
    destruct (TypeList.inBounds this idx) eqn:Hb; [|done].
    apply inBounds_spec in Hb. intros [= <-].
    apply wellIndexed_insert; [done | lia | done | done].
  - intros idx v this'. unfold TypeList.SetIRI.
    destruct (TypeList.inBounds this idx) eqn:Hb; [|done].
    apply inBounds_spec in Hb. intros [= <-].
    apply wellIndexed_insert; [done | lia | done | done].
  - intros idx v this'. unfold TypeList.SetString.
    destruct (TypeList.inBounds this idx) eqn:Hb; [|done].
    apply inBounds_spec in Hb. intros [= <-].
    apply wellIndexed_insert; [done | lia | done | done].
  - intros idx this'. by apply wellIndexed_Remove.
Qed.
(** X2.  [Remove] panics exactly on an index out of bounds.  Otherwise the
    property is one shorter, the elements before the index stay where they
    are, and each element behind it moves one position down and reports
    its new position. *)
Theorem Remove_shifts this idx :
  (TypeList.Remove this idx = None ↔ idx < 0 ∨ TypeProp.Len this ≤ idx)
  ∧ ∀ this', TypeList.Remove this idx = Some this' →
      TypeProp.Len this' = TypeProp.Len this - 1
      ∧ (∀ k, 0 ≤ k < idx → TypeList.At this' k = TypeList.At this k)
      ∧ (∀ k, idx ≤ k →
           TypeList.At this' k = TypeList.setMyIdx k <$> TypeList.At this (k + 1)).
Proof.
  unfold TypeList.Remove.
  destruct (TypeList.inBounds this idx) eqn:Hb.
  - apply inBounds_spec in Hb. split; [split; [done | lia]|].
    intros this' [= <-]. unfold TypeProp.Len in *. simpl.
    split; [|split].
    + rewrite length_app, length_take, reindexFrom_length, length_drop. lia.
    + intros k Hk. unfold TypeList.At. simpl.
      destruct (Z.ltb_spec k 0); [lia|].
      rewrite lookup_app_l by (rewrite length_take; lia).
      apply lookup_take_lt. lia.
    + intros k Hk. unfold TypeList.At. simpl.
      destruct (Z.ltb_spec k 0); [lia|]. destruct (Z.ltb_spec (k + 1) 0); [lia|].
      rewrite lookup_app_r by (rewrite length_take; lia).
      rewrite length_take, reindexFrom_lookup, lookup_drop.
      replace (idx + Z.of_nat (Z.to_nat k - Z.to_nat idx `min` length (TypeProp.properties this)))
        with k by lia.
      f_equal. f_equal. lia.
  - split; [|done]. split; [|done]. intros _.
    apply not_true_iff_false in Hb. rewrite inBounds_spec in Hb. lia.
Qed.

(** X3.  [Begin] is the first element of a property, and the [nil]
    iterator when the property is empty.  In a well-indexed property
    [Next] of the element at a position is the element at the next
    position, or the [nil] iterator behind the last one, and [Prev] is
    the element at the position before, or the [nil] iterator before the
    first one; neither panics. *)
Theorem Next_Prev_follow_positions owner (n : nat) it :
  TypeList.Begin owner = TypeProp.properties owner !! 0%nat
  ∧ (TypeList.Empty owner = true ↔ TypeProp.properties owner = [])
  ∧ (TypeList.Empty owner = true → TypeList.Begin owner = None)
  ∧ (TypeList.wellIndexed owner →
     TypeProp.properties owner !! n = Some it →
     TypeList.Next owner it = Some (TypeProp.properties owner !! S n)
     ∧ TypeList.Prev owner it
       = Some (match n with
               | O => None
               | S k => TypeProp.properties owner !! k
               end)).
Proof.
  split; [|split; [|split]].
  - unfold TypeList.Begin, TypeList.Empty, TypeProp.Len.
    destruct (TypeProp.properties owner) as [|x l] eqn:Hl; [done|].
    simpl length. destruct (Z.eqb_spec (Z.of_nat (S (length l))) 0); [lia|].
    unfold TypeList.At. simpl. by rewrite Hl.
  - unfold TypeList.Empty, TypeProp.Len.
    destruct (TypeProp.properties owner) as [|x l]; [done|].
    simpl length. split; [|done].
    destruct (Z.eqb_spec (Z.of_nat (S (length l))) 0); [lia | done].
  - unfold TypeList.Begin. by intros ->.
  - intros Hw Hit. destruct (Hw n it Hit) as [Hidx Hpar].
    pose proof (lookup_lt_Some _ _ _ Hit) as Hlt. split.
    + unfold TypeList.Next, TypeProp.Len. rewrite Hpar, Hidx.
      destruct (Z.geb_spec (Z.of_nat n + 1)
                  (Z.of_nat (length (TypeProp.properties owner)))).
      * by rewrite (lookup_ge_None_2 _ (S n)) by lia.
      * replace (Z.of_nat n + 1) with (Z.of_nat (S n)) by lia.
        rewrite At_of_nat.
        destruct (lookup_lt_is_Some_2 (TypeProp.properties owner) (S n)) as [x Hx];
          [lia|]. by rewrite Hx.
    + unfold TypeList.Prev. rewrite Hpar, Hidx. destruct n as [|k]; [done|].
      destruct (Z.ltb_spec (Z.of_nat (S k) - 1) 0); [lia|].
      replace (Z.of_nat (S k) - 1) with (Z.of_nat k) by lia.
      rewrite At_of_nat.
      destruct (lookup_lt_is_Some_2 (TypeProp.properties owner) k) as [x Hx];
        [lia|]. by rewrite Hx.
Qed.

(** X4.  [Swap] panics exactly when one of the two indices is out of
    bounds.  Otherwise it exchanges the two elements and nothing else, and
    swapping again gives the property back; but the elements keep their
    [myIdx], so after a swap of two different positions of a well-indexed
    property the element at the first position reports the second. *)
Theorem Swap_exchanges this i j :
  (TypeList.Swap this i j = None
   ↔ ¬ (0 ≤ i < TypeProp.Len this ∧ 0 ≤ j < TypeProp.Len this))
  ∧ ∀ this', TypeList.Swap this i j = Some this' →
      TypeProp.Len this' = TypeProp.Len this
      ∧ TypeList.At this' i = TypeList.At this j
      ∧ TypeList.At this' j = TypeList.At this i
      ∧ (∀ k, k ≠ i → k ≠ j → TypeList.At this' k = TypeList.At this k)
      ∧ TypeList.Swap this' i j = Some this
      ∧ (TypeList.wellIndexed this → i ≠ j →
         ∃ it, TypeList.At this' i = Some it ∧ TypeProp.myIdx it = j
               ∧ ¬ TypeList.wellIndexed this').
Proof.
  unfold TypeList.Swap.
  destruct (TypeList.At this i) as [pi|] eqn:Hi; cycle 1.
  { split; [|done]. split; [|done]. intros _ [Hbi _].
    apply At_None_bounds in Hi. lia. }
  destruct (TypeList.At this j) as [pj|] eqn:Hj; cycle 1.
  { split; [|done]. split; [|done]. intros _ [_ Hbj].
    apply At_None_bounds in Hj. lia. }
  pose proof (At_Some_bounds _ _ _ Hi) as Hbi.
  pose proof (At_Some_bounds _ _ _ Hj) as Hbj.
  split; [split; [done | intros []; done]|].
  intros this' [= <-]. unfold TypeProp.Len in *.
  assert (TypeProp.properties this !! Z.to_nat i = Some pi) as Hi'.
  { rewrite <- Hi. unfold TypeList.At. destruct (Z.ltb_spec i 0); [lia | done]. }
  assert (TypeProp.properties this !! Z.to_nat j = Some pj) as Hj'.
  { rewrite <- Hj. unfold TypeList.At. destruct (Z.ltb_spec j 0); [lia | done]. }
  assert (∀ k, 0 ≤ k →
            TypeList.At {| TypeProp.properties :=
                             <[Z.to_nat j := pi]>
                               (<[Z.to_nat i := pj]> (TypeProp.properties this));
                           TypeProp.tp_alias := TypeProp.tp_alias this |} k
            = if decide (k = j) then Some pi
              else if decide (k = i) then Some pj
              else TypeList.At this k) as Hat.
  { intros k Hk. unfold TypeList.At. simpl.
    destruct (Z.ltb_spec k 0); [lia|].
    destruct (decide (k = j)) as [->|Hkj].
    - apply list_lookup_insert_eq. rewrite length_insert. lia.
    - rewrite list_lookup_insert_ne by lia.
      destruct (decide (k = i)) as [->|Hki].
      + apply list_lookup_insert_eq. lia.
      + by rewrite list_lookup_insert_ne by lia. }
  simpl. split; [by rewrite !length_insert|].
  split. { rewrite Hat by lia. case_decide; [subst; congruence | by rewrite decide_True]. }
  split. { rewrite Hat by lia. by rewrite decide_True. }
  split.
  { intros k Hki Hkj. destruct (Z.ltb_spec k 0) as [Hneg|Hpos].
    - unfold TypeList.At. by destruct (Z.ltb_spec k 0); [|lia].
    - rewrite Hat by done. by rewrite !decide_False. }
  split.
  { rewrite !Hat by lia. rewrite (decide_True (P := j = j)) by done.
    destruct (decide (i = j)) as [->|Hne].
    - f_equal. destruct this as [ps a]. simpl in *. f_equal.
      rewrite Hi' in Hj'. injection Hj' as ->.
      rewrite !list_insert_insert_eq. by apply list_insert_id.
    - rewrite (decide_True (P := i = i)) by done.
      f_equal. destruct this as [ps a]. simpl in *. f_equal.
      rewrite (list_insert_insert_ne _ (Z.to_nat i) (Z.to_nat j)) by lia.
      rewrite !list_insert_insert_eq.
      rewrite (list_insert_id _ _ _ Hi').
      by apply list_insert_id. }
  intros Hw Hne. exists pj.
  split. { rewrite Hat by lia. by rewrite decide_False, decide_True. }
  destruct (Hw _ _ Hj') as [Hidx _].
  split; [lia|].
  intros Hw'. specialize (Hw' (Z.to_nat i) pj). simpl in Hw'.
  rewrite list_lookup_insert_ne, list_lookup_insert_eq in Hw' by lia.
  destruct (Hw' eq_refl) as [Hidx' _]. lia.
Qed.
(** X5.  [Less(i, j)] panics exactly when one of the indices is out of
    bounds, and otherwise is [LessThan] of the element at [i] against the
    element at [j]: the two comparisons of the package agree. *)
Theorem Less_is_LessThan this i j :
  (TypeList.Less this i j = None
   ↔ ¬ (0 ≤ i < TypeProp.Len this ∧ 0 ≤ j < TypeProp.Len this))
  ∧ ∀ pi pj, TypeList.At this i = Some pi → TypeList.At this j = Some pj →
      TypeList.Less this i j = Some (TypeProp.LessThan pi pj).
Proof.
  assert (∀ pi pj, TypeList.At this i = Some pi → TypeList.At this j = Some pj →
            TypeList.Less this i j = Some (TypeProp.LessThan pi pj)) as Hagree.
  { intros pi pj Hi Hj. unfold TypeList.Less. rewrite Hi, Hj.
    unfold TypeProp.LessThan, TypeProp.KindIndex, TypeProp.IsAnyURI,
      TypeProp.IsIRI, TypeProp.IsString, TypeProp.GetAnyURI, TypeProp.GetIRI.
    destruct pi as [[ui|] si [] ? ? ? ?], pj as [[uj|] sj [] ? ? ? ?]; reflexivity. }
  split; [|done].
  destruct (TypeList.At this i) as [pi|] eqn:Hi; cycle 1.
  { unfold TypeList.Less. rewrite Hi. split; [|done]. intros _ [Hbi _].
    apply At_None_bounds in Hi. lia. }
  destruct (TypeList.At this j) as [pj|] eqn:Hj; cycle 1.
  { unfold TypeList.Less. rewrite Hi, Hj. split; [|done]. intros _ [_ Hbj].
    apply At_None_bounds in Hj. lia. }
  rewrite (Hagree pi pj eq_refl eq_refl).
  pose proof (At_Some_bounds _ _ _ Hi). pose proof (At_Some_bounds _ _ _ Hj).
  split; [done | intros []; done].
Qed.

Lemma iterator_LessThan_irrefl it :
  (∀ u, LessAnyURI u u = false) → (∀ s, LessString s s = false) →
  TypeProp.LessThan it it = false.
Proof.
  intros Hu Hs. unfold TypeProp.LessThan. cbv zeta.
  rewrite Z.ltb_irrefl.
  destruct (Z.gtb_spec (TypeProp.KindIndex it) (TypeProp.KindIndex it)); [lia|].
  unfold TypeProp.IsAnyURI, TypeProp.GetAnyURI.
  destruct (TypeProp.anyURIMember it); simpl; [apply Hu|].
  destruct (TypeProp.IsString it); [apply Hs | done].
Qed.

Lemma lessThanLoop_irrefl (l rest : list TypeProp.TypePropertyIterator) :
  (∀ u, LessAnyURI u u = false) → (∀ s, LessString s s = false) →
  TypeList.lessThanLoop l (l ++ rest) = None
  ∧ TypeList.lessThanLoop (l ++ rest) l = None.
Proof.
  intros Hu Hs. induction l as [|x l IH]; simpl.
  - by destruct rest.
  - by rewrite iterator_LessThan_irrefl.
Qed.

(** X6.  When the comparisons of the two value kinds never put a value
    below itself, a property is not below itself, and a property whose
    elements are the first elements of a longer one is below the longer
    one, which is not below it. *)
Theorem LessThan_prefix this o (rest : list TypeProp.TypePropertyIterator) :
  (∀ u, LessAnyURI u u = false) → (∀ s, LessString s s = false) →
  TypeProp.properties o = (TypeProp.properties this ++ rest)%list →
  TypeList.LessThan this this = false
  ∧ (rest ≠ [] →
     TypeList.LessThan this o = true ∧ TypeList.LessThan o this = false).
Proof.
  intros Hu Hs Ho. unfold TypeList.LessThan, TypeProp.Len. rewrite Ho.
  destruct (lessThanLoop_irrefl (TypeProp.properties this) rest Hu Hs) as [H1 H2].
  destruct (lessThanLoop_irrefl (TypeProp.properties this) [] Hu Hs) as [H3 _].
  rewrite app_nil_r in H3. rewrite H1, H2, H3, length_app. split.
  - apply Z.ltb_irrefl.
  - intros Hne. destruct rest; [done|]. simpl. split.
    + apply Z.ltb_lt. lia.
    + apply Z.ltb_ge. lia.
Qed.

(** X7.  [SetString] panics exactly on an index out of bounds.  Otherwise
    the property keeps its length, the element at the index is a string
    iterator holding the value, which records the index and serializes to
    what the string serializer gives, and the other elements stay. *)
Theorem SetString_overwrites this idx v :
  (TypeList.SetString this idx v = None ↔ idx < 0 ∨ TypeProp.Len this ≤ idx)
  ∧ ∀ this', TypeList.SetString this idx v = Some this' →
      TypeProp.Len this' = TypeProp.Len this
      ∧ (∃ it, TypeList.At this' idx = Some it
           ∧ TypeProp.IsString it = true ∧ TypeProp.IsAnyURI it = false
           ∧ TypeProp.GetString it = v ∧ TypeProp.myIdx it = idx
           ∧ TypeProp.serialize it = SerializeString v)
      ∧ (∀ k, k ≠ idx → TypeList.At this' k = TypeList.At this k).
Proof.
  unfold TypeList.SetString.
  destruct (TypeList.inBounds this idx) eqn:Hb.
  - apply inBounds_spec in Hb. split; [split; [done | lia]|].
    intros this' [= <-]. unfold TypeProp.Len in *. simpl.
    split; [by rewrite length_insert|]. split.
    + eexists. split.
      * unfold TypeList.At. simpl. destruct (Z.ltb_spec idx 0); [lia|].
        apply list_lookup_insert_eq. lia.
      * split; [done|]. split; [|done].
        apply bool_decide_eq_false. intros Hn. by apply Hn.
    + intros k Hk. unfold TypeList.At. simpl.
      destruct (Z.ltb_spec k 0); [done|].
      apply list_lookup_insert_ne. lia.
  - split; [|done]. split; [|done]. intros _.
    apply not_true_iff_false in Hb. rewrite inBounds_spec in Hb. lia.
Qed.
Lemma deserializeElements_each (wireList : list raw) aliasMap acc :
  ∃ its, TypeProp.deserializeElements wireList aliasMap acc = Ok (acc ++ its)%list
    ∧ Forall2 (λ it x, TypeProp.deserializeTypePropertyIterator x aliasMap
                       = Ok (Some it)) its wireList.
Proof.
  revert acc. induction wireList as [|x wireList IH]; intros acc; simpl.
  - exists []. by rewrite app_nil_r.
  - destruct (deserializeTypePropertyIterator_total x aliasMap) as [it Hit].
    rewrite Hit. simpl. destruct (IH (acc ++ [it])%list) as (its & -> & Hits).
    exists (it :: its). split; [by rewrite <- app_assoc|]. by constructor.
Qed.

(** X8.  [DeserializeTypeProperty] never returns an error.  Without the
    "type" key (under the alias prefix, if one is registered) it returns
    no property; with it, the property has the registered alias and holds,
    in the order of the wire value, one iterator for each element of a
    list value, or a single iterator for a value that is not a list, each
    given its position and its owner. *)
Theorem DeserializeTypeProperty_one_per_element m aliasMap :
  match m !! propNameFor (aliasOf aliasMap) "type" with
  | None => TypeProp.DeserializeTypeProperty m aliasMap = Ok None
  | Some x =>
      ∃ its,
        TypeProp.DeserializeTypeProperty m aliasMap
        = Ok (Some {| TypeProp.properties := TypeProp.setUp its;
                      TypeProp.tp_alias := aliasOf aliasMap |})
        ∧ Forall2 (λ it w, TypeProp.deserializeTypePropertyIterator w aliasMap
                           = Ok (Some it))
            its (match asList x with Some wireList => wireList | None => [x] end)
  end.
Proof.
  destruct (m !! propNameFor (aliasOf aliasMap) "type") as [x|] eqn:Hx.
  - rewrite (DeserializeTypeProperty_lookup _ _ _ Hx).
    destruct (deserializeElements_each
                (match asList x with Some wireList => wireList | None => [x] end)
                aliasMap []) as (its & -> & Hits).
    by exists its.
  - unfold TypeProp.DeserializeTypeProperty. cbv zeta. by rewrite Hx.
Qed.

Lemma mergeContext_singleton (k v : string) (ctx : gmap string string) :
  mergeContext {[ k := v ]} ctx = <[k := v]> ctx.
Proof. unfold mergeContext. by rewrite map_fold_singleton. Qed.

Lemma JSONLDContext_fold (its : list TypeProp.TypePropertyIterator) (a : string) :
  foldl (λ (ctx : gmap string string) elem,
           mergeContext (TypeList.iteratorJSONLDContext elem) ctx)
        {[ asNamespace := a ]} its
  = {[ asNamespace := default a (TypeProp.alias <$> last its) ]}.
Proof.
  revert a. induction its as [|it its IH]; intros a; [done|]. simpl.
  unfold TypeList.iteratorJSONLDContext at 2.
  rewrite mergeContext_singleton, insert_singleton_eq, IH.
  f_equal. rewrite last_cons. by destruct (last its).
Qed.

(** X9.  The context of a "type" property has the one entry for the
    ActivityStreams namespace.  Its alias is the alias of the last element
    (each element overwrites the entry), and the alias of the property
    when it has no element; for a property that was deserialized it is the
    alias registered in the alias map. *)
Theorem JSONLDContext_one_namespace this :
  TypeList.JSONLDContext this
  = {[ asNamespace :=
         default (TypeProp.tp_alias this)
                 (TypeProp.alias <$> last (TypeProp.properties this)) ]}
  ∧ ∀ m aliasMap,
      TypeProp.DeserializeTypeProperty m aliasMap = Ok (Some this) →
      TypeList.JSONLDContext this = {[ asNamespace := aliasOf aliasMap ]}.
Proof.
  split; [apply JSONLDContext_fold|].
  intros m aliasMap Hd. unfold TypeList.JSONLDContext. rewrite JSONLDContext_fold.
  destruct (m !! propNameFor (aliasOf aliasMap) "type") as [x|] eqn:Hx; cycle 1.
  { unfold TypeProp.DeserializeTypeProperty in Hd. cbv zeta in Hd.
    by rewrite Hx in Hd. }
  rewrite (DeserializeTypeProperty_lookup _ _ _ Hx) in Hd.
  destruct (deserializeElements_each
              (match asList x with Some wireList => wireList | None => [x] end)
              aliasMap []) as (its & Hits & Hall).
  rewrite Hits in Hd. injection Hd as <-.
  simpl. f_equal.
  destruct (last (TypeProp.setUp its)) as [it|] eqn:Hlast; [|done]. simpl.
  rewrite last_lookup in Hlast. unfold TypeProp.setUp in Hlast.
  rewrite list_lookup_imap in Hlast.
  destruct (its !! _) as [it0|] eqn:Hit0; [|done].
  injection Hlast as <-. simpl.
  eapply Forall2_lookup_l in Hall as (w & _ & Hw); [|done].
  unfold TypeProp.deserializeTypePropertyIterator in Hw. cbv zeta in Hw.
  destruct (DeserializeAnyURI w); [by injection Hw as <-|].
  destruct (DeserializeString w); by injection Hw as <-.
Qed.

(** X10.  Removing what was just added gives the property back: the last
    position after [AppendString], for every property, and position 0
    after [PrependString] when every element records its own position. *)
Theorem Remove_undoes_add this v :
  TypeList.Remove (TypeProp.AppendString this v) (TypeProp.Len this) = Some this
  ∧ ((∀ (n : nat) it, TypeProp.properties this !! n = Some it →
        TypeProp.myIdx it = Z.of_nat n) →
     TypeList.Remove (TypeList.PrependString this v) 0 = Some this).
Proof.
  destruct this as [props a].
  unfold TypeList.Remove, TypeList.inBounds, TypeProp.Len. simpl. split.
  - rewrite length_app. simpl.
    destruct (Z.leb_spec 0 (Z.of_nat (length props))); [|lia].
    destruct (Z.ltb_spec (Z.of_nat (length props))
                (Z.of_nat (length props + 1))); [|lia].
    simpl. rewrite Nat2Z.id.
    rewrite take_app_length.
    rewrite drop_ge by (rewrite length_app; simpl; lia).
    simpl. by rewrite app_nil_r.
  - intros Hidx. change (Z.to_nat 0) with 0%nat. rewrite drop_0.
    f_equal. f_equal. apply list_eq. intros k.
    rewrite !reindexFrom_lookup.
    destruct (props !! k) as [it|] eqn:Hk; [|done]. simpl.
    f_equal. rewrite <- (setMyIdx_same it) at 2. rewrite (Hidx _ _ Hk).
    destruct it. unfold TypeList.setMyIdx. simpl. f_equal.
Qed.
Lemma serializesTo_Serialize this (xs : list raw) :
  TypeList.serializesTo this xs →
  TypeProp.Serialize this = Ok (TypeProp.shortcut xs).
Proof.
  intros Hxs. unfold TypeProp.Serialize.
  by rewrite (serializeElements_spec _ xs []).
Qed.

Lemma serialize_reindexFrom (from : Z) (its : list TypeProp.TypePropertyIterator)
    (xs : list raw) :
  Forall2 (λ it x, TypeProp.serialize it = Ok x) its xs →
  Forall2 (λ it x, TypeProp.serialize it = Ok x) (TypeList.reindexFrom from its) xs.
Proof. intros Hxs. by apply serialize_imap. Qed.

(** X22.  The list operations act on the wire value as on a list.  When
    the elements of a property serialize to [xs] and the string [v]
    serializes to [b], the property serializes to [xs ++ [b]] after
    [AppendString v] and to [b :: xs] after [PrependString v]; after
    [Remove idx] to [xs] without its element at [idx]; after
    [SetString idx v] to [xs] with [b] at [idx]; and after [Swap i j] to
    [xs] with the elements at [i] and [j] exchanged; each as the bare
    value when one element is left. *)
Theorem Serialize_after_mutation this (xs : list raw) v b :
  TypeList.serializesTo this xs →
  SerializeString v = Ok b →
  TypeProp.Serialize this = Ok (TypeProp.shortcut xs)
  ∧ TypeProp.Serialize (TypeProp.AppendString this v)
    = Ok (TypeProp.shortcut (xs ++ [b]))
  ∧ TypeProp.Serialize (TypeList.PrependString this v)
    = Ok (TypeProp.shortcut (b :: xs))
  ∧ (∀ idx this', TypeList.Remove this idx = Some this' →
       TypeProp.Serialize this'
       = Ok (TypeProp.shortcut (delete (Z.to_nat idx) xs)))
  ∧ (∀ idx this', TypeList.SetString this idx v = Some this' →
       TypeProp.Serialize this'
       = Ok (TypeProp.shortcut (<[Z.to_nat idx := b]> xs)))
  ∧ (∀ i j this', TypeList.Swap this i j = Some this' →
       ∃ xi xj, xs !! Z.to_nat i = Some xi ∧ xs !! Z.to_nat j = Some xj
         ∧ TypeProp.Serialize this'
           = Ok (TypeProp.shortcut
                   (<[Z.to_nat j := xi]> (<[Z.to_nat i := xj]> xs)))).
Proof.
  intros Hxs Hb. split; [by apply serializesTo_Serialize|].
  split; [|split; [|split; [|split]]].
  - apply serializesTo_Serialize. unfold TypeList.serializesTo. simpl.
    apply Forall2_app; [done|]. by constructor.
  - apply serializesTo_Serialize. unfold TypeList.serializesTo. simpl.
    constructor; [done|]. by apply serialize_reindexFrom.
  - intros idx this'. unfold TypeList.Remove.
    destruct (TypeList.inBounds this idx); [|done]. intros [= <-].
    apply serializesTo_Serialize. unfold TypeList.serializesTo. simpl.
    rewrite delete_take_drop. apply Forall2_app.
    + by apply Forall2_take.
    + apply serialize_reindexFrom. by apply Forall2_drop.
  - intros idx this'. unfold TypeList.SetString.
    destruct (TypeList.inBounds this idx); [|done]. intros [= <-].
    apply serializesTo_Serialize. unfold TypeList.serializesTo. simpl.
    by apply Forall2_insert.
  - intros i j this'. unfold TypeList.Swap.
    destruct (TypeList.At this i) as [pi|] eqn:Hi; [|done].
    destruct (TypeList.At this j) as [pj|] eqn:Hj; [|done]. intros [= <-].
    unfold TypeList.At in Hi, Hj.
    destruct (Z.ltb_spec i 0); [done|]. destruct (Z.ltb_spec j 0); [done|].
    destruct (Forall2_lookup_l _ _ _ _ _ Hxs Hi) as (xi & Hxi & Hsi).
    destruct (Forall2_lookup_l _ _ _ _ _ Hxs Hj) as (xj & Hxj & Hsj).
    exists xi, xj. split; [done|]. split; [done|].
    apply serializesTo_Serialize. unfold TypeList.serializesTo. simpl.
    apply Forall2_insert; [|done]. by apply Forall2_insert.
Qed.

(** X23.  At most one slot of an iterator holds a value: none in a new or
    cleared iterator, at most one after a setter, whatever its argument,
    and at most one in a deserialized iterator, where the unknown slot is
    used only when neither kind parses the value. *)
Theorem iterator_at_most_one_slot it :
  TypeList.slotsSet TypeProp.NewTypePropertyIterator = 0%nat
  ∧ TypeList.slotsSet (TypeProp.clear it) = 0%nat
  ∧ (∀ v, (TypeList.slotsSet (TypeProp.SetAnyURI it v) ≤ 1)%nat)
  ∧ (∀ v, (TypeList.slotsSet (TypeProp.SetIRI it v) ≤ 1)%nat)
  ∧ (∀ v, TypeList.slotsSet (TypeProp.SetString it v) = 1%nat)
  ∧ (∀ i aliasMap it',
       TypeProp.deserializeTypePropertyIterator i aliasMap = Ok (Some it') →
       (TypeList.slotsSet it' ≤ 1)%nat
       ∧ (TypeProp.HasAny it' = true → TypeProp.unknown it' = RNull)).
Proof.
  unfold TypeList.slotsSet, TypeProp.IsAnyURI, TypeProp.IsString.
  split; [simpl; rewrite ?is_set_None; done|].
  split; [simpl; rewrite ?is_set_None; done|].
  split; [intros [v|]; simpl; rewrite ?is_set_Some, ?is_set_None; simpl; lia|].
  split; [intros [v|]; simpl; rewrite ?is_set_Some, ?is_set_None; simpl; lia|].
  split; [intros v; simpl; rewrite ?is_set_None; done|].
  intros i aliasMap it'. unfold TypeProp.deserializeTypePropertyIterator. cbv zeta.
  destruct (DeserializeAnyURI i).
  { intros [= <-]. simpl. rewrite ?is_set_Some. simpl. split; [lia | done]. }
  destruct (DeserializeString i).
  { intros [= <-]. simpl. rewrite ?is_set_None. simpl. split; [lia | done]. }
  intros [= <-]. unfold TypeProp.HasAny, TypeProp.IsAnyURI, TypeProp.IsString.
  simpl. rewrite ?is_set_None. simpl. split; [|done].
  destruct (isNil i); simpl; lia.
Qed.
End TypeListFacts.

(** ** The "followers" property: slots, order and context *)

Lemma mergeContext_union (child ctx : gmap string string) :
  mergeContext child ctx = child ∪ ctx.
Proof.
  unfold mergeContext.
  apply (map_fold_weak_ind (λ r (c : gmap string string), r = c ∪ ctx)).
  - by rewrite (left_id_L ∅ (∪)).
  - intros k v c r _ ->. by rewrite insert_union_l.
Qed.

Section FollowersFacts.
Context `{Values}.
Context {OC C CP OCP : Type}.
Context `{!VocabType OC, !VocabType C, !VocabType CP, !VocabType OCP}.
Context `{!JSONLDContexter OC, !JSONLDContexter C, !JSONLDContexter CP,
          !JSONLDContexter OCP}.
Context (DeserializeOrderedCollection : typeDeserializer OC)
        (DeserializeCollection : typeDeserializer C)
        (DeserializeCollectionPage : typeDeserializer CP)
        (DeserializeOrderedCollectionPage : typeDeserializer OCP).
#[local] Abbreviation followers := (@Followers.FollowersProperty _ OC C CP OCP).
Implicit Types c this o : followers.
Implicit Types m : gmap string raw.
Implicit Types aliasMap : gmap string string.

#[local] Abbreviation DeserializeFollowers :=
  (Followers.DeserializeFollowersProperty
     DeserializeOrderedCollection DeserializeCollection
     DeserializeCollectionPage DeserializeOrderedCollectionPage).

Ltac slots :=
  unfold FollowersContext.slotsSet, Followers.IsOrderedCollection,
    Followers.IsCollection, Followers.IsCollectionPage,
    Followers.IsOrderedCollectionPage, Followers.IsIRI; simpl;
  rewrite ?is_set_Some, ?is_set_None; simpl.

(** X11.  At most one slot of a "followers" property holds a value, as its
    documentation promises: none in a new or cleared property, at most
    one after any setter, whatever its argument, and at most one in a
    property that was deserialized. *)
Theorem at_most_one_slot :
  FollowersContext.slotsSet (Followers.NewFollowersProperty : followers) = 0%nat
  ∧ (∀ this, FollowersContext.slotsSet (Followers.Clear this) = 0%nat)
  ∧ (∀ this v,
       (FollowersContext.slotsSet (Followers.SetOrderedCollection this v) ≤ 1)%nat)
  ∧ (∀ this v,
       (FollowersContext.slotsSet (Followers.SetCollection this v) ≤ 1)%nat)
  ∧ (∀ this v,
       (FollowersContext.slotsSet (Followers.SetCollectionPage this v) ≤ 1)%nat)
  ∧ (∀ this v,
       (FollowersContext.slotsSet (Followers.SetOrderedCollectionPage this v) ≤ 1)%nat)
  ∧ (∀ this v, (FollowersContext.slotsSet (Followers.SetIRI this v) ≤ 1)%nat)
  ∧ (∀ m aliasMap c,
       DeserializeFollowers m aliasMap = Ok (Some c) →
       (FollowersContext.slotsSet c ≤ 1)%nat).
Proof.
  split; [by slots|]. split; [intros this; by slots|].
  do 5 (split; [intros this [v|]; slots; lia|]).
  intros m aliasMap c. unfold Followers.DeserializeFollowersProperty. cbv zeta.
  destruct (m !! _) as [i|]; [|done].
  destruct (Followers.parseIRI i); [intros [= <-]; slots; lia|].
  assert (∀ a, (FollowersContext.slotsSet
                  ({| Followers.OrderedCollectionMember := None;
                      Followers.CollectionMember := None;
                      Followers.CollectionPageMember := None;
                      Followers.OrderedCollectionPageMember := None;
                      Followers.unknown := i; Followers.iri := None;
                      Followers.alias := a |} : followers) ≤ 1)%nat) as Hfall.
  { intros a. slots. destruct (isNil i); simpl; lia. }
  destruct (asMap i) as [m'|]; [|by intros [= <-]].
  destruct (DeserializeOrderedCollection m' aliasMap); [intros [= <-]; slots; lia|].
  destruct (DeserializeCollection m' aliasMap); [intros [= <-]; slots; lia|].
  destruct (DeserializeCollectionPage m' aliasMap); [intros [= <-]; slots; lia|].
  destruct (DeserializeOrderedCollectionPage m' aliasMap);
    [intros [= <-]; slots; lia | by intros [= <-]].
Qed.
(** X12.  A deserialized "followers" value that is not an entity
    serializes back: the unknown value comes out as it came in, and an IRI
    comes out as the text of the parsed URL.  The property carries the
    alias registered in the alias map. *)
Theorem Serialize_after_Deserialize m aliasMap c :
  DeserializeFollowers m aliasMap = Ok (Some c) →
  Followers.hasEntity c = false →
  ∃ i, m !! propNameFor (aliasOf aliasMap) "followers" = Some i
    ∧ Followers.alias c = aliasOf aliasMap
    ∧ Followers.Serialize c
      = Ok (match Followers.parseIRI i with
            | Some u => RString (url_String u)
            | None => i
            end).
Proof.
  unfold Followers.DeserializeFollowersProperty. cbv zeta.
  destruct (m !! _) as [i|]; [|done]. intros Hd Hent. exists i.
  split; [done|]. revert Hd Hent.
  assert (∀ v : followers, Followers.OrderedCollectionMember v ≠ None
            ∨ Followers.CollectionMember v ≠ None
            ∨ Followers.CollectionPageMember v ≠ None
            ∨ Followers.OrderedCollectionPageMember v ≠ None →
            Followers.hasEntity v = false → False) as Hno.
  { intros v Hv. unfold Followers.hasEntity, Followers.IsOrderedCollection,
      Followers.IsCollection, Followers.IsCollectionPage,
      Followers.IsOrderedCollectionPage. intros Hent.
    repeat (apply orb_false_elim in Hent as [Hent ?]).
    repeat match goal with
           | Hx : bool_decide _ = false |- _ => apply bool_decide_eq_false in Hx
           end.
    tauto. }
  destruct (Followers.parseIRI i); [by intros [= <-]|].
  destruct (asMap i) as [m'|]; [|by intros [= <-]].
  destruct (DeserializeOrderedCollection m' aliasMap).
  { intros [= <-] Hent. exfalso. eapply Hno; [|exact Hent]. by left. }
  destruct (DeserializeCollection m' aliasMap).
  { intros [= <-] Hent. exfalso. eapply Hno; [|exact Hent]. by right; left. }
  destruct (DeserializeCollectionPage m' aliasMap).
  { intros [= <-] Hent. exfalso. eapply Hno; [|exact Hent]. by right; right; left. }
  destruct (DeserializeOrderedCollectionPage m' aliasMap).
  { intros [= <-] Hent. exfalso. eapply Hno; [|exact Hent]. by right; right; right. }
  by intros [= <-].
Qed.

Lemma lessMember_asym {T : Type} `{!VocabType T} (a b : option T) :
  (∀ x y : T, type_LessThan x y = true → type_LessThan y x = false) →
  Followers.lessMember a b = true → Followers.lessMember b a = false.
Proof. intros Hasym. destruct a, b; simpl; by auto. Qed.

Lemma lessIRI_asym (a b : option URL) :
  Followers.lessIRI a b = true → Followers.lessIRI b a = false.
Proof.
  destruct a, b; simpl; try done. unfold String.ltb.
  rewrite (String.compare_antisym (url_String u) (url_String u0)).
  by destruct (String.compare (url_String u0) (url_String u)).
Qed.

(** X13.  When the comparison of each entity kind never holds in both
    directions, neither does [LessThan] on "followers" properties, and no
    property is below itself. *)
Theorem LessThan_asymmetric this o :
  (∀ x y : OC, type_LessThan x y = true → type_LessThan y x = false) →
  (∀ x y : C, type_LessThan x y = true → type_LessThan y x = false) →
  (∀ x y : CP, type_LessThan x y = true → type_LessThan y x = false) →
  (∀ x y : OCP, type_LessThan x y = true → type_LessThan y x = false) →
  Followers.LessThan this this = false
  ∧ (Followers.LessThan this o = true → Followers.LessThan o this = false).
Proof.
  intros H1 H2 H3 H4.
  assert (∀ a b : followers,
            Followers.LessThan a b = true → Followers.LessThan b a = false) as Hasym.
  { intros a b. unfold Followers.LessThan. cbv zeta.
    destruct (Z.ltb_spec (Followers.KindIndex a) (Followers.KindIndex b)) as [Hlt|Hge].
    { intros _. destruct (Z.ltb_spec (Followers.KindIndex b) (Followers.KindIndex a));
        [lia|].
      destruct (Z.gtb_spec (Followers.KindIndex b) (Followers.KindIndex a)); [done|lia]. }
    destruct (Z.gtb_spec (Followers.KindIndex a) (Followers.KindIndex b)) as [Hgt|Hle];
      [done|].
    assert (Followers.KindIndex a = Followers.KindIndex b) as Heq by lia.
    rewrite Heq, Z.ltb_irrefl.
    destruct (Z.gtb_spec (Followers.KindIndex b) (Followers.KindIndex b)); [lia|].
    revert Heq. unfold Followers.KindIndex.
    destruct (Followers.IsOrderedCollection a), (Followers.IsOrderedCollection b);
      try (intros; lia || by eauto using lessMember_asym); try by repeat case_match.
    destruct (Followers.IsCollection a), (Followers.IsCollection b);
      try (intros; lia || by eauto using lessMember_asym); try by repeat case_match.
    destruct (Followers.IsCollectionPage a), (Followers.IsCollectionPage b);
      try (intros; lia || by eauto using lessMember_asym); try by repeat case_match.
    destruct (Followers.IsOrderedCollectionPage a),
      (Followers.IsOrderedCollectionPage b);
      try (intros; lia || by eauto using lessMember_asym); try by repeat case_match.
    destruct (Followers.IsIRI a), (Followers.IsIRI b); try done.
    intros _. apply lessIRI_asym. }
  split; [|apply Hasym].
  destruct (Followers.LessThan this this) eqn:Hl; [|done].
  by rewrite (Hasym _ _ Hl) in Hl.
Qed.

(** X14.  The context of a "followers" property that holds no entity is
    the one entry of the namespace with the alias of the property.  When
    it holds an entity, the context is the entity's context together with
    that entry, and the entity's entry wins where both have the key. *)
Theorem JSONLDContext_entity_wins this :
  (Followers.hasEntity this = false →
     FollowersContext.JSONLDContext this
     = {[ asNamespace := Followers.alias this ]})
  ∧ (∀ v, FollowersContext.JSONLDContext (Followers.SetOrderedCollection this (Some v))
          = type_JSONLDContext v ∪ {[ asNamespace := Followers.alias this ]})
  ∧ (∀ v, FollowersContext.JSONLDContext (Followers.SetCollection this (Some v))
          = type_JSONLDContext v ∪ {[ asNamespace := Followers.alias this ]})
  ∧ (∀ v, FollowersContext.JSONLDContext (Followers.SetCollectionPage this (Some v))
          = type_JSONLDContext v ∪ {[ asNamespace := Followers.alias this ]})
  ∧ (∀ v, FollowersContext.JSONLDContext
            (Followers.SetOrderedCollectionPage this (Some v))
          = type_JSONLDContext v ∪ {[ asNamespace := Followers.alias this ]})
  ∧ (∀ v k a, type_JSONLDContext v !! k = Some a →
       FollowersContext.JSONLDContext (Followers.SetCollection this (Some v)) !! k
       = Some a).
Proof.
  split.
  { unfold Followers.hasEntity, Followers.IsOrderedCollection,
      Followers.IsCollection, Followers.IsCollectionPage,
      Followers.IsOrderedCollectionPage, FollowersContext.JSONLDContext.
    intros Hent. cbv zeta.
    destruct (Followers.OrderedCollectionMember this);
      [by rewrite is_set_Some in Hent|].
    destruct (Followers.CollectionMember this);
      [by rewrite ?is_set_None, is_set_Some in Hent|].
    destruct (Followers.CollectionPageMember this);
      [by rewrite ?is_set_None, is_set_Some in Hent|].
    destruct (Followers.OrderedCollectionPageMember this);
      [by rewrite ?is_set_None, is_set_Some in Hent|].
    by rewrite mergeContext_union, (left_id_L ∅ (∪)). }
  do 4 (split; [intros v; unfold FollowersContext.JSONLDContext; simpl;
                apply mergeContext_union|]).
  intros v k a Hk. unfold FollowersContext.JSONLDContext. simpl.
  rewrite mergeContext_union. by apply lookup_union_Some_l.
Qed.
End FollowersFacts.

(** ** The entity: type name, output keys, order and context *)

Lemma stripPrefix_app (p s : string) : stripPrefix (p +:+ s) p = Some s.
Proof. induction p as [|c p IH]; simpl; [by destruct s|]. by rewrite Ascii.eqb_refl. Qed.

Lemma stripPrefix_colon (s a : string) :
  ":"%char ∉ list_ascii_of_string s → stripPrefix s (a +:+ ":") = None.
Proof.
  revert s. induction a as [|c a IH]; intros s Hs.
  - destruct s as [|d s]; [reflexivity|]. simpl in Hs.
    change (stripPrefix (String d s) ("" +:+ ":"))
      with (if Ascii.eqb ":" d then stripPrefix s "" else None).
    destruct (Ascii.eqb_spec ":"%char d) as [<-|]; [|done].
    exfalso. apply Hs. by left.
  - destruct s as [|d s]; [reflexivity|]. simpl in Hs.
    change (stripPrefix (String d s) (String c a +:+ ":"))
      with (if Ascii.eqb c d then stripPrefix s (a +:+ ":") else None).
    destruct (Ascii.eqb c d); [|done]. apply IH.
    intros Hin. apply Hs. by right.
Qed.

Lemma TrimPrefix_type_name aliasMap :
  TrimPrefix "OrderedCollectionPage" (Page.aliasPrefixOf aliasMap)
  = "OrderedCollectionPage".
Proof.
  unfold TrimPrefix, Page.aliasPrefixOf.
  destruct (aliasMap !! asNamespace) as [a|]; [|done].
  rewrite stripPrefix_colon; [done|]. by apply (bool_decide_unpack _).
Qed.

Lemma TrimPrefix_app (p s : string) : TrimPrefix (p +:+ s) p = s.
Proof. unfold TrimPrefix. by rewrite stripPrefix_app. Qed.

(** X15.  Whatever alias is registered, the type check accepts the bare
    type name, the type name behind the registered prefix, and a list
    that holds the bare type name at any position. *)
Theorem checkType_accepts_type_name (rest : gmap string raw) aliasMap
    (before after : list raw) :
  let aliasPrefix := Page.aliasPrefixOf aliasMap in
  Page.checkType (<["type" := RString "OrderedCollectionPage"]> rest) aliasPrefix
  = Ok ()
  ∧ Page.checkType
      (<["type" := RString (aliasPrefix +:+ "OrderedCollectionPage")]> rest)
      aliasPrefix
    = Ok ()
  ∧ Page.checkType
      (<["type" := RList (before ++ RString "OrderedCollectionPage" :: after)]> rest)
      aliasPrefix
    = Ok ().
Proof.
  cbv zeta. unfold Page.checkType. rewrite !lookup_insert_eq.
  rewrite TrimPrefix_type_name, TrimPrefix_app. split; [done|]. split; [done|].
  rewrite (existsb_isTypeName_true _ _ "OrderedCollectionPage"); [done| |].
  - apply elem_of_app. right. by left.
  - apply TrimPrefix_type_name.
Qed.

Section PageOutput.
Context `{Values} `{!Page.Manager}.
Implicit Types this : Page.OrderedCollectionPage.
Implicit Types m out : gmap string raw.

Lemma maybeSerialize_keys (p : option Page.Property) m out :
  Page.maybeSerialize p m = Ok out →
  (∀ k, is_Some (m !! k) → is_Some (out !! k))
  ∧ (∀ k, is_Some (out !! k) →
       is_Some (m !! k) ∨ ∃ q, p = Some q ∧ Page.prop_Name q = k).
Proof.
  destruct p as [q|]; simpl; [|intros [= <-]; by auto].
  intros Hs. apply bind_Ok_inv in Hs as (i & _ & [= <-]).
  destruct (isNil i); [by auto|]. split.
  - intros k Hk. destruct (decide (Page.prop_Name q = k)) as [<-|Hne].
    + by rewrite lookup_insert_eq.
    + by rewrite lookup_insert_ne.
  - intros k. destruct (decide (Page.prop_Name q = k)) as [<-|Hne]; [by eauto|].
    rewrite lookup_insert_ne by done. by auto.
Qed.

Lemma serializeFields_keys (fields : list (option Page.Property)) m out :
  Page.serializeFields fields m = Ok out →
  (∀ k, is_Some (m !! k) → is_Some (out !! k))
  ∧ (∀ k, is_Some (out !! k) →
       is_Some (m !! k) ∨ ∃ q, Some q ∈ fields ∧ Page.prop_Name q = k).
Proof.
  revert m. induction fields as [|p fields IH]; intros m; simpl.
  - intros [= <-]. by auto.
  - intros Hs. apply bind_Ok_inv in Hs as (m' & Hp & Hs).
    apply maybeSerialize_keys in Hp as [Hp1 Hp2].
    apply IH in Hs as [Hs1 Hs2]. split; [by auto|].
    intros k Hk. destruct (Hs2 k Hk) as [Hm'|(q & Hq & Hn)].
    + destruct (Hp2 k Hm') as [?|(q & -> & Hn)]; [by left|].
      right. exists q. split; [by left | done].
    + right. exists q. split; [by right | done].
Qed.

Lemma serializeFields_Err (fields : list (option Page.Property)) m e :
  Page.serializeFields fields m = Err e →
  ∃ q, Some q ∈ fields ∧ Page.prop_Serialize q = Err e.
Proof.
  revert m. induction fields as [|p fields IH]; intros m; simpl; [done|].
  destruct p as [q|]; simpl.
  - destruct (Page.prop_Serialize q) as [i|e'] eqn:Hq; simpl.
    + intros Hs. apply IH in Hs as (q' & Hq' & He). exists q'.
      split; [by right | done].
    + intros [= <-]. exists q. split; [by left | done].
  - intros Hs. apply IH in Hs as (q' & Hq' & He). exists q'.
    split; [by right | done].
Qed.

Lemma serializeFields_isOk (fields : list (option Page.Property)) m :
  isOk (Page.serializeFields fields m)
  = forallb (λ p, from_option (λ q, isOk (Page.prop_Serialize q)) true p) fields.
Proof.
  revert m. induction fields as [|p fields IH]; intros m; simpl; [done|].
  destruct p as [q|]; simpl; [|apply IH].
  destruct (Page.prop_Serialize q); simpl; [apply IH | done].
Qed.

(** X16.  A serialized entity always has a "type" entry and an entry for
    every key of its bag of unknown properties; and every key of the
    output is "type", the name of a known property that is set, or a key
    of the bag. *)
Theorem Serialize_keys this out :
  Page.Serialize this = Ok out →
  is_Some (out !! "type")
  ∧ (∀ k, is_Some (Page.unknown this !! k) → is_Some (out !! k))
  ∧ (∀ k, is_Some (out !! k) →
       k = "type"
       ∨ (∃ q, Some q ∈ Page.knownFields this ∧ Page.prop_Name q = k)
       ∨ is_Some (Page.unknown this !! k)).
Proof.
  unfold Page.Serialize. intros Hs.
  apply bind_Ok_inv in Hs as (known & Hk & [= <-]).
  rewrite serializeKnown_fields in Hk.
  apply serializeFields_keys in Hk as [Hk1 Hk2].
  assert (is_Some (known !! "type")) as Htype.
  { apply Hk1. unfold Page.initialType. cbv zeta. by rewrite lookup_insert_eq. }
  split; [|split].
  - rewrite serializeUnknown_lookup. by destruct (known !! "type").
  - intros k Hu. rewrite serializeUnknown_lookup. by destruct (known !! k).
  - intros k. rewrite serializeUnknown_lookup.
    destruct (known !! k) as [w|] eqn:Hw; [|by auto].
    intros _. destruct (Hk2 k) as [Hinit|Hq]; [by rewrite Hw| |by auto].
    left. unfold Page.initialType in Hinit. cbv zeta in Hinit.
    destruct (decide (k = "type")) as [->|Hne]; [done|].
    rewrite lookup_insert_ne, lookup_empty in Hinit by done.
    by destruct Hinit.
Qed.

(** X17.  [Serialize] succeeds exactly when every known property that is
    set serializes, the "type" property included; and an error it returns
    is the error of one of them. *)
Theorem Serialize_fails_with_a_property this :
  isOk (Page.Serialize this)
  = forallb (λ p, from_option (λ q, isOk (Page.prop_Serialize q)) true p)
            (Page.knownFields this)
  ∧ ∀ e, Page.Serialize this = Err e →
      ∃ q, Some q ∈ Page.knownFields this ∧ Page.prop_Serialize q = Err e.
Proof.
  unfold Page.Serialize. rewrite serializeKnown_fields. split.
  - rewrite <- (serializeFields_isOk _ (Page.initialType this)).
    by destruct (Page.serializeFields _ _).
  - intros e.
    destruct (Page.serializeFields _ _) as [known|e'] eqn:Hk; [done|].
    intros [= <-]. by apply serializeFields_Err in Hk.
Qed.
End PageOutput.

Section PageOrderFacts.
Context `{Values} `{!PageOrder.PropertyMethods}.
Implicit Types this o : Page.OrderedCollectionPage.

(** X18.  No type name is both extended by the entity and disjoint with
    it; the entity's own name is neither; and nothing extends the
    entity. *)
Theorem hierarchy_consistent (other : string) :
  PageOrder.OrderedCollectionPageExtends other
  && PageOrder.OrderedCollectionPageIsDisjointWith other = false
  ∧ PageOrder.OrderedCollectionPageExtends "OrderedCollectionPage" = false
  ∧ PageOrder.OrderedCollectionPageIsDisjointWith "OrderedCollectionPage" = false
  ∧ PageOrder.OrderedCollectionPageIsExtendedBy other = false
  ∧ (∀ this, PageOrder.IsExtending this other = true →
       other ∈ ["Collection"; "CollectionPage"; "Object"; "OrderedCollection"]).
Proof.
  split; [|split; [done|split; [done|split; [done|]]]].
  - unfold PageOrder.OrderedCollectionPageExtends,
      PageOrder.OrderedCollectionPageIsDisjointWith. cbv zeta. simpl.
    repeat case_bool_decide; subst; done.
  - intros this. unfold PageOrder.IsExtending,
      PageOrder.OrderedCollectionPageExtends. cbv zeta. simpl.
    repeat case_bool_decide; subst; try done; intros _; set_solver.
Qed.

Lemma compareProperty_irrefl {A : Type} (less : A → A → bool) (x : option A) :
  (∀ a, less a a = false) → PageOrder.compareProperty less x x = None.
Proof. intros Hless. destruct x as [a|]; simpl; [|done]. by rewrite Hless. Qed.

Lemma TypeList_LessThan_irrefl (tp : TypeProp.TypeProperty) :
  (∀ u, LessAnyURI u u = false) → (∀ s, LessString s s = false) →
  TypeList.LessThan tp tp = false.
Proof.
  intros Hu Hs. unfold TypeList.LessThan.
  destruct (lessThanLoop_irrefl (TypeProp.properties tp) [] Hu Hs) as [Hl _].
  rewrite app_nil_r in Hl. rewrite Hl. apply Z.ltb_irrefl.
Qed.

(** X19.  When no property and no value is below itself, two entities
    with the same known properties are ordered by the number of their
    unknown properties alone; in particular no entity is below itself. *)
Theorem LessThan_same_known this o :
  (∀ p, PageOrder.prop_LessThan p p = false) →
  (∀ u, LessAnyURI u u = false) → (∀ s, LessString s s = false) →
  Page.knownFields this = Page.knownFields o →
  Page.Type_ this = Page.Type_ o →
  PageOrder.LessThan this o
  = bool_decide (size (Page.unknown this) < size (Page.unknown o))%nat
  ∧ PageOrder.LessThan this this = false.
Proof.
  intros Hp Hu Hs Hknown Htype.
  assert (∀ a b : Page.OrderedCollectionPage,
            Page.knownFields a = Page.knownFields b → Page.Type_ a = Page.Type_ b →
            PageOrder.LessThan a b
            = bool_decide (size (Page.unknown a) < size (Page.unknown b))%nat) as Hgen.
  { intros a b Hk Ht. unfold PageOrder.LessThan, PageOrder.compareKnown.
    unfold Page.knownFields in Hk. injection Hk as <-. 
    repeat match goal with Hx : _ = _ |- _ => rewrite <- Hx; clear Hx end.
    rewrite !(compareProperty_irrefl PageOrder.prop_LessThan) by done.
    rewrite (compareProperty_irrefl TypeList.LessThan)
      by (intros tp; by apply TypeList_LessThan_irrefl).
    simpl. unfold PageOrder.GetUnknownProperties.
    destruct (Z.ltb_spec (Z.of_nat (size (Page.unknown a)))
                (Z.of_nat (size (Page.unknown b)))).
    - rewrite bool_decide_eq_true_2; [done | lia].
    - rewrite bool_decide_eq_false_2 by lia. by case_match. }
  split; [by apply Hgen|].
  rewrite Hgen by done. apply bool_decide_eq_false_2. lia.
Qed.

(** X20.  [LessThan] on entities is not asymmetric.  A property that only
    the left entity has does not decide the comparison, one that only the
    right entity has does: when one entity has "altitude" and no
    "attachment" and the other has "attachment" and no "altitude", each
    is below the other. *)
Theorem LessThan_both_ways this o p q :
  Page.Altitude this = Some p → Page.Altitude o = None →
  Page.Attachment this = None → Page.Attachment o = Some q →
  PageOrder.LessThan this o = true ∧ PageOrder.LessThan o this = true.
Proof.
  intros Hp Hnone Hnone' Hq. unfold PageOrder.LessThan, PageOrder.compareKnown.
  by rewrite Hp, Hnone, Hnone', Hq.
Qed.

Lemma helperJSONLDContext_fmap {A : Type} (context : A → gmap string string)
    (i : option A) (toMerge : gmap string string) :
  PageOrder.helperJSONLDContext id (context <$> i) toMerge
  = PageOrder.helperJSONLDContext context i toMerge.
Proof. by destruct i. Qed.

Lemma JSONLDContext_contexts this :
  PageOrder.JSONLDContext this
  = foldl (λ (ctx : gmap string string) c, PageOrder.helperJSONLDContext id c ctx)
          {[ asNamespace := Page.alias this ]} (PageOrder.contexts this).
Proof.
  unfold PageOrder.JSONLDContext, PageOrder.contexts. cbv zeta. simpl.
  by rewrite !helperJSONLDContext_fmap.
Qed.

Lemma contexts_fold_keys (l : list (option (gmap string string)))
    (ctx : gmap string string) (k : string) :
  is_Some (foldl (λ (ctx : gmap string string) c,
                    PageOrder.helperJSONLDContext id c ctx) ctx l !! k)
  ↔ is_Some (ctx !! k) ∨ ∃ c, Some c ∈ l ∧ is_Some (c !! k).
Proof.
  revert ctx. induction l as [|c l IH]; intros ctx; simpl.
  - split; [by auto|]. intros [?|(c & Hc & _)]; [done|]. by apply elem_of_nil in Hc.
  - rewrite IH. destruct c as [c|]; simpl.
    + rewrite mergeContext_union, lookup_union_is_Some. split.
      * intros [[Hc|Hctx]|(c' & Hc' & Hk)]; [right|by left|right].
        -- exists c. split; [by left | done].
        -- exists c'. split; [by right | done].
      * intros [Hctx|(c' & Hc' & Hk)]; [by left; right|].
        apply elem_of_cons in Hc' as [[= ->]|Hc']; [by left; left|].
        right. by exists c'.
    + split.
      * intros [Hctx|(c' & Hc' & Hk)]; [by left|]. right. exists c'.
        split; [by right | done].
      * intros [Hctx|(c' & Hc' & Hk)]; [by left|].
        apply elem_of_cons in Hc' as [[=]|Hc']. right. by exists c'.
Qed.

Lemma contexts_fold_same (l : list (option (gmap string string)))
    (ctx : gmap string string) :
  (∀ c, Some c ∈ l → c = ctx) →
  foldl (λ (ctx : gmap string string) c,
           PageOrder.helperJSONLDContext id c ctx) ctx l = ctx.
Proof.
  induction l as [|c l IH]; intros Hl; simpl; [done|].
  destruct c as [c|]; simpl.
  - rewrite mergeContext_union, (Hl c) by (by left).
    rewrite (idemp_L (∪)). apply IH. intros c' Hc'. apply Hl. by right.
  - apply IH. intros c' Hc'. apply Hl. by right.
Qed.

(** X21.  The context of an entity always has the entry of the
    ActivityStreams namespace; its keys are that namespace and the keys
    of the contexts of the known properties that are set; and when each of
    these contexts is the one entry with the alias of the entity, so is
    the context of the entity. *)
Theorem JSONLDContext_keys this (k : string) :
  is_Some (PageOrder.JSONLDContext this !! asNamespace)
  ∧ (is_Some (PageOrder.JSONLDContext this !! k)
     ↔ k = asNamespace
       ∨ ∃ c, Some c ∈ PageOrder.contexts this ∧ is_Some (c !! k))
  ∧ ((∀ c, Some c ∈ PageOrder.contexts this →
        c = {[ asNamespace := Page.alias this ]}) →
     PageOrder.JSONLDContext this = {[ asNamespace := Page.alias this ]}).
Proof.
  rewrite JSONLDContext_contexts. split; [|split].
  - apply contexts_fold_keys. left. by rewrite lookup_singleton_eq.
  - rewrite contexts_fold_keys. split.
    + intros [Hk|Hc]; [left | by right].
      destruct (decide (k = asNamespace)) as [->|Hne]; [done|].
      rewrite lookup_singleton_ne in Hk by done. by destruct Hk.
    + intros [->|Hc]; [left | by right]. by rewrite lookup_singleton_eq.
  - apply contexts_fold_same.
Qed.
End PageOrderFacts.

(** ** Runs on sample properties and entities *)

Section TypeListRuns.
Import Sample SampleList.

Lemma ltb_irrefl (s : string) : String.ltb s s = false.
Proof.
  unfold String.ltb. pose proof (String.compare_antisym s s) as Hc.
  by destruct (String.compare s s).
Qed.

Lemma ltb_asym (s t : string) : String.ltb s t = true → String.ltb t s = false.
Proof.
  unfold String.ltb. rewrite (String.compare_antisym s t).
  by destruct (String.compare t s).
Qed.

Lemma twoTypes_wellIndexed : TypeList.wellIndexed twoTypes.
Proof.
  intros n it Hit. destruct n as [|[|n]]; [| |done]; injection Hit as <-; by split.
Qed.

(** X3, run on the empty property and on the first element of
    [["Object", "OrderedCollectionPage"]]. *)
Lemma Next_Prev_follow_positions_witness :
  TypeList.Begin TypeProp.NewTypeProperty = None
  ∧ TypeList.Begin twoTypes = Some firstType
  ∧ TypeList.Next twoTypes firstType = Some (Some secondType)
  ∧ TypeList.Prev twoTypes firstType = Some None.
Proof.
  destruct (Next_Prev_follow_positions TypeProp.NewTypeProperty 0 firstType)
    as (_ & _ & Hempty & _).
  destruct (Next_Prev_follow_positions twoTypes 0 firstType)
    as (Hbegin & _ & _ & Hwalk).
  split; [by apply Hempty|]. split; [exact Hbegin|].
  apply Hwalk; [exact twoTypes_wellIndexed | reflexivity].
Defined.

(** X6, run on [["Object"]] against [["Object", "OrderedCollectionPage"]]. *)
Lemma LessThan_prefix_witness :
  TypeList.LessThan oneType oneType = false
  ∧ TypeList.LessThan oneType twoTypes = true
  ∧ TypeList.LessThan twoTypes oneType = false.
Proof.
  destruct (@LessThan_prefix netURL values oneType twoTypes [secondType]
              ltb_irrefl ltb_irrefl eq_refl) as [Hrefl Hprefix].
  split; [exact Hrefl | by apply Hprefix].
Defined.

(** X10, run on [["Object", "OrderedCollectionPage"]] and the string "Page". *)
Lemma Remove_undoes_add_witness :
  TypeList.Remove (TypeProp.AppendString twoTypes "Page") 2 = Some twoTypes
  ∧ TypeList.Remove (TypeList.PrependString twoTypes "Page") 0 = Some twoTypes.
Proof.
  destruct (Remove_undoes_add twoTypes "Page") as [Happend Hprepend].
  split; [exact Happend|].
  apply Hprepend. intros n it Hit. by apply twoTypes_wellIndexed.
Defined.
Lemma twoTypes_serializesTo :
  TypeList.serializesTo twoTypes [RString "Object"; RString "OrderedCollectionPage"].
Proof. unfold TypeList.serializesTo. simpl. by repeat constructor. Qed.

(** X22, run on [["Object", "OrderedCollectionPage"]] and the string
    "Page". *)
Lemma Serialize_after_mutation_witness :
  TypeProp.Serialize twoTypes
  = Ok (RList [RString "Object"; RString "OrderedCollectionPage"])
  ∧ TypeProp.Serialize (TypeProp.AppendString twoTypes "Page")
    = Ok (RList [RString "Object"; RString "OrderedCollectionPage"; RString "Page"])
  ∧ TypeProp.Serialize (TypeList.PrependString twoTypes "Page")
    = Ok (RList [RString "Page"; RString "Object"; RString "OrderedCollectionPage"])
  ∧ (∃ this', TypeList.Remove twoTypes 0 = Some this'
       ∧ TypeProp.Serialize this' = Ok (RString "OrderedCollectionPage")).
Proof.
  destruct (Serialize_after_mutation twoTypes
              [RString "Object"; RString "OrderedCollectionPage"]
              "Page" (RString "Page") twoTypes_serializesTo eq_refl)
    as (Hthis & Happend & Hprepend & Hremove & _).
  split; [exact Hthis|]. split; [exact Happend|]. split; [exact Hprepend|].
  eexists. split; [reflexivity|]. by apply (Hremove 0).
Defined.
End TypeListRuns.

Section FollowersRuns.
Import Sample SampleList.

Lemma entity_LessThan_asym (x y : entity) :
  type_LessThan x y = true → type_LessThan y x = false.
Proof.
  simpl. intros Hxy. apply bool_decide_eq_true in Hxy.
  apply bool_decide_eq_false. lia.
Qed.

(** X12, run on [{"followers": "https://example.org/followers"}]. *)
Lemma Serialize_after_Deserialize_witness :
  ∃ i, iriDoc !! "followers" = Some i
    ∧ Followers.alias iriCell = ""
    ∧ Followers.Serialize iriCell
      = Ok (match Followers.parseIRI i with
            | Some u => RString (url_String u)
            | None => i
            end).
Proof.
  exact (Serialize_after_Deserialize
           (deserializeEntity "OrderedCollection") (deserializeEntity "Collection")
           (deserializeEntity "CollectionPage")
           (deserializeEntity "OrderedCollectionPage") iriDoc ∅ iriCell
           eq_refl eq_refl).
Defined.

(** X13, run on the cell holding an IRI against the cell holding a
    collection. *)
Lemma LessThan_asymmetric_witness :
  Followers.LessThan iriCell iriCell = false
  ∧ Followers.LessThan collectionCell iriCell = false.
Proof.
  destruct (LessThan_asymmetric iriCell collectionCell
              entity_LessThan_asym entity_LessThan_asym
              entity_LessThan_asym entity_LessThan_asym) as [Hrefl Hasym].
  split; [exact Hrefl | apply Hasym; reflexivity].
Defined.
End FollowersRuns.

Section PageRuns.
Import Sample SampleList.

(** X16, run on the entity of [richDoc] and its output. *)
Lemma Serialize_keys_witness :
  is_Some (richOut !! "type")
  ∧ (∀ k, is_Some (Page.unknown richPage !! k) → is_Some (richOut !! k))
  ∧ (∀ k, is_Some (richOut !! k) →
       k = "type"
       ∨ (∃ q, Some q ∈ Page.knownFields richPage ∧ Page.prop_Name q = k)
       ∨ is_Some (Page.unknown richPage !! k)).
Proof. exact (Serialize_keys richPage richOut eq_refl). Defined.

(** X19, run on the entity of [richDoc] against the entity of the same
    document with one more unknown entry. *)
Lemma LessThan_same_known_witness :
  PageOrder.LessThan richPage extendedPage = true
  ∧ PageOrder.LessThan richPage richPage = false.
Proof.
  destruct (@LessThan_same_known netURL values propertyMethods
              richPage extendedPage
              (λ p, ltb_irrefl (Page.prop_Name p)) ltb_irrefl ltb_irrefl
              eq_refl eq_refl) as [Hless Hrefl].
  split; [|exact Hrefl]. by rewrite Hless.
Defined.

(** X20, run on an entity with "altitude" alone against an entity with
    "attachment" alone. *)
Lemma LessThan_both_ways_witness :
  PageOrder.LessThan altitudePage attachmentPage = true
  ∧ PageOrder.LessThan attachmentPage altitudePage = true.
Proof.
  exact (LessThan_both_ways altitudePage attachmentPage
           {| Page.prop_Name := "altitude";
              Page.prop_Serialize := Ok (RString "12") |}
           {| Page.prop_Name := "attachment";
              Page.prop_Serialize := Ok (RString "note") |}
           eq_refl eq_refl eq_refl eq_refl).
Defined.
End PageRuns.
